(** * Gaussian mixture fitting by EM: a shallow embedding

    The development follows [GMM_2.5D_with_EM_visualized]: the parameter
    initializer [initialize_parameters], the E-step [expectation_step], the
    M-step [maximization_step], the scorer [compute_aic] and the loop of
    [run_em_algorithm] with its patience rule.

    Numbers.  The arrays of the program hold IEEE binary64 values.  The
    numeric functions are written once, over an interface [Arith] of the
    arithmetic operations they use, and read at two instances:
    - [Float64.float], the binary64 numbers of [SpecFloat] (signed zeros,
      infinities, NaN, round to nearest even); everything evaluates there;
    - [R], the exact reals, in which the algebraic identities of the
      E-step, of the M-step and of the scorer are stated (the program meets
      them up to rounding).
    The loop of [run_em_algorithm] only subtracts and compares scores; it is
    kept in binary64 throughout, and is generic in what the three steps and
    the plot compute.  The plot that it calls in the scheduled iterations
    is the array computation of [plot_gaussian_mixtures], which can raise.

    Arrays.  A one-dimensional array is a list and a two-dimensional one a
    list of rows.  Sums are taken from left to right, starting from the
    first element.  The functions are modelled on arrays of matching shapes;
    the exceptions that depend on the values or on the number of points and
    components are modelled ([IndexError], [AxisError], the errors of the
    library, [ZeroDivisionError] and [ValueError] in the initializer).

    Objects.  Where a property is about which arrays a step writes, the
    steps are read over a store of arrays, with references, allocation and
    the assignment in place of the E-step.

    Library calls.  [scipy.stats.multivariate_normal], [numpy.log] and
    [numpy.random.rand] are parameters of the model.

    Scaffolding.  [generate_gaussian_samples], [plot_gaussian_mixtures] and
    [main] are modelled by the arrays they compute and hand to matplotlib:
    the samples and the two columns scattered, the density drawn over the
    mesh, the scores plotted.  The global generator of numpy is a state
    that the draws thread ([numpy.random.multivariate_normal] and
    [numpy.linspace] are parameters); the drawing calls of matplotlib
    themselves are outside the model. *)

From Stdlib Require Import List ZArith Bool Lia.
From Stdlib Require Import Reals Lra.
From Stdlib Require Import Floats.SpecFloat.
Import ListNotations.

Set Implicit Arguments.

(** * Exceptions and results *)

(** The Python exceptions that the modelled code can raise. *)
Inductive exn : Type :=
| ZeroDivisionError
| ValueError
| IndexError
| AxisError
| LinAlgError.

(** A call either returns a value or raises. *)
Inductive result (A : Type) : Type :=
| Returned (a : A)
| Raised (e : exn).

Arguments Returned {A} a.
Arguments Raised {A} e.

Definition bind {A B : Type} (c : result A) (k : A -> result B) : result B :=
  match c with
  | Returned a => k a
  | Raised e => Raised e
  end.

Declare Scope result_scope.
Delimit Scope result_scope with result.
Notation "x <- c ;; k" := (bind c (fun x => k))
  (at level 61, c at next level, right associativity) : result_scope.
Notation "' pat <- c ;; k" := (bind c (fun x => match x with pat => k end))
  (at level 61, pat pattern, c at next level, right associativity) : result_scope.
Local Open Scope result_scope.

Definition returns {A : Type} (c : result A) : Prop :=
  exists a, c = Returned a.

Definition raises {A : Type} (c : result A) : Prop :=
  exists e, c = Raised e.

(** [xs[i]] for a non-negative index. *)
Definition index {A : Type} (xs : list A) (i : nat) : result A :=
  match nth_error xs i with
  | Some x => Returned x
  | None => Raised IndexError
  end.

(** A list comprehension whose body may raise: the first exception wins. *)
Fixpoint comprehension {A B : Type} (f : A -> result B) (xs : list A)
  : result (list B) :=
  match xs with
  | [] => Returned []
  | x :: xs' =>
      y <- f x ;;
      ys <- comprehension f xs' ;;
      Returned (y :: ys)
  end.

(** [range(n)] for a Python integer [n]; empty when [n <= 0]. *)
Definition range (n : Z) : list Z :=
  map Z.of_nat (seq 0 (Z.to_nat n)).

(** * Binary64 *)

Module Float64.

Definition prec : Z := 53.
Definition emax : Z := 1024.

Definition float : Type := spec_float.

Definition fadd : float -> float -> float := SFadd prec emax.
Definition fsub : float -> float -> float := SFsub prec emax.
Definition fmul : float -> float -> float := SFmul prec emax.
Definition fdiv : float -> float -> float := SFdiv prec emax.
Definition flt : float -> float -> bool := SFltb.
Definition fle : float -> float -> bool := SFleb.

(** [float(z)] for a Python integer. *)
Definition of_int (z : Z) : float := binary_normalize prec emax z 0 false.

(** [float('inf')]. *)
Definition inf : float := S754_infinity false.

Definition nan : float := S754_nan.

Definition is_zero (x : float) : bool :=
  match x with S754_zero _ => true | _ => false end.

End Float64.

(** * The arithmetic used by the numeric code *)

Class Arith (F : Type) : Type := {
  add : F -> F -> F;
  sub : F -> F -> F;
  mul : F -> F -> F;
  div : F -> F -> F;
  of_Z : Z -> F
}.

#[export] Instance Arith_float : Arith Float64.float := {
  add := Float64.fadd;
  sub := Float64.fsub;
  mul := Float64.fmul;
  div := Float64.fdiv;
  of_Z := Float64.of_int
}.

#[export] Instance Arith_R : Arith R := {
  add := Rplus;
  sub := Rminus;
  mul := Rmult;
  div := Rdiv;
  of_Z := IZR
}.

(** * Arrays *)

(** A one-dimensional array is a list; a two-dimensional array of shape
    [(n, d)] is a list of [n] rows of [d] entries. *)

Definition vector (F : Type) : Type := list F.
Definition matrix (F : Type) : Type := list (list F).

Section Arrays.

Context {F : Type} {FA : Arith F}.

(** [np.sum] of a one-dimensional array; [0.0] when it is empty. *)
Definition sum (xs : vector F) : F :=
  match xs with
  | [] => of_Z 0
  | x :: xs' => fold_left add xs' x
  end.

Fixpoint zip_with {A B C : Type} (f : A -> B -> C) (xs : list A) (ys : list B)
  : list C :=
  match xs, ys with
  | x :: xs', y :: ys' => f x y :: zip_with f xs' ys'
  | _, _ => []
  end.

(** [m[:, j]]. *)
Definition col (j : nat) (m : matrix F) : vector F :=
  map (fun row => nth j row (of_Z 0)) m.

(** [np.array(rows).T] for [rows] of [n] entries each. *)
Definition transpose (n : nat) (rows : matrix F) : matrix F :=
  map (fun j => col j rows) (seq 0 n).

(** [u.dot(v)]. *)
Definition dot (u v : vector F) : F :=
  sum (zip_with mul u v).

(** [m.shape[1]]; an empty list of rows stands for shape [(0, 0)]. *)
Definition ncols (m : matrix F) : nat :=
  match m with
  | [] => 0%nat
  | row :: _ => length row
  end.

(** [np.eye(n)]. *)
Definition eye (n : nat) : matrix F :=
  map (fun i => map (fun j => if Nat.eqb i j then of_Z 1 else of_Z 0) (seq 0 n))
      (seq 0 n).

End Arrays.

(** * The numeric steps *)

Section Steps.

Context {F : Type} {FA : Arith F}.

(** [multivariate_normal(mean, cov)] either raises (a covariance that is
    singular or not positive semi-definite, a shape that does not fit) or
    returns a frozen distribution, whose [pdf] is evaluated at each point. *)
Variable frozen_error : vector F -> matrix F -> option exn.
Variable pdf : vector F -> matrix F -> vector F -> F.

(** [np.log]. *)
Variable log : F -> F.

Definition multivariate_normal (mean : vector F) (cov : matrix F)
  : result (vector F -> F) :=
  match frozen_error mean cov with
  | None => Returned (pdf mean cov)
  | Some e => Raised e
  end.

(** [pi[i] * multivariate_normal(mu[i], cov[i]).pdf(data)]: one entry per
    point of [data]. *)
Definition weighted_pdf (data mu : matrix F) (cov : list (matrix F))
    (pi : vector F) (i : nat) : result (vector F) :=
  p <- index pi i ;;
  m <- index mu i ;;
  c <- index cov i ;;
  rv <- multivariate_normal m c ;;
  Returned (map (fun x => mul p (rv x)) data).

(** The divisors of [r /= r.sum(axis=1, keepdims=True)]: one per row. *)
Definition row_sums (w : matrix F) : vector F := map sum w.

(** [r /= r.sum(axis=1, keepdims=True)]. *)
Definition normalize_rows (w : matrix F) : matrix F :=
  zip_with (fun row s => map (fun x => div x s) row) w (row_sums w).

(** E-step.  [pdf] squeezes its output: for a single point it returns a
    scalar, the array of weights is then one-dimensional and
    [r.sum(axis=1)] raises; so does it when [pi] is empty. *)
Definition expectation_step (data mu : matrix F) (cov : list (matrix F))
    (pi : vector F) : result (matrix F * vector F * vector F) :=
  w <- comprehension (weighted_pdf data mu cov pi) (seq 0 (length pi)) ;;
  if (length pi =? 0)%nat || (length data =? 1)%nat then Raised AxisError
  else
    let r := transpose (length data) w in
    let r := normalize_rows r in
    let m_c := map (fun k => sum (col k r)) (seq 0 (length pi)) in
    let pi' := map (fun m => div m (sum m_c)) m_c in
    Returned (r, m_c, pi').

(** M-step, on arrays of matching shapes ([r] has one row per point of
    [data] and one column per entry of [m_c]). *)
Definition maximization_step (data : matrix F) (r : matrix F) (m_c : vector F)
  : matrix F * list (matrix F) :=
  let D := ncols data in
  let mu :=
    map (fun i =>
           map (fun d => div (dot (col i r) (col d data)) (nth i m_c (of_Z 0)))
               (seq 0 D))
        (seq 0 (length m_c)) in
  let cov :=
    map (fun i =>
           let centered := map (fun x => zip_with sub x (nth i mu [])) data in
           let weighted :=
             zip_with (fun row rn => map (fun c => mul c rn) row)
                      centered (col i r) in
           map (fun a =>
                  map (fun b =>
                         div (dot (col a centered) (col b weighted))
                             (nth i m_c (of_Z 0)))
                      (seq 0 D))
               (seq 0 D))
        (seq 0 (length m_c)) in
  (mu, cov).

(** The number of parameters as [compute_aic] computes it from
    [K = len(mu)] and [D = len(mu[0])]. *)
Definition parameter_count (K D : Z) : F :=
  mul (of_Z K)
      (add (add (of_Z D) (div (of_Z (D * (D + 1))) (of_Z 2))) (of_Z 1)).

(** Scorer. *)
Definition compute_aic (data mu : matrix F) (cov : list (matrix F))
    (pi : vector F) : result F :=
  mu0 <- index mu 0 ;;
  let k := parameter_count (Z.of_nat (length mu)) (Z.of_nat (length mu0)) in
  w <- comprehension (weighted_pdf data mu cov pi) (seq 0 (length pi)) ;;
  let mixture :=
    match w with
    | [] => [of_Z 0]
    | _ => map (fun n => sum (col n w)) (seq 0 (length data))
    end in
  let likelihood := sum (map log mixture) in
  Returned (sub (mul (of_Z 2) k) (mul (of_Z 2) likelihood)).

(** ** Initializer *)

(** [np.random.seed(seed); np.random.rand(k, 2)]: the uniform draws in
    [[0, 1)], as [k] rows of two. *)
Variable Seed : Type.
Variable rand : Seed -> nat -> matrix F.

Definition initialize_parameters (num_components : Z) (seed : Seed)
  : result (vector F * matrix F * list (matrix F)) :=
  if (num_components =? 0)%Z then Raised ZeroDivisionError
  else
    let pis :=
      repeat (div (of_Z 1) (of_Z num_components)) (Z.to_nat num_components) in
    if (num_components <? 0)%Z then Raised ValueError
    else
      let mus :=
        map (map (fun u => sub (mul u (of_Z 4)) (of_Z 2)))
            (rand seed (Z.to_nat num_components)) in
      let sigmas := map (fun _ => eye 2) (range num_components) in
      Returned (pis, mus, sigmas).

End Steps.

(** * The plot of the mixture *)

Section Plotting.

Context {F : Type} {FA : Arith F}.

(** [m[:, j]] for an array with [D] columns. *)
Definition column (D j : nat) (m : matrix F) : result (vector F) :=
  if (j <? D)%nat then Returned (col j m) else Raised IndexError.

(** [np.linspace(start, stop, num)]. *)
Variable linspace : F -> F -> nat -> vector F.

Variable frozen_error : vector F -> matrix F -> option exn.
Variable pdf : vector F -> matrix F -> vector F -> F.

Definition axis_ticks : vector F := linspace (of_Z (-4)) (of_Z 4) 100.

(** [np.dstack(np.meshgrid(ticks, ticks))]: entry [(i, j)] is the point
    [(ticks[j], ticks[i])]. *)
Definition mesh_points (ticks : vector F) : list (list (vector F)) :=
  map (fun y => map (fun x => [x; y]) ticks) ticks.

(** [rv = multivariate_normal(mu[i], cov[i])] and then
    [total_density += pi[i] * rv.pdf(pos)].  The points of the mesh have two
    coordinates: for a distribution of another dimension [rv.pdf(pos)]
    raises [ValueError]. *)
Definition add_component (pos : list (list (vector F))) (mu : matrix F)
    (cov : list (matrix F)) (pi : vector F) (total : matrix F) (i : nat)
  : result (matrix F) :=
  m <- index mu i ;;
  c <- index cov i ;;
  rv <- multivariate_normal frozen_error pdf m c ;;
  p <- index pi i ;;
  if (length m =? 2)%nat then
    Returned (zip_with (zip_with add) total
                       (map (map (fun point => mul p (rv point))) pos))
  else Raised ValueError.

Fixpoint accumulate_density (pos : list (list (vector F))) (mu : matrix F)
    (cov : list (matrix F)) (pi : vector F) (total : matrix F)
    (components : list nat) : result (matrix F) :=
  match components with
  | [] => Returned total
  | i :: rest =>
      total' <- add_component pos mu cov pi total i ;;
      accumulate_density pos mu cov pi total' rest
  end.

(** The figure of the mixture: the density drawn over the mesh and the two
    columns of the data that are scattered over it. *)
Record mixture_figure : Type := {
  contour_density : matrix F;
  data_x : vector F;
  data_y : vector F
}.

Definition plot_gaussian_mixtures (data mu : matrix F) (cov : list (matrix F))
    (pi : vector F) : result mixture_figure :=
  let pos := mesh_points axis_ticks in
  let zeros := map (map (fun _ => of_Z 0)) pos in
  total_density <-
    accumulate_density pos mu cov pi zeros (seq 0 (length pi)) ;;
  xs <- column (ncols data) 0 data ;;
  ys <- column (ncols data) 1 data ;;
  Returned {| contour_density := total_density; data_x := xs; data_y := ys |}.

End Plotting.

(** * The loop of [run_em_algorithm] *)

Import Float64.

Section Controller.

(** The loop does not look inside the arrays: it passes them from one step
    to the next and compares the scores. *)
Variables Data Pi Mu Cov Resp Counts Shown : Type.

Variable expectation : Data -> Mu -> Cov -> Pi -> result (Resp * Counts * Pi).
Variable maximization : Data -> Resp -> Counts -> result (Mu * Cov).
Variable scorer : Data -> Mu -> Cov -> Pi -> result float.

(** The call of [plot_gaussian_mixtures] at the scheduled iterations: it
    shows a figure, or raises. *)
Variable plot : Data -> Mu -> Cov -> Pi -> result Shown.

(** What the function writes: the periodic report (the [print] of a
    scheduled iteration) and the two closing messages. *)
Inductive event : Type :=
| Report (it : Z) (current_aic : float) (pi : Pi) (mu : Mu) (cov : Cov)
| TerminatingEarly (threshold : float)
| DidNotConverge (max_iter : Z).

(** The local variables of [run_em_algorithm], and its output so far. *)
Record fit_state : Type := {
  st_pi : Pi;
  st_mu : Mu;
  st_cov : Cov;
  previous_aic : float;
  no_improve_count : Z;
  aic_list : list float;
  stdout : list event
}.

(** After an iteration, control goes back to the head of the loop or leaves
    the function through the [return] of the early stop. *)
Inductive flow : Type :=
| Continue (s : fit_state)
| Return (s : fit_state).

Definition flow_state (f : flow) : fit_state :=
  match f with
  | Continue s => s
  | Return s => s
  end.

Definition initial_state (pi : Pi) (mu : Mu) (cov : Cov) : fit_state :=
  {| st_pi := pi; st_mu := mu; st_cov := cov;
     previous_aic := inf; no_improve_count := 0;
     aic_list := []; stdout := [] |}.

Section Loop.

Variable data : Data.
Variable max_iter : Z.
Variable threshold : float.

Definition loop_body (it : Z) (s : fit_state) : result flow :=
  '(r, m_c, pi) <- expectation data (st_mu s) (st_cov s) (st_pi s) ;;
  '(mu, cov) <- maximization data r m_c ;;
  current_aic <- scorer data mu cov pi ;;
  let aics := aic_list s ++ [current_aic] in
  out <-
    (if (it mod 10 =? 0)%Z || (it =? max_iter - 1)%Z
     then
       let printed := stdout s ++ [Report it current_aic pi mu cov] in
       _ <- plot data mu cov pi ;;
       Returned printed
     else Returned (stdout s)) ;;
  if flt (fsub (previous_aic s) current_aic) threshold then
    let count := (no_improve_count s + 1)%Z in
    if (3 <=? count)%Z then
      Returned (Return
        {| st_pi := pi; st_mu := mu; st_cov := cov;
           previous_aic := previous_aic s; no_improve_count := count;
           aic_list := aics; stdout := out ++ [TerminatingEarly threshold] |})
    else
      Returned (Continue
        {| st_pi := pi; st_mu := mu; st_cov := cov;
           previous_aic := current_aic; no_improve_count := count;
           aic_list := aics; stdout := out |})
  else
    Returned (Continue
      {| st_pi := pi; st_mu := mu; st_cov := cov;
         previous_aic := current_aic; no_improve_count := 0;
         aic_list := aics; stdout := out |}).

(** [for it in its: ...] *)
Fixpoint for_loop (its : list Z) (s : fit_state) : result flow :=
  match its with
  | [] => Returned (Continue s)
  | it :: its' =>
      f <- loop_body it s ;;
      match f with
      | Continue s' => for_loop its' s'
      | Return s' => Returned (Return s')
      end
  end.

(** The state in which the function returns: the one of the early stop,
    or the one after the last iteration, with the closing message. *)
Definition run_em_loop (pi : Pi) (mu : Mu) (cov : Cov) : result flow :=
  for_loop (range max_iter) (initial_state pi mu cov).

Definition final_state (f : flow) : fit_state :=
  match f with
  | Return s => s
  | Continue s =>
      {| st_pi := st_pi s; st_mu := st_mu s; st_cov := st_cov s;
         previous_aic := previous_aic s;
         no_improve_count := no_improve_count s;
         aic_list := aic_list s;
         stdout := stdout s ++ [DidNotConverge max_iter] |}
  end.

(** Both [return] statements give [aic_list], and nothing else. *)
Definition run_em_algorithm (pi : Pi) (mu : Mu) (cov : Cov)
  : result (list float) :=
  f <- run_em_loop pi mu cov ;;
  Returned (aic_list (final_state f)).

(** [at_iteration s0 n s]: started in [s0], control is at the head of the
    loop with [n] iterations done, none of which returned or raised. *)
Inductive at_iteration (s0 : fit_state) : nat -> fit_state -> Prop :=
| at_start : at_iteration s0 0 s0
| at_next n s s' :
    at_iteration s0 n s ->
    (Z.of_nat n < max_iter)%Z ->
    loop_body (Z.of_nat n) s = Returned (Continue s') ->
    at_iteration s0 (S n) s'.

(** [run_ends s0 n s]: the run started in [s0] leaves the loop in [s]
    after executing [n] iterations, the budget being used up or the
    early stop having fired in the last of them. *)
Inductive run_ends (s0 : fit_state) : nat -> fit_state -> Prop :=
| ends_exhausted s :
    at_iteration s0 (Z.to_nat max_iter) s ->
    run_ends s0 (Z.to_nat max_iter) s
| ends_converged n s s' :
    at_iteration s0 n s ->
    (Z.of_nat n < max_iter)%Z ->
    loop_body (Z.of_nat n) s = Returned (Return s') ->
    run_ends s0 (S n) s'.

(** [a_call_raises it s e]: in iteration [it], started in [s], one of the
    calls raises [e], the calls before it having returned: the E-step, the
    M-step, the scorer or, in a scheduled iteration, the plot. *)
Definition a_call_raises (it : Z) (s : fit_state) (e : exn) : Prop :=
  expectation data (st_mu s) (st_cov s) (st_pi s) = Raised e \/
  exists r m_c pi,
    expectation data (st_mu s) (st_cov s) (st_pi s) = Returned (r, m_c, pi) /\
    (maximization data r m_c = Raised e \/
     exists mu cov,
       maximization data r m_c = Returned (mu, cov) /\
       (scorer data mu cov pi = Raised e \/
        exists a,
          scorer data mu cov pi = Returned a /\
          (it mod 10 =? 0)%Z || (it =? max_iter - 1)%Z = true /\
          plot data mu cov pi = Raised e)).

End Loop.

(** The invariant of the loop head, for a run started by
    [run_em_algorithm]. *)
Definition head_invariant (n : nat) (s : fit_state) : Prop :=
  length (aic_list s) = n /\
  (0 <= no_improve_count s <= 2)%Z /\
  (n = 0%nat -> previous_aic s = inf /\ no_improve_count s = 0%Z) /\
  (n <> 0%nat -> no_improve_count s + 1 <= Z.of_nat n)%Z.

(** The reading of "the fit returns the final parameters" on a function whose
    value is a list of scores: the final parameters of every run can be read
    off the value it returns. *)
Definition returns_final_parameters : Prop :=
  exists extract : list float -> Pi * Mu * Cov,
    forall data max_iter threshold pi mu cov f aics,
      run_em_loop data max_iter threshold pi mu cov = Returned f ->
      run_em_algorithm data max_iter threshold pi mu cov = Returned aics ->
      extract aics
      = (st_pi (flow_state f), st_mu (flow_state f), st_cov (flow_state f)).

End Controller.

Arguments Continue {Pi Mu Cov} s.
Arguments Return {Pi Mu Cov} s.

(** * The fit: the steps under the loop *)

Section Fit.

Context {F : Type} {FA : Arith F}.

Variable linspace : F -> F -> nat -> vector F.
Variable frozen_error : vector F -> matrix F -> option exn.
Variable pdf : vector F -> matrix F -> vector F -> F.
Variable scorer :
  matrix F -> matrix F -> list (matrix F) -> vector F ->
  result float.
Variable Seed : Type.
Variable rand : Seed -> nat -> matrix F.

Definition e_step := expectation_step frozen_error pdf.

Definition m_step (data r : matrix F) (m_c : vector F)
  : result (matrix F * list (matrix F)) :=
  Returned (maximization_step data r m_c).

Definition plot_step := plot_gaussian_mixtures linspace frozen_error pdf.

(** [run_em_algorithm] over the steps and the plot of the module. *)
Definition em_run (data : matrix F) (max_iter : Z) (pi : vector F)
    (mu : matrix F) (cov : list (matrix F)) (threshold : float)
  : result (list float) :=
  run_em_algorithm e_step m_step scorer plot_step data max_iter threshold
                   pi mu cov.

(** The calls of [main], for a component count, a seed, a dataset, a budget
    and a threshold: initialize, then run. *)
Definition fit (n_modules : Z) (seed : Seed) (samples : matrix F)
    (max_iterations : Z) (threshold : float) : result (list float) :=
  '(pis, mus, sigmas) <- initialize_parameters rand n_modules seed ;;
  em_run samples max_iterations pis mus sigmas threshold.

End Fit.

(** In binary64 the scorer of the loop is [compute_aic]. *)
Definition fit64 (linspace : float -> float -> nat -> vector float)
    (frozen_error : vector float -> matrix float -> option exn)
    (pdf : vector float -> matrix float -> vector float -> float)
    (log : float -> float) (Seed : Type) (rand : Seed -> nat -> matrix float)
  : Z -> Seed -> matrix float -> Z -> float -> result (list float) :=
  fit linspace frozen_error pdf (compute_aic frozen_error pdf log) rand.

(** * The arrays as objects *)

(** The functions above compute the values of the arrays.  In the program
    the arrays are objects: a statement either binds a name to a new array
    ([m_c = r.sum(axis=0)]) or writes into an existing one ([r /= ...]),
    and a callee that is handed an array could write into it.  Here the
    E-step and the M-step are written over a store of arrays, statement by
    statement, with the arithmetic of the functions above; they take and
    return references. *)

Section Objects.

Context {F : Type} {FA : Arith F}.

(** The arrays by number of dimensions; a reference is the position of the
    array among those of its kind. *)
Record store : Type := {
  vectors : list (vector F);
  matrices : list (matrix F);
  stacks : list (list (matrix F))
}.

Definition vector_at (h : store) (l : nat) : vector F := nth l (vectors h) [].
Definition matrix_at (h : store) (l : nat) : matrix F := nth l (matrices h) [].
Definition stack_at (h : store) (l : nat) : list (matrix F) :=
  nth l (stacks h) [].

(** A new array: the store grows by one object, which no earlier reference
    names. *)
Definition new_vector (v : vector F) (h : store) : nat * store :=
  (length (vectors h),
   {| vectors := vectors h ++ [v]; matrices := matrices h;
      stacks := stacks h |}).

Definition new_matrix (m : matrix F) (h : store) : nat * store :=
  (length (matrices h),
   {| vectors := vectors h; matrices := matrices h ++ [m];
      stacks := stacks h |}).

Definition new_stack (c : list (matrix F)) (h : store) : nat * store :=
  (length (stacks h),
   {| vectors := vectors h; matrices := matrices h;
      stacks := stacks h ++ [c] |}).

(** Writing into the matrix at [l]: every name of that object sees it. *)
Definition write_matrix (l : nat) (m : matrix F) (h : store) : store :=
  {| vectors := vectors h;
     matrices := firstn l (matrices h) ++ m :: skipn (S l) (matrices h);
     stacks := stacks h |}.

Variable frozen_error : vector F -> matrix F -> option exn.
Variable pdf : vector F -> matrix F -> vector F -> F.

(** [expectation_step(data, mu, cov, pi)] on references. *)
Definition expectation_step_at (data mu cov pi : nat) (h : store)
  : result (nat * nat * nat * store) :=
  let p := vector_at h pi in
  let d := matrix_at h data in
  (* r = np.array([...]).T *)
  w <- comprehension
         (weighted_pdf frozen_error pdf d (matrix_at h mu) (stack_at h cov) p)
         (seq 0 (length p)) ;;
  if (length p =? 0)%nat || (length d =? 1)%nat then Raised AxisError
  else
    let (r, h) := new_matrix (transpose (length d) w) h in
    (* r /= r.sum(axis=1, keepdims=True) *)
    let h := write_matrix r (normalize_rows (matrix_at h r)) h in
    (* m_c = r.sum(axis=0) *)
    let (m_c, h) :=
      new_vector (map (fun k => sum (col k (matrix_at h r)))
                      (seq 0 (length p))) h in
    (* pi = m_c / m_c.sum() *)
    let (pi', h) :=
      new_vector (map (fun m => div m (sum (vector_at h m_c)))
                      (vector_at h m_c)) h in
    Returned (r, m_c, pi', h).

(** [maximization_step(data, r, m_c)] on references: two statements, each
    binding a name to a new array. *)
Definition maximization_step_at (data r m_c : nat) (h : store)
  : nat * nat * store :=
  (* mu = np.array([...]) *)
  let (mu, h1) :=
    new_matrix
      (fst (maximization_step (matrix_at h data) (matrix_at h r)
                              (vector_at h m_c))) h in
  (* cov = np.array([...]) *)
  let (cov, h2) :=
    new_stack
      (snd (maximization_step (matrix_at h1 data) (matrix_at h1 r)
                              (vector_at h1 m_c))) h1 in
  (mu, cov, h2).

End Objects.

(** * The rejection of invalid configurations, as a property of the fit *)

(** "A request with a component count below 1, a threshold that is not
    positive or an iteration budget below 1 is rejected": the fit raises.
    (The dimension is fixed to 2 by the initializer; it is not part of a
    request.) *)
Definition rejects_invalid_configuration
    (linspace : float -> float -> nat -> vector float)
    (frozen_error : vector float -> matrix float -> option exn)
    (pdf : vector float -> matrix float -> vector float -> float)
    (log : float -> float)
    (Seed : Type) (rand : Seed -> nat -> matrix float) : Prop :=
  forall (n_modules : Z) (seed : Seed) (samples : matrix float)
         (max_iterations : Z) (threshold : float),
    (n_modules < 1)%Z \/ fle threshold (of_int 0) = true
    \/ (max_iterations < 1)%Z ->
    raises (fit64 linspace frozen_error pdf log rand n_modules seed samples
                  max_iterations threshold).

(** * The mixing weights of the fit, as a property of the binary64 code *)

(** [|sum(pi) - 1| <= tolerance]. *)
Definition sums_to_one_within (tolerance : float) (pi : vector float) : bool :=
  fle (fsub (sum pi) (of_int 1)) tolerance &&
  fle (fsub (of_int 1) (sum pi)) tolerance.

(** "For every valid configuration and every iteration of the fit, the
    mixing weights produced by the iteration sum to 1 within the
    tolerance": for a component count and a budget of 1 at least, a
    threshold above 0 and a dataset of one point of the plane at least, in
    the fit started on the parameters of the initializer, the weights that
    the E-step of an iteration returns. *)
Definition weights_sum_to_one_in_every_iteration
    (linspace : float -> float -> nat -> vector float)
    (frozen_error : vector float -> matrix float -> option exn)
    (pdf : vector float -> matrix float -> vector float -> float)
    (log : float -> float)
    (Seed : Type) (rand : Seed -> nat -> matrix float)
    (tolerance : float) : Prop :=
  forall (num_components : Z) (seed : Seed)
         (pis : vector float) (mus : matrix float)
         (sigmas : list (matrix float))
         (data : matrix float) (max_iter : Z) (threshold : float)
         (n : nat) (s : fit_state (vector float) (matrix float)
                                  (list (matrix float)))
         (r : matrix float) (m_c pi' : vector float),
    (1 <= num_components)%Z -> (1 <= max_iter)%Z ->
    flt (of_int 0) threshold = true ->
    data <> [] -> Forall (fun x => length x = 2%nat) data ->
    initialize_parameters rand num_components seed
    = Returned (pis, mus, sigmas) ->
    at_iteration (e_step frozen_error pdf) m_step
                 (compute_aic frozen_error pdf log)
                 (plot_step linspace frozen_error pdf)
                 data max_iter threshold (initial_state pis mus sigmas) n s ->
    (Z.of_nat n < max_iter)%Z ->
    expectation_step frozen_error pdf data (st_mu s) (st_cov s) (st_pi s)
    = Returned (r, m_c, pi') ->
    sums_to_one_within tolerance pi' = true.

(** * The floor of the E-step, as a property of the binary64 code *)

(** "The row of a point whose weights are all zero is not divided by a zero
    row sum": whenever the E-step returns, the divisor of such a row is not
    zero. *)
Definition zero_rows_are_floored
    (frozen_error : vector float -> matrix float -> option exn)
    (pdf : vector float -> matrix float -> vector float -> float) : Prop :=
  forall (data mu : matrix float) (cov : list (matrix float))
         (pi : vector float) (r : matrix float) (m_c pi' : vector float)
         (w : matrix float) (n : nat),
    expectation_step frozen_error pdf data mu cov pi = Returned (r, m_c, pi') ->
    comprehension (weighted_pdf frozen_error pdf data mu cov pi)
                  (seq 0 (length pi)) = Returned w ->
    (n < length data)%nat ->
    (forall k, (k < length pi)%nat ->
               is_zero (nth n (nth k w []) (of_Z 0)) = true) ->
    is_zero (nth n (row_sums (transpose (length data) w)) nan) = false.

(** * The formulas of the specification, over the reals *)

Module Spec.

Local Open Scope R_scope.

(** [sigma n f] is the sum of [f 0], ..., [f (n - 1)]. *)
Definition sigma (n : nat) (f : nat -> R) : R :=
  fold_right Rplus 0 (map f (seq 0 n)).

(** Entry [(n, k)] of a two-dimensional array, entry [d] of a vector. *)
Definition entry (m : list (list R)) (n k : nat) : R := nth k (nth n m []) 0.
Definition coord (v : list R) (d : nat) : R := nth d v 0.

(** [w[n,k] = pi_k * density(x_n; mu_k, Sigma_k)]. *)
Definition weight (pdf : list R -> list (list R) -> list R -> R)
    (data mu : list (list R)) (cov : list (list (list R))) (pi : list R)
    (n k : nat) : R :=
  coord pi k * pdf (nth k mu []) (nth k cov []) (nth n data []).

(** [r[n,k] = w[n,k] / sum_j w[n,j]]. *)
Definition responsibility (w : nat -> nat -> R) (K : nat) (n k : nat) : R :=
  w n k / sigma K (fun j => w n j).

(** [m_c[k] = sum_n r[n,k]]. *)
Definition effective_count (r : nat -> nat -> R) (N : nat) (k : nat) : R :=
  sigma N (fun n => r n k).

(** [mu_k' = (sum_n r[n,k] x_n) / m_c[k]], coordinate [d]. *)
Definition weighted_mean (data r : list (list R)) (m_c : list R)
    (k d : nat) : R :=
  sigma (length data) (fun n => entry r n k * entry data n d) / coord m_c k.

(** [Sigma_k' = (sum_n r[n,k] (x_n - m)(x_n - m)^T) / m_c[k]], entry
    [(a, b)], around a mean [m]. *)
Definition weighted_covariance (data r : list (list R)) (m_c : list R)
    (m : list R) (k a b : nat) : R :=
  sigma (length data)
        (fun n => entry r n k * ((entry data n a - coord m a)
                                 * (entry data n b - coord m b)))
  / coord m_c k.

(** [k = K (D + D (D + 1) / 2 + 1)]. *)
Definition free_parameters (K D : nat) : R :=
  INR K * (INR D + INR D * (INR D + 1) / 2 + 1).

(** [ln L = sum_n ln (sum_k pi_k density(x_n; mu_k, Sigma_k))]. *)
Definition log_likelihood (log : R -> R) (w : nat -> nat -> R) (N K : nat)
  : R :=
  sigma N (fun n => log (sigma K (fun k => w n k))).


(** Mixing weights: none negative, and their sum, taken as the code takes
    it, is 1. *)
Definition mixing_weights (pi : list R) : Prop :=
  Forall (fun p => 0 <= p) pi /\ sum pi = 1.

End Spec.

(** * Scripted steps, to exercise the loop *)

(** The dataset is the list of the scores that the scorer gives in turn;
    [pi] counts the E-steps done and [mu] is the number of the iteration
    that computed it, when the run starts from [pi = 0]. *)
Module Scripted.

Definition expectation (script : list float) (mu : nat) (cov : unit) (pi : nat)
  : result (nat * unit * nat) :=
  Returned (pi, tt, S pi).

Definition maximization (script : list float) (r : nat) (m_c : unit)
  : result (nat * unit) :=
  Returned (r, tt).

Definition scorer (script : list float) (mu : nat) (cov : unit) (pi : nat)
  : result float :=
  index script mu.

Definition plot (script : list float) (mu : nat) (cov : unit) (pi : nat)
  : result unit :=
  Returned tt.

Definition run (script : list float) (max_iter : Z) (pi : nat)
    (threshold : float) : result (list float) :=
  run_em_algorithm expectation maximization scorer plot script max_iter
                   threshold pi 0%nat tt.

Definition loop (script : list float) (max_iter : Z) (pi : nat)
    (threshold : float) : result (flow nat nat unit) :=
  run_em_loop expectation maximization scorer plot script max_iter threshold
              pi 0%nat tt.

End Scripted.

(** * Stand-ins for the library, to evaluate the steps *)

Module Standin.

(** A library that accepts every mean and covariance. *)
Definition accepts_all {F : Type} (mean : vector F) (cov : matrix F)
  : option exn := None.

(** A library that refuses every mean and covariance. *)
Definition rejects_all {F : Type} (mean : vector F) (cov : matrix F)
  : option exn := Some LinAlgError.

(** A density that is 1 at every point. *)
Definition flat_pdf {F : Type} {FA : Arith F}
    (mean : vector F) (cov : matrix F) (x : vector F) : F :=
  of_Z 1.

(** A density that has underflowed to [0.0] at every point, as that of the
    unit Gaussian does at distance 40 and beyond. *)
Definition underflow_pdf (mean : vector float) (cov : matrix float)
    (x : vector float) : float :=
  S754_zero false.

(** A scorer that gives the same score to every parameter set. *)
Definition constant_scorer {F : Type} (a : float)
    (data mu : matrix F) (cov : list (matrix F)) (pi : vector F)
  : result float := Returned a.

(** A generator that draws 1/2 every time. *)
Definition half_rand {F : Type} {FA : Arith F} (seed : unit) (k : nat)
  : matrix F :=
  repeat [div (of_Z 1) (of_Z 2); div (of_Z 1) (of_Z 2)] k.

(** Two points, two components with the points as means, unit covariances
    and equal weights. *)
Definition two_points {F : Type} {FA : Arith F} : matrix F :=
  [[of_Z 0; of_Z 0]; [of_Z 1; of_Z 1]].

Definition two_means {F : Type} {FA : Arith F} : matrix F :=
  [[of_Z 0; of_Z 0]; [of_Z 1; of_Z 1]].

Definition unit_covariances {F : Type} {FA : Arith F} : list (matrix F) :=
  [eye 2; eye 2].

Definition equal_weights {F : Type} {FA : Arith F} : vector F :=
  [div (of_Z 1) (of_Z 2); div (of_Z 1) (of_Z 2)].

(** A generator whose state counts the draws, and whose draws are [size]
    copies of the mean. *)
Definition counting_seed (seed : Z) : nat := Z.to_nat seed.

Definition mean_draw {F : Type} (rng : nat) (mean : vector F)
    (cov : matrix F) (size : nat) : result (matrix F * nat) :=
  Returned (repeat mean size, S rng).

(** A [linspace] that gives the two ends only. *)
Definition two_ticks {F : Type} (start stop : F) (num : nat) : vector F :=
  [start; stop].

End Standin.

(** * Reading the output and the scores of a run *)

(** The iteration that a report is about; the closing messages are about
    none. *)
Definition report_iteration {Pi Mu Cov : Type} (e : event Pi Mu Cov)
  : option Z :=
  match e with
  | Report it _ _ _ _ => Some it
  | _ => None
  end.

(** [it % 10 == 0 or it == max_iter - 1]. *)
Definition scheduled (max_iter it : Z) : bool :=
  (it mod 10 =? 0)%Z || (it =? max_iter - 1)%Z.

(** The patience rule on the scores alone: from the score of the previous
    iteration and the counter, and the score of this iteration, the score
    that the next iteration compares with and the counter. *)
Definition patience_step (threshold : float) (st : float * Z) (a : float)
  : float * Z :=
  if flt (fsub (fst st) a) threshold then (a, (snd st + 1)%Z) else (a, 0%Z).

(** The message with which a run closes. *)
Definition closing_message {Pi Mu Cov : Type} (max_iter : Z) (threshold : float)
    (f : flow Pi Mu Cov) : event Pi Mu Cov :=
  match f with
  | Continue _ => DidNotConverge Pi Mu Cov max_iter
  | Return _ => TerminatingEarly Pi Mu Cov threshold
  end.

(** A zero or a normal or subnormal number: neither NaN nor an infinity. *)
Definition finite (x : float) : bool :=
  match x with
  | S754_zero _ => true
  | S754_finite _ _ _ => true
  | _ => false
  end.

(** The shape of a parameter set: [K] weights, [K] means of [D]
    coordinates, [K] covariances of [D] rows of [D] entries. *)
Definition parameter_shape {F : Type} (K D : nat) (pi : vector F)
    (mu : matrix F) (cov : list (matrix F)) : Prop :=
  length pi = K /\
  length mu = K /\ Forall (fun m => length m = D) mu /\
  length cov = K /\
  Forall (fun c => length c = D /\ Forall (fun row => length row = D) c) cov.

(** * The sample generator, the plot of the mixture and [main] *)

Section Scaffolding.

Context {F : Type} {FA : Arith F}.

(** ** [generate_gaussian_samples] *)

(** The global generator of numpy: [np.random.seed(z)] puts it in the state
    [seeded z], and [np.random.multivariate_normal(mean, cov, size)] raises
    or returns [size] rows and leaves the generator in a new state. *)
Variable Rng : Type.
Variable seeded : Z -> Rng.
Variable draw :
  Rng -> vector F -> matrix F -> nat -> result (matrix F * Rng).

(** A row assigned into a row of [D] entries: taken as it is, repeated when
    it has one entry, refused otherwise. *)
Definition broadcast_row (D : nat) (row : vector F) : result (vector F) :=
  if (length row =? D)%nat then Returned row
  else if (length row =? 1)%nat then Returned (repeat (nth 0 row (of_Z 0)) D)
  else Raised ValueError.

(** [samples[start : start + 2000] = block], for a block of 2000 rows. *)
Definition assign_block (D start : nat) (block samples : matrix F)
  : result (matrix F) :=
  if (length block =? 2000)%nat then
    rows <- comprehension (broadcast_row D) block ;;
    Returned (firstn start samples ++ rows ++ skipn (start + 2000) samples)
  else Raised ValueError.

(** [for i, (mean, covariance) in enumerate(zip(mu, cov)): ...] *)
Fixpoint fill_samples (D i : nat) (pairs : list (vector F * matrix F))
    (rng : Rng) (samples : matrix F) : result (matrix F) :=
  match pairs with
  | [] => Returned samples
  | (mean, covariance) :: pairs' =>
      '(block, rng') <- draw rng mean covariance 2000 ;;
      samples' <- assign_block D (i * 2000) block samples ;;
      fill_samples D (S i) pairs' rng' samples'
  end.

(** The figure of the samples: the two columns that are scattered. *)
Record samples_figure : Type := {
  scatter_x : vector F;
  scatter_y : vector F
}.

Definition generate_gaussian_samples (mu : matrix F) (cov : list (matrix F))
  : result (matrix F * samples_figure) :=
  mu0 <- index mu 0 ;;
  let D := length mu0 in
  let zeros := repeat (repeat (of_Z 0) D) (2000 * length mu) in
  samples <- fill_samples D 0 (combine mu cov) (seeded 1) zeros ;;
  xs <- column D 0 samples ;;
  ys <- column D 1 samples ;;
  Returned (samples, {| scatter_x := xs; scatter_y := ys |}).

(** ** [main] *)

(** [np.linspace(start, stop, num)]. *)
Variable linspace : F -> F -> nat -> vector F.

Variable frozen_error : vector F -> matrix F -> option exn.
Variable pdf : vector F -> matrix F -> vector F -> F.


Variable rand : Z -> nat -> matrix F.
Variable scorer :
  matrix F -> matrix F -> list (matrix F) -> vector F -> result float.

(** A decimal literal with [digits] digits after the point. *)
Definition decimal (n : Z) (digits : nat) : F :=
  div (of_Z n) (of_Z (10 ^ Z.of_nat digits)).

Definition true_means : matrix F :=
  [[decimal (-9) 1; decimal (-9) 1]; [decimal (-9) 1; decimal 9 1];
   [decimal 9 1; decimal (-9) 1]; [decimal 4 1; decimal 4 1]].

Definition true_covariances : list (matrix F) :=
  [[[decimal 55 2; decimal (-18) 2]; [decimal (-18) 2; decimal 35 2]];
   [[decimal 4 1; decimal 15 2]; [decimal 15 2; decimal 4 1]];
   [[decimal 38 2; decimal 18 2]; [decimal 18 2; decimal 39 2]];
   [[decimal 43 2; decimal 3 1]; [decimal 3 1; decimal 43 2]]].

(** What [main] shows: the figure of the samples, the output of the fit and
    the scores that it plots at the end. *)
Record main_output : Type := {
  shown_samples : samples_figure;
  printed : list (event (vector F) (matrix F) (list (matrix F)));
  plotted_scores : list float
}.

Definition main : result main_output :=
  '(samples, figure) <- generate_gaussian_samples true_means true_covariances ;;
  '(pis, mus, sigmas) <- initialize_parameters rand 4 0%Z ;;
  f <- run_em_loop (e_step frozen_error pdf) m_step scorer
                   (plot_step linspace frozen_error pdf) samples 200
                   (fdiv (of_int 1) (of_int 10)) pis mus sigmas ;;
  let s := final_state 200 f in
  Returned {| shown_samples := figure; printed := stdout s;
              plotted_scores := aic_list s |}.

End Scaffolding.

(** The blocks that the generator stacks: one per pair of a mean and a
    covariance, drawn in turn from the generator as the previous draw left
    it, each row fitted to [D] columns. *)
Inductive drawn_in_turn {F : Type} {FA : Arith F} {Rng : Type}
    (draw : Rng -> vector F -> matrix F -> nat -> result (matrix F * Rng))
    (D : nat)
  : Rng -> list (vector F * matrix F) -> list (matrix F) -> Prop :=
| drawn_none rng : drawn_in_turn draw D rng [] []
| drawn_next rng mean covariance pairs block rng' rows blocks :
    draw rng mean covariance 2000%nat = Returned (block, rng') ->
    length block = 2000%nat ->
    comprehension (broadcast_row D) block = Returned rows ->
    drawn_in_turn draw D rng' pairs blocks ->
    drawn_in_turn draw D rng ((mean, covariance) :: pairs) (rows :: blocks).

(** An array over the mesh of the plot: one row per row of points, one
    entry per point. *)
Definition over_mesh {F : Type} (pos : list (list (vector F)))
    (total : matrix F) : Prop :=
  length total = length pos /\
  forall i, (i < length pos)%nat ->
    length (nth i total []) = length (nth i pos []).

(** * Facts about binary64 comparison *)

Lemma SFcompare_swap (x y : float) :
  SFcompare y x = option_map CompOpp (SFcompare x y).
Proof.
  destruct x as [sx | sx | | sx mx ex], y as [sy | sy | | sy my ey];
    simpl; try destruct sx; try destruct sy; try reflexivity;
    rewrite (Z.compare_antisym ey ex);
    destruct (ey ?= ex)%Z; simpl; try reflexivity;
    rewrite (Pos.compare_cont_antisym mx my Eq); simpl;
    destruct (Pos.compare_cont Eq my mx); reflexivity.
Qed.

(** [x >= y] excludes [x < y]. *)
Lemma fle_not_flt (x y : float) : fle y x = true -> flt x y = false.
Proof.
  unfold fle, flt, SFleb, SFltb. rewrite (SFcompare_swap x y).
  destruct (SFcompare x y) as [[ | | ] | ]; simpl; congruence.
Qed.

(** Against [float('inf')] no score is an insufficient improvement:
    [inf - a] is [inf] or NaN, and neither is below any threshold. *)
Lemma first_delta_not_below (a threshold : float) :
  flt (fsub inf a) threshold = false.
Proof.
  destruct a as [sa | [ | ] | | sa ma ea];
    destruct threshold as [st | [ | ] | | st mt et]; reflexivity.
Qed.

(** * Facts about the loop *)

(** Case analysis on which call of an iteration raised. *)
Ltac call_cases :=
  intros;
  repeat match goal with
         | H : _ \/ _ |- _ => destruct H
         | H : exists _, _ |- _ => destruct H
         | H : _ /\ _ |- _ => destruct H
         | H : Returned _ = Returned _ |- _ => inversion H; subst; clear H
         end;
  congruence.

Section ControllerFacts.

Variables Data Pi Mu Cov Resp Counts Shown : Type.
Variable expectation : Data -> Mu -> Cov -> Pi -> result (Resp * Counts * Pi).
Variable maximization : Data -> Resp -> Counts -> result (Mu * Cov).
Variable scorer : Data -> Mu -> Cov -> Pi -> result float.
Variable plot : Data -> Mu -> Cov -> Pi -> result Shown.
Variable data : Data.
Variable max_iter : Z.
Variable threshold : float.

Local Abbreviation body :=
  (loop_body expectation maximization scorer plot data max_iter threshold).
Local Abbreviation reach :=
  (at_iteration expectation maximization scorer plot data max_iter threshold).
Local Abbreviation ends :=
  (run_ends expectation maximization scorer plot data max_iter threshold).
Local Abbreviation loop :=
  (for_loop expectation maximization scorer plot data max_iter threshold).

(** What one iteration that does not raise has done. *)
Lemma loop_body_steps (it : Z) (s : fit_state Pi Mu Cov) (f : flow Pi Mu Cov) :
  body it s = Returned f ->
  exists r m_c pi mu cov a,
    expectation data (st_mu s) (st_cov s) (st_pi s) = Returned (r, m_c, pi) /\
    maximization data r m_c = Returned (mu, cov) /\
    scorer data mu cov pi = Returned a /\
    st_pi (flow_state f) = pi /\
    st_mu (flow_state f) = mu /\
    st_cov (flow_state f) = cov /\
    aic_list (flow_state f) = aic_list s ++ [a] /\
    if flt (fsub (previous_aic s) a) threshold then
      no_improve_count (flow_state f) = (no_improve_count s + 1)%Z /\
      if (3 <=? no_improve_count s + 1)%Z
      then exists s', f = Return s'
      else exists s', f = Continue s' /\ previous_aic s' = a
    else
      exists s', f = Continue s' /\ no_improve_count s' = 0%Z /\ previous_aic s' = a.
Proof.
  unfold loop_body. intros H.
  destruct (expectation data (st_mu s) (st_cov s) (st_pi s))
    as [[[r m_c] pi] | e] eqn:HE; simpl in H; [ | discriminate].
  destruct (maximization data r m_c) as [[mu cov] | e] eqn:HM; simpl in H;
    [ | discriminate].
  destruct (scorer data mu cov pi) as [a | e] eqn:HS; simpl in H;
    [ | discriminate].
  exists r, m_c, pi, mu, cov, a.
  do 3 (split; [assumption || reflexivity | ]).
  destruct ((it mod 10 =? 0)%Z || (it =? max_iter - 1)%Z);
    [destruct (plot data mu cov pi) as [shown | e]; simpl in H;
       [ | discriminate] | simpl in H];
    (destruct (flt (fsub (previous_aic s) a) threshold);
      [destruct (3 <=? no_improve_count s + 1)%Z | ];
      inversion H; subst f; simpl; repeat split; eauto).
Qed.

(** In a scheduled iteration that does not raise, the plot has returned. *)
Lemma loop_body_plotted (it : Z) (s : fit_state Pi Mu Cov) (f : flow Pi Mu Cov) :
  body it s = Returned f ->
  (it mod 10 =? 0)%Z || (it =? max_iter - 1)%Z = true ->
  returns (plot data (st_mu (flow_state f)) (st_cov (flow_state f))
                (st_pi (flow_state f))).
Proof.
  unfold loop_body. intros H Hscheduled.
  destruct (expectation data (st_mu s) (st_cov s) (st_pi s))
    as [[[r m_c] pi] | e]; simpl in H; [ | discriminate].
  destruct (maximization data r m_c) as [[mu cov] | e]; simpl in H;
    [ | discriminate].
  destruct (scorer data mu cov pi) as [a | e]; simpl in H; [ | discriminate].
  rewrite Hscheduled in H.
  destruct (plot data mu cov pi) as [shown | e] eqn:HP; simpl in H;
    [ | discriminate].
  destruct (flt (fsub (previous_aic s) a) threshold);
    [destruct (3 <=? no_improve_count s + 1)%Z | ];
    inversion H; subst f; simpl; rewrite HP; eexists; reflexivity.
Qed.

(** The iteration returns when its calls do: the E-step, the M-step, the
    scorer and, when the iteration is scheduled, the plot. *)
Lemma loop_body_returns (it : Z) (s : fit_state Pi Mu Cov) r m_c pi mu cov a :
  expectation data (st_mu s) (st_cov s) (st_pi s) = Returned (r, m_c, pi) ->
  maximization data r m_c = Returned (mu, cov) ->
  scorer data mu cov pi = Returned a ->
  ((it mod 10 =? 0)%Z || (it =? max_iter - 1)%Z = true ->
   returns (plot data mu cov pi)) ->
  returns (body it s).
Proof.
  intros HE HM HS HP. unfold loop_body, returns. rewrite HE. simpl.
  rewrite HM. simpl. rewrite HS. simpl.
  destruct ((it mod 10 =? 0)%Z || (it =? max_iter - 1)%Z).
  - destruct (HP eq_refl) as [shown Hshown]. rewrite Hshown. simpl.
    destruct (flt _ _); [destruct (3 <=? _)%Z | ]; eauto.
  - simpl. destruct (flt _ _); [destruct (3 <=? _)%Z | ]; eauto.
Qed.

(** The iteration raises exactly what one of its calls raises. *)
Lemma loop_body_raises (it : Z) (s : fit_state Pi Mu Cov) (e : exn) :
  body it s = Raised e <->
  a_call_raises expectation maximization scorer plot data max_iter it s e.
Proof.
  unfold loop_body, a_call_raises.
  destruct (expectation data (st_mu s) (st_cov s) (st_pi s))
    as [[[r m_c] pi] | e1] eqn:HE; simpl.
  2: { split; [intros H; left; congruence | call_cases]. }
  destruct (maximization data r m_c) as [[mu cov] | e2] eqn:HM; simpl.
  2: { split; [ | call_cases].
       intros H. right. exists r, m_c, pi. split; [assumption || reflexivity | ].
       left. congruence. }
  destruct (scorer data mu cov pi) as [a | e3] eqn:HS; simpl.
  2: { split; [ | call_cases].
       intros H. right. exists r, m_c, pi. split; [assumption || reflexivity | ].
       right. exists mu, cov. split; [assumption || reflexivity | ]. left. congruence. }
  destruct ((it mod 10 =? 0)%Z || (it =? max_iter - 1)%Z) eqn:Hscheduled;
    [destruct (plot data mu cov pi) as [shown | e4] eqn:HP | ]; simpl;
    (split; [ | call_cases]).
  - destruct (flt _ _); [destruct (3 <=? _)%Z | ]; discriminate.
  - intros H. right. exists r, m_c, pi. split; [assumption || reflexivity | ].
    right. exists mu, cov. split; [assumption || reflexivity | ]. right.
    exists a. repeat split; congruence.
  - destruct (flt _ _); [destruct (3 <=? _)%Z | ]; discriminate.
Qed.

Lemma head_invariant_holds pi mu cov (n : nat) (s : fit_state Pi Mu Cov) :
  reach (initial_state pi mu cov) n s -> head_invariant n s.
Proof.
  induction 1 as [ | n s s' Hreach IH Hlt Hbody].
  - unfold head_invariant. simpl. repeat split; (lia || congruence).
  - destruct IH as (Hlen & Hcount & Hzero & Hpos).
    apply loop_body_steps in Hbody.
    destruct Hbody as (r & m_c & pi' & mu' & cov' & a & _ & _ & _ & _ & _ & _
                       & Haics & Hcase).
    simpl in Haics.
    assert (Hlen' : length (aic_list s') = S n)
      by (rewrite Haics, length_app, Hlen; simpl; lia).
    destruct (flt (fsub (previous_aic s) a) threshold) eqn:Hdelta.
    + destruct Hcase as [Hc Hcase]. simpl in Hc.
      destruct (Z.leb_spec 3 (no_improve_count s + 1)) as [Hge | Hsmall].
      * destruct Hcase as [s'' Habs]. discriminate.
      * destruct n as [ | n].
        -- destruct (Hzero eq_refl) as [Hinf _]. rewrite Hinf in Hdelta.
           rewrite first_delta_not_below in Hdelta. discriminate.
        -- unfold head_invariant. repeat split; try lia; discriminate.
    + destruct Hcase as (s'' & Heq & Hc & _). inversion Heq; subst s''.
      unfold head_invariant. repeat split; try lia; discriminate.
Qed.

(** The loop, from a head it has reached: it hands back the head after the
    last iteration, or the state of an early stop. *)
Lemma for_loop_reaches s0 (m n : nat) (s : fit_state Pi Mu Cov) (f : flow Pi Mu Cov) :
  reach s0 n s ->
  (Z.of_nat (n + m) <= Z.max 0 max_iter)%Z ->
  loop (map Z.of_nat (seq n m)) s = Returned f ->
  (exists s', f = Continue s' /\ reach s0 (n + m)%nat s') \/
  (exists j sj s', f = Return s' /\ reach s0 j sj /\ (Z.of_nat j < max_iter)%Z /\
                   body (Z.of_nat j) sj = Returned (Return s')).
Proof.
  revert n s. induction m as [ | m IH]; intros n s Hreach Hle Hloop.
  - simpl in Hloop. inversion Hloop; subst f. left. exists s.
    rewrite Nat.add_0_r. auto.
  - simpl in Hloop.
    destruct (body (Z.of_nat n) s) as [[s' | s'] | e] eqn:Hbody;
      simpl in Hloop; [ | | discriminate].
    + assert (Hnext : reach s0 (S n) s')
        by (apply at_next with (s := s); [assumption | lia | assumption]).
      destruct (IH (S n) s' Hnext) as [Hc | Hr]; [lia | assumption | | ].
      * left. destruct Hc as (s'' & -> & Hs''). exists s''.
        replace (n + S m)%nat with (S n + m)%nat by lia. auto.
      * right. assumption.
    + inversion Hloop; subst f. right. exists n, s, s'.
      repeat split; (assumption || lia).
Qed.

(** Every run that does not raise ends after some number of iterations. *)
Lemma run_em_loop_ends pi mu cov (f : flow Pi Mu Cov) :
  run_em_loop expectation maximization scorer plot data max_iter threshold pi mu cov
    = Returned f ->
  exists n, ends (initial_state pi mu cov) n (flow_state f) /\
            (Z.of_nat n <= Z.max 0 max_iter)%Z.
Proof.
  unfold run_em_loop, range. intros H.
  apply for_loop_reaches with (s0 := initial_state pi mu cov) in H;
    [ | constructor | lia].
  destruct H as [(s' & -> & Hreach) | (j & sj & s' & -> & Hreach & Hlt & Hbody)].
  - exists (Z.to_nat max_iter). split; [ | lia].
    simpl. apply ends_exhausted. assumption.
  - exists (S j). split; [ | lia].
    simpl. apply ends_converged with (s := sj); assumption.
Qed.

(** A loop that raises has raised in an iteration that it got to. *)
Lemma for_loop_raises s0 (m n : nat) (s : fit_state Pi Mu Cov) (e : exn) :
  reach s0 n s ->
  (Z.of_nat (n + m) <= Z.max 0 max_iter)%Z ->
  loop (map Z.of_nat (seq n m)) s = Raised e ->
  exists j sj, reach s0 j sj /\ (Z.of_nat j < max_iter)%Z /\
               body (Z.of_nat j) sj = Raised e.
Proof.
  revert n s. induction m as [ | m IH]; intros n s Hreach Hle Hloop.
  - discriminate.
  - simpl in Hloop.
    destruct (body (Z.of_nat n) s) as [[s' | s'] | e'] eqn:Hbody;
      simpl in Hloop.
    + apply (IH (S n) s'); [ | lia | assumption].
      apply at_next with (s := s); [assumption | lia | assumption].
    + discriminate.
    + inversion Hloop; subst e'. exists n, s.
      split; [assumption | split; [lia | assumption]].
Qed.

End ControllerFacts.

(** * The loop: what it returns and when it stops *)

(** Two runs of the scripted steps, both of two iterations, with the same
    scores and different final parameters. *)
Example scripted_run_a :
  Scripted.run [of_int 7; of_int 7] 2 0 (of_int 1)
  = Returned [of_int 7; of_int 7]
  /\ exists s, Scripted.loop [of_int 7; of_int 7] 2 0 (of_int 1)
               = Returned (Continue s)
               /\ st_pi s = 2%nat.
Proof. split; [reflexivity | eexists; split; reflexivity]. Qed.

Example scripted_run_b :
  Scripted.run [of_int 0; of_int 7; of_int 7] 2 1 (of_int 1)
  = Returned [of_int 7; of_int 7]
  /\ exists s, Scripted.loop [of_int 0; of_int 7; of_int 7] 2 1 (of_int 1)
               = Returned (Continue s)
               /\ st_pi s = 3%nat.
Proof. split; [reflexivity | eexists; split; reflexivity]. Qed.

(** C1, as stated, fails: [run_em_algorithm] returns [aic_list] alone.
    Whatever the library computes, two calls of the fit with a budget of
    zero and different parameters return the same value, the empty list, so
    the final parameters cannot be read off the returned value.  (The two
    scripted runs above show the same after two iterations.) *)
Lemma C1_returned_value_omits_parameters :
  ~ exists (linspace : float -> float -> nat -> vector float)
           (frozen_error : vector float -> matrix float -> option exn)
           (pdf : vector float -> matrix float -> vector float -> float)
           (log : float -> float),
      returns_final_parameters
        (e_step frozen_error pdf) m_step (compute_aic frozen_error pdf log)
        (plot_step linspace frozen_error pdf).
Proof.
  intros (linspace & frozen_error & pdf & log & extract & Hextract).
  pose proof (Hextract Standin.two_points 0%Z (of_int 1)
                Standin.equal_weights Standin.two_means
                Standin.unit_covariances _ _ eq_refl eq_refl) as Ha.
  pose proof (Hextract Standin.two_points 0%Z (of_int 1)
                [of_int 1] [[of_int 0; of_int 0]] [eye 2]
                _ _ eq_refl eq_refl) as Hb.
  simpl in Ha, Hb. rewrite Ha in Hb. discriminate.
Qed.

(** C1, amended: every run that does not raise returns the list of the
    scores and nothing else, one score per executed iteration, whether the
    early stop fired or the budget ran out. *)
Theorem C1_run_returns_trajectory
    (Data Pi Mu Cov Resp Counts Shown : Type)
    (expectation : Data -> Mu -> Cov -> Pi -> result (Resp * Counts * Pi))
    (maximization : Data -> Resp -> Counts -> result (Mu * Cov))
    (scorer : Data -> Mu -> Cov -> Pi -> result float)
    (plot : Data -> Mu -> Cov -> Pi -> result Shown)
    (data : Data) (max_iter : Z) (threshold : float)
    (pi : Pi) (mu : Mu) (cov : Cov) (aics : list float) :
  run_em_algorithm expectation maximization scorer plot data max_iter threshold
                   pi mu cov = Returned aics ->
  exists (n : nat) (s : fit_state Pi Mu Cov),
    run_ends expectation maximization scorer plot data max_iter threshold
             (initial_state pi mu cov) n s /\
    aics = aic_list s /\
    length aics = n.
Proof.
  unfold run_em_algorithm. intros H.
  destruct (run_em_loop expectation maximization scorer plot data max_iter threshold
                        pi mu cov) as [f | e] eqn:Hloop;
    simpl in H; [ | discriminate].
  inversion H; subst aics; clear H.
  destruct (run_em_loop_ends _ _ _ _ _ _ _ _ _ _ Hloop) as (n & Hends & _).
  exists n, (flow_state f).
  assert (Haics : aic_list (final_state max_iter f) = aic_list (flow_state f))
    by (destruct f; reflexivity).
  rewrite Haics. split; [assumption | split; [reflexivity | ]].
  inversion Hends as [s Hreach Hn Hs | j sj s' Hreach Hlt Hbody Hn Hs].
  - apply head_invariant_holds in Hreach. apply Hreach.
  - apply head_invariant_holds in Hreach. destruct Hreach as [Hlen _].
    apply loop_body_steps in Hbody.
    destruct Hbody as (r & m_c & pi' & mu' & cov' & a & _ & _ & _ & _ & _ & _
                       & Hl & _).
    simpl in Hl. rewrite Hl, length_app, Hlen. simpl. lia.
Qed.

Lemma C1_run_returns_trajectory_witness :
  exists (n : nat) (s : fit_state nat nat unit),
    run_ends Scripted.expectation Scripted.maximization Scripted.scorer
           Scripted.plot
             [of_int 10; of_int 5; of_int 5; of_int 5; of_int 5; of_int 1]
             200 (of_int 1)
             (initial_state 0%nat 0%nat tt) n s /\
    [of_int 10; of_int 5; of_int 5; of_int 5; of_int 5] = aic_list s /\
    length [of_int 10; of_int 5; of_int 5; of_int 5; of_int 5] = n.
Proof.
  apply (C1_run_returns_trajectory
           Scripted.expectation Scripted.maximization Scripted.scorer
           Scripted.plot
           [of_int 10; of_int 5; of_int 5; of_int 5; of_int 5; of_int 1]
           200 (of_int 1)
           0%nat 0%nat tt).
  reflexivity.
Defined.

(** C4: the patience rule.  [previous_aic] starts at [float('inf')].  At an
    iteration whose calls return (the three steps and, when the iteration
    is scheduled, the plot), with [delta = previous_aic - current_aic]:
    when [delta < threshold] the counter goes up by one; the function
    returns early exactly when the counter has reached 3; when
    [delta >= threshold] the counter is reset to 0 and the loop goes on; and
    the first iteration never returns early. *)
Theorem C4_patience_rule
    (Data Pi Mu Cov Resp Counts Shown : Type)
    (expectation : Data -> Mu -> Cov -> Pi -> result (Resp * Counts * Pi))
    (maximization : Data -> Resp -> Counts -> result (Mu * Cov))
    (scorer : Data -> Mu -> Cov -> Pi -> result float)
    (plot : Data -> Mu -> Cov -> Pi -> result Shown)
    (data : Data) (max_iter : Z) (threshold : float)
    (pi0 : Pi) (mu0 : Mu) (cov0 : Cov)
    (n : nat) (s : fit_state Pi Mu Cov)
    (r : Resp) (m_c : Counts) (pi : Pi) (mu : Mu) (cov : Cov)
    (current_aic : float) :
  at_iteration expectation maximization scorer plot data max_iter threshold
               (initial_state pi0 mu0 cov0) n s ->
  expectation data (st_mu s) (st_cov s) (st_pi s) = Returned (r, m_c, pi) ->
  maximization data r m_c = Returned (mu, cov) ->
  scorer data mu cov pi = Returned current_aic ->
  ((Z.of_nat n mod 10 =? 0)%Z || (Z.of_nat n =? max_iter - 1)%Z = true ->
   returns (plot data mu cov pi)) ->
  previous_aic (initial_state pi0 mu0 cov0) = inf /\
  exists f,
    loop_body expectation maximization scorer plot data max_iter threshold
              (Z.of_nat n) s = Returned f /\
    let delta := fsub (previous_aic s) current_aic in
    (flt delta threshold = true ->
       no_improve_count (flow_state f) = (no_improve_count s + 1)%Z) /\
    ((exists s', f = Return s') <->
       flt delta threshold = true /\ no_improve_count (flow_state f) = 3%Z) /\
    (fle threshold delta = true ->
       no_improve_count (flow_state f) = 0%Z /\ exists s', f = Continue s') /\
    (n = 0%nat -> exists s', f = Continue s').
Proof.
  intros Hreach HE HM HS HP. split; [reflexivity | ].
  apply head_invariant_holds in Hreach.
  destruct Hreach as (_ & Hcount & Hzero & _).
  destruct (loop_body_returns expectation maximization scorer plot data max_iter
              threshold (Z.of_nat n) s HE HM HS HP) as [f Hf].
  exists f. split; [assumption | ].
  apply loop_body_steps in Hf.
  destruct Hf as (r' & m_c' & pi' & mu' & cov' & a & HE' & HM' & HS' & _ & _
                  & _ & _ & Hcase).
  rewrite HE in HE'. inversion HE'; subst r' m_c' pi'.
  rewrite HM in HM'. inversion HM'; subst mu' cov'.
  rewrite HS in HS'. inversion HS'; subst a.
  cbv zeta.
  assert (Hfirst : n = 0%nat ->
                   flt (fsub (previous_aic s) current_aic) threshold = false).
  { intros Hn. destruct (Hzero Hn) as [Hinf _]. rewrite Hinf.
    apply first_delta_not_below. }
  assert (Hge : fle threshold (fsub (previous_aic s) current_aic) = true ->
                flt (fsub (previous_aic s) current_aic) threshold = false)
    by apply fle_not_flt.
  destruct (flt (fsub (previous_aic s) current_aic) threshold) eqn:Hdelta.
  - destruct Hcase as [Hc Hcase].
    destruct (Z.leb_spec 3 (no_improve_count s + 1)) as [Hthree | Hsmall].
    + destruct Hcase as [s' ->]. simpl in *.
      split; [auto | ]. split; [split; [intros _; split; [reflexivity | lia] | eauto] | ].
      split; intros H; [apply Hge in H | apply Hfirst in H]; discriminate.
    + destruct Hcase as (s' & -> & _). simpl in *.
      split; [auto | ]. split; [split; [intros [s'' Habs]; discriminate | lia] | ].
      split; [intros H; apply Hge in H; discriminate | eauto].
  - destruct Hcase as (s' & -> & Hc & _). simpl in *.
    split; [discriminate | ].
    split; [split; [intros [s'' Habs] | intros [Habs _]]; discriminate | ].
    split; eauto.
Qed.

(** The head of the fifth iteration of a run whose scores stall from the
    second iteration on: the counter is at 2. *)
Example stalled_head :
  at_iteration Scripted.expectation Scripted.maximization Scripted.scorer
           Scripted.plot
    [of_int 10; of_int 5; of_int 5; of_int 5; of_int 5; of_int 1] 200 (of_int 1)
    (initial_state 0%nat 0%nat tt) 4
    {| st_pi := 4%nat; st_mu := 3%nat; st_cov := tt;
       previous_aic := of_int 5; no_improve_count := 2;
       aic_list := [of_int 10; of_int 5; of_int 5; of_int 5];
       stdout := [Report 0 (of_int 10) 1%nat 0%nat tt] |}.
Proof.
  eapply at_next;
    [eapply at_next;
      [eapply at_next;
        [eapply at_next; [apply at_start | lia | reflexivity]
        | lia | reflexivity]
      | lia | reflexivity]
    | lia | reflexivity].
Qed.

Lemma C4_patience_rule_witness :
  let script := [of_int 10; of_int 5; of_int 5; of_int 5; of_int 5; of_int 1] in
  let s := {| st_pi := 4%nat; st_mu := 3%nat; st_cov := tt;
              previous_aic := of_int 5; no_improve_count := 2;
              aic_list := [of_int 10; of_int 5; of_int 5; of_int 5];
              stdout := [Report 0 (of_int 10) 1%nat 0%nat tt] |} in
  previous_aic (initial_state 0%nat 0%nat tt) = inf /\
  exists f,
    loop_body Scripted.expectation Scripted.maximization Scripted.scorer
           Scripted.plot
              script 200 (of_int 1) (Z.of_nat 4) s = Returned f /\
    let delta := fsub (previous_aic s) (of_int 5) in
    (flt delta (of_int 1) = true ->
       no_improve_count (flow_state f) = (no_improve_count s + 1)%Z) /\
    ((exists s', f = Return s') <->
       flt delta (of_int 1) = true /\ no_improve_count (flow_state f) = 3%Z) /\
    (fle (of_int 1) delta = true ->
       no_improve_count (flow_state f) = 0%Z /\ exists s', f = Continue s') /\
    (4%nat = 0%nat -> exists s', f = Continue s').
Proof.
  intros script s.
  apply (@C4_patience_rule
           (list float) nat nat unit nat unit unit
           Scripted.expectation Scripted.maximization Scripted.scorer
           Scripted.plot
           script 200 (of_int 1) 0%nat 0%nat tt 4%nat s
           4%nat tt 5%nat 4%nat tt (of_int 5)).
  - exact stalled_head.
  - reflexivity.
  - reflexivity.
  - reflexivity.
  - intros _. exists tt. reflexivity.
Defined.

(** The early stop on a concrete run: the scores stall from the second
    iteration on, and the function returns during the fifth. *)
Example early_stop_run :
  Scripted.run [of_int 10; of_int 5; of_int 5; of_int 5; of_int 5; of_int 1]
               200 0 (of_int 1)
  = Returned [of_int 10; of_int 5; of_int 5; of_int 5; of_int 5].
Proof. reflexivity. Qed.

(** Four iterations are enough when the scores stall at once. *)
Example early_stop_after_four :
  Scripted.run [of_int 5; of_int 5; of_int 5; of_int 5; of_int 5]
               200 0 (of_int 1)
  = Returned [of_int 5; of_int 5; of_int 5; of_int 5].
Proof. reflexivity. Qed.



(** * Facts about lists, comprehensions and arrays *)

Unset Implicit Arguments.

Section ArrayFacts.

Context {F : Type} {FA : Arith F}.

Lemma length_zip_with {A B C : Type} (f : A -> B -> C) (xs : list A) (ys : list B) :
  length (zip_with f xs ys) = Nat.min (length xs) (length ys).
Proof.
  revert ys. induction xs as [ | x xs IH]; intros [ | y ys]; simpl; auto.
Qed.

Lemma nth_zip_with {A B C : Type} (f : A -> B -> C) (xs : list A) (ys : list B)
    (n : nat) (dx : A) (dy : B) (d : C) :
  (n < length xs)%nat -> (n < length ys)%nat ->
  nth n (zip_with f xs ys) d = f (nth n xs dx) (nth n ys dy).
Proof.
  revert ys n. induction xs as [ | x xs IH]; intros [ | y ys] [ | n];
    simpl; intros Hx Hy; try lia; auto.
  apply IH; lia.
Qed.

Lemma zip_with_map_same {A B C : Type} (f : A -> B -> C) (g : A -> B)
    (xs : list A) :
  zip_with f xs (map g xs) = map (fun x => f x (g x)) xs.
Proof.
  induction xs as [ | x xs IH]; simpl; congruence.
Qed.

Lemma normalize_rows_map (w : matrix F) :
  normalize_rows w = map (fun row => map (fun x => div x (sum row)) row) w.
Proof.
  unfold normalize_rows, row_sums. apply zip_with_map_same.
Qed.

(** A list is the list of its entries. *)
Lemma list_as_entries {A : Type} (l : list A) (d : A) :
  l = map (fun n => nth n l d) (seq 0 (length l)).
Proof.
  induction l as [ | x l IH]; simpl; [reflexivity | ].
  f_equal. rewrite <- seq_shift, map_map. exact IH.
Qed.

Lemma nth_map_seq {A : Type} (f : nat -> A) (n i : nat) (d : A) :
  (i < n)%nat -> nth i (map f (seq 0 n)) d = f i.
Proof.
  intros Hi. rewrite (nth_indep _ d (f 0%nat)) by (now rewrite length_map, length_seq).
  rewrite (map_nth f (seq 0 n) 0%nat i), seq_nth by assumption. reflexivity.
Qed.

Lemma index_returned {A : Type} (xs : list A) (i : nat) (x d : A) :
  index xs i = Returned x -> (i < length xs)%nat /\ nth i xs d = x.
Proof.
  unfold index. destruct (nth_error xs i) as [y | ] eqn:Hy; [ | discriminate].
  intros H. inversion H; subst y. split.
  - apply nth_error_Some. congruence.
  - now apply nth_error_nth.
Qed.

Lemma index_in_range {A : Type} (xs : list A) (i : nat) (d : A) :
  (i < length xs)%nat -> index xs i = Returned (nth i xs d).
Proof.
  intros Hi. unfold index.
  destruct (nth_error xs i) as [y | ] eqn:Hy.
  - now rewrite (nth_error_nth _ _ d Hy).
  - apply nth_error_None in Hy. lia.
Qed.

(** A comprehension over a range that returns has evaluated every body. *)
Lemma comprehension_seq_returned {B : Type} (f : nat -> result B) (a n : nat)
    (ys : list B) :
  comprehension f (seq a n) = Returned ys ->
  length ys = n /\
  forall i d, (i < n)%nat -> f (a + i)%nat = Returned (nth i ys d).
Proof.
  revert a ys. induction n as [ | n IH]; intros a ys; simpl.
  - intros H. inversion H. split; [reflexivity | intros; lia].
  - destruct (f a) as [y | e] eqn:Hfa; simpl; [ | discriminate].
    destruct (comprehension f (seq (S a) n)) as [ys' | e] eqn:Hrest; simpl;
      [ | discriminate].
    intros H. inversion H; subst ys. destruct (IH _ _ Hrest) as [Hlen Hnth].
    split; [simpl; congruence | ].
    intros [ | i] d Hi; simpl.
    + now rewrite Nat.add_0_r.
    + rewrite <- (Hnth i d) by lia. f_equal. lia.
Qed.

(** A comprehension whose bodies all return, returns. *)
Lemma comprehension_seq_returns {B : Type} (f : nat -> result B) (a n : nat) :
  (forall i, (i < n)%nat -> returns (f (a + i)%nat)) ->
  returns (comprehension f (seq a n)).
Proof.
  revert a. induction n as [ | n IH]; intros a H; simpl.
  - eexists; reflexivity.
  - destruct (H 0%nat ltac:(lia)) as [y Hy]. rewrite Nat.add_0_r in Hy.
    rewrite Hy. simpl.
    destruct (IH (S a)) as [ys Hys].
    + intros i Hi. replace (S a + i)%nat with (a + S i)%nat by lia.
      apply H. lia.
    + rewrite Hys. simpl. eexists; reflexivity.
Qed.

Variable frozen_error : vector F -> matrix F -> option exn.
Variable pdf : vector F -> matrix F -> vector F -> F.

(** The rows of weights that the E-step and the scorer build: one per
    component, each with one entry per point. *)
Lemma weighted_rows_returned (data mu : matrix F) (cov : list (matrix F))
    (pi : vector F) (w : matrix F) :
  comprehension (weighted_pdf frozen_error pdf data mu cov pi)
                (seq 0 (length pi)) = Returned w ->
  length w = length pi /\
  forall k, (k < length pi)%nat ->
    (k < length mu)%nat /\ (k < length cov)%nat /\
    frozen_error (nth k mu []) (nth k cov []) = None /\
    nth k w []
    = map (fun x => mul (nth k pi (of_Z 0))
                        (pdf (nth k mu []) (nth k cov []) x)) data.
Proof.
  intros H. apply comprehension_seq_returned in H. destruct H as [Hlen Hrows].
  split; [assumption | ]. intros k Hk.
  specialize (Hrows k [] Hk). simpl in Hrows. unfold weighted_pdf in Hrows.
  destruct (index pi k) as [p | e] eqn:Hp; simpl in Hrows; [ | discriminate].
  destruct (index mu k) as [m | e] eqn:Hm; simpl in Hrows; [ | discriminate].
  destruct (index cov k) as [c | e] eqn:Hc; simpl in Hrows; [ | discriminate].
  unfold multivariate_normal in Hrows.
  destruct (frozen_error m c) as [e | ] eqn:Hfe; simpl in Hrows; [discriminate | ].
  apply (index_returned _ _ _ (of_Z 0)) in Hp. destruct Hp as [_ Hp].
  apply (index_returned _ _ _ []) in Hm. destruct Hm as [Hm1 Hm2].
  apply (index_returned _ _ _ []) in Hc. destruct Hc as [Hc1 Hc2].
  subst p m c. inversion Hrows as [Hrow]. repeat split; auto.
Qed.

Lemma weighted_rows_returns (data mu : matrix F) (cov : list (matrix F))
    (pi : vector F) :
  length mu = length pi -> length cov = length pi ->
  (forall k, (k < length pi)%nat ->
             frozen_error (nth k mu []) (nth k cov []) = None) ->
  returns (comprehension (weighted_pdf frozen_error pdf data mu cov pi)
                         (seq 0 (length pi))).
Proof.
  intros Hmu Hcov Hfe. apply comprehension_seq_returns. intros k Hk. simpl.
  unfold weighted_pdf.
  rewrite (index_in_range pi k (of_Z 0)) by lia. simpl.
  rewrite (index_in_range mu k []) by lia. simpl.
  rewrite (index_in_range cov k []) by lia. simpl.
  unfold multivariate_normal. rewrite (Hfe k Hk). simpl.
  eexists; reflexivity.
Qed.

(** The E-step, taken apart. *)
Lemma expectation_step_returned (data mu : matrix F) (cov : list (matrix F))
    (pi : vector F) (r : matrix F) (m_c pi' : vector F) :
  expectation_step frozen_error pdf data mu cov pi = Returned (r, m_c, pi') ->
  exists w,
    comprehension (weighted_pdf frozen_error pdf data mu cov pi)
                  (seq 0 (length pi)) = Returned w /\
    length pi <> 0%nat /\ length data <> 1%nat /\
    r = normalize_rows (transpose (length data) w) /\
    m_c = map (fun k => sum (col k r)) (seq 0 (length pi)) /\
    pi' = map (fun m => div m (sum m_c)) m_c.
Proof.
  unfold expectation_step.
  destruct (comprehension _ _) as [w | e]; simpl; [ | discriminate].
  destruct (length pi =? 0)%nat eqn:HK; simpl; [discriminate | ].
  destruct (length data =? 1)%nat eqn:HN; simpl; [discriminate | ].
  intros H. inversion H. exists w.
  apply Nat.eqb_neq in HK. apply Nat.eqb_neq in HN.
  repeat split; auto.
Qed.

Lemma expectation_step_returns (data mu : matrix F) (cov : list (matrix F))
    (pi : vector F) :
  length pi <> 0%nat -> length data <> 1%nat ->
  length mu = length pi -> length cov = length pi ->
  (forall k, (k < length pi)%nat ->
             frozen_error (nth k mu []) (nth k cov []) = None) ->
  returns (expectation_step frozen_error pdf data mu cov pi).
Proof.
  intros HK HN Hmu Hcov Hfe.
  destruct (weighted_rows_returns data mu cov pi Hmu Hcov Hfe) as [w Hw].
  unfold expectation_step. rewrite Hw. simpl.
  apply Nat.eqb_neq in HK. apply Nat.eqb_neq in HN. rewrite HK, HN. simpl.
  eexists; reflexivity.
Qed.

(** Entry [(n, k)] of the transposed weights. *)
Lemma nth_transpose (rows : matrix F) (N n : nat) :
  (n < N)%nat -> nth n (transpose N rows) [] = col n rows.
Proof.
  intros Hn. unfold transpose. now rewrite nth_map_seq.
Qed.

Lemma length_transpose (rows : matrix F) (N : nat) :
  length (transpose N rows) = N.
Proof. unfold transpose. now rewrite length_map, length_seq. Qed.

Lemma length_col (rows : matrix F) (j : nat) : length (col j rows) = length rows.
Proof. unfold col. apply length_map. Qed.

Lemma nth_col (rows : matrix F) (j k : nat) :
  nth k (col j rows) (of_Z 0) = nth j (nth k rows []) (of_Z 0).
Proof.
  unfold col. destruct (Nat.lt_ge_cases k (length rows)) as [Hk | Hk].
  - rewrite (nth_indep _ (of_Z 0) (nth j [] (of_Z 0)))
      by (now rewrite length_map).
    apply (map_nth (fun row => nth j row (of_Z 0))).
  - rewrite (nth_overflow (map _ rows)) by (rewrite length_map; lia).
    rewrite (nth_overflow rows) by lia. now destruct j.
Qed.

End ArrayFacts.

(** * The steps in binary64, on two points *)

(** With a flat density and equal weights every responsibility is 1/2, the
    effective counts are 1 and the weights stay 1/2. *)
Example e_step_two_points :
  let half := fdiv (of_int 1) (of_int 2) in
  expectation_step (F:=float) Standin.accepts_all Standin.flat_pdf
    Standin.two_points Standin.two_means Standin.unit_covariances
    Standin.equal_weights
  = Returned ([[half; half]; [half; half]], [of_int 1; of_int 1], [half; half]).
Proof. reflexivity. Qed.

(** The means are the midpoint and every covariance entry is 1/4. *)
Example m_step_two_points :
  let half := fdiv (of_int 1) (of_int 2) in
  let quarter := fdiv (of_int 1) (of_int 4) in
  maximization_step (F:=float) Standin.two_points
    [[half; half]; [half; half]] [of_int 1; of_int 1]
  = ([[half; half]; [half; half]],
     [[[quarter; quarter]; [quarter; quarter]];
      [[quarter; quarter]; [quarter; quarter]]]).
Proof. reflexivity. Qed.

(** A single point, and no component: the E-step raises. *)
Example e_step_single_point :
  expectation_step (F:=float) Standin.accepts_all Standin.flat_pdf
    [[of_int 0; of_int 0]] Standin.two_means Standin.unit_covariances
    Standin.equal_weights
  = Raised AxisError
  /\ expectation_step (F:=float) Standin.accepts_all Standin.flat_pdf
       Standin.two_points [] [] []
     = Raised AxisError.
Proof. split; reflexivity. Qed.

(** * The E-step in binary64: rows of zero weights *)

Lemma fadd_zero_zero (x y : float) :
  is_zero x = true -> is_zero y = true -> is_zero (fadd x y) = true.
Proof.
  destruct x as [[ | ] | | | ], y as [[ | ] | | | ];
    simpl; intros; (reflexivity || discriminate).
Qed.

Lemma fdiv_zero_zero (x y : float) :
  is_zero x = true -> is_zero y = true -> fdiv x y = nan.
Proof.
  destruct x, y; simpl; intros; (reflexivity || discriminate).
Qed.

Lemma fold_left_fadd_zeros (xs : list float) (acc : float) :
  is_zero acc = true ->
  Forall (fun x => is_zero x = true) xs ->
  is_zero (fold_left fadd xs acc) = true.
Proof.
  revert acc. induction xs as [ | x xs IH]; intros acc Hacc Hxs; simpl.
  - assumption.
  - inversion Hxs; subst. apply IH; [now apply fadd_zero_zero | assumption].
Qed.

(** The sum of zeros, of either sign, is a zero. *)
Lemma sum_zeros (xs : vector float) :
  Forall (fun x => is_zero x = true) xs -> is_zero (sum xs) = true.
Proof.
  destruct xs as [ | x xs]; intros H; [reflexivity | ].
  inversion H; subst. simpl. now apply fold_left_fadd_zeros.
Qed.

(** Dividing a row of zeros by its sum gives a row of NaN. *)
Lemma map_fdiv_zeros (row : vector float) (s : float) :
  is_zero s = true ->
  Forall (fun x => is_zero x = true) row ->
  map (fun x => fdiv x s) row = repeat nan (length row).
Proof.
  intros Hs H. induction H as [ | x xs Hx Hxs IH]; simpl; [reflexivity | ].
  f_equal; [now apply fdiv_zero_zero | exact IH].
Qed.

Lemma normalized_zero_row (row : vector float) :
  Forall (fun x => is_zero x = true) row ->
  map (fun x => div x (sum row)) row = repeat nan (length row).
Proof.
  intros H. apply map_fdiv_zeros; [now apply sum_zeros | assumption].
Qed.

(** The underflow of every density at two far points, for one component. *)
Example underflow_e_step :
  expectation_step Standin.accepts_all Standin.underflow_pdf
    [[of_int 100; of_int 100]; [of_int (-100); of_int (-100)]]
    [[of_int 0; of_int 0]] [eye 2] [of_int 1]
  = Returned ([[nan]; [nan]], [nan], [nan]).
Proof. reflexivity. Qed.

(** C2, as stated, fails: the E-step has no floor.  With every density
    underflowed to zero, the rows are divided by their zero sums. *)
Lemma C2_zero_row_is_divided_by_zero :
  ~ zero_rows_are_floored Standin.accepts_all Standin.underflow_pdf.
Proof.
  intros H.
  specialize (H [[of_int 100; of_int 100]; [of_int (-100); of_int (-100)]]
                [[of_int 0; of_int 0]] [eye 2] [of_int 1]
                [[nan]; [nan]] [nan] [nan]
                [[S754_zero false; S754_zero false]] 0%nat
                eq_refl eq_refl).
  assert (Hn : (0 < 2)%nat) by lia.
  specialize (H Hn).
  assert (Hz : forall k, (k < 1)%nat ->
            is_zero (nth 0 (nth k [[S754_zero false; S754_zero false]] [])
                         (of_Z 0)) = true).
  { intros [ | k] Hk; [reflexivity | lia]. }
  specialize (H Hz). vm_compute in H. discriminate.
Qed.

(** C2, amended: a point whose weights are all zero has its row divided by
    the zero row sum, without a floor: the divisor is a zero and every
    entry of the row is NaN. *)
Theorem C2_zero_row_becomes_nan
    (frozen_error : vector float -> matrix float -> option exn)
    (pdf : vector float -> matrix float -> vector float -> float)
    (data mu : matrix float) (cov : list (matrix float)) (pi : vector float)
    (r : matrix float) (m_c pi' : vector float) (n : nat) :
  expectation_step frozen_error pdf data mu cov pi = Returned (r, m_c, pi') ->
  (n < length data)%nat ->
  (forall k, (k < length pi)%nat ->
     is_zero (fmul (nth k pi (of_int 0))
                   (pdf (nth k mu []) (nth k cov []) (nth n data []))) = true) ->
  exists w,
    comprehension (weighted_pdf frozen_error pdf data mu cov pi)
                  (seq 0 (length pi)) = Returned w /\
    is_zero (nth n (row_sums (transpose (length data) w)) nan) = true /\
    nth n r [] = repeat nan (length pi).
Proof.
  intros HE Hn Hzero.
  apply expectation_step_returned in HE.
  destruct HE as (w & Hw & HK & HN & Hr & _ & _).
  exists w. split; [assumption | ].
  apply weighted_rows_returned in Hw. destruct Hw as [Hlen Hrows].
  assert (Hrow : Forall (fun x => is_zero x = true) (col n w)).
  { apply Forall_forall. intros x Hx. unfold col in Hx.
    apply in_map_iff in Hx. destruct Hx as (row & Hx & Hin).
    apply (In_nth _ _ []) in Hin. destruct Hin as (k & Hk & Hrow).
    rewrite Hlen in Hk. destruct (Hrows k Hk) as (_ & _ & _ & Hwk).
    rewrite Hrow in Hwk. rewrite <- Hx, Hwk.
    rewrite (nth_indep _ _ (mul (nth k pi (of_Z 0))
               (pdf (nth k mu []) (nth k cov []) [])))
      by (now rewrite length_map).
    rewrite (map_nth (fun x => mul (nth k pi (of_Z 0))
                                   (pdf (nth k mu []) (nth k cov []) x))).
    apply Hzero. assumption. }
  assert (Hcol : length (col n w) = length pi)
    by (now rewrite length_col).
  split.
  - unfold row_sums.
    rewrite (nth_indep _ nan (sum (@nil float)))
      by (now rewrite length_map, length_transpose).
    rewrite (map_nth sum), nth_transpose by assumption.
    now apply sum_zeros.
  - rewrite Hr, normalize_rows_map.
    rewrite (nth_indep _ [] (map (fun x => div x (sum (@nil float))) []))
      by (now rewrite length_map, length_transpose).
    rewrite (map_nth (fun row => map (fun x => div x (sum row)) row)).
    rewrite nth_transpose by assumption.
    rewrite <- Hcol. now apply normalized_zero_row.
Qed.

Lemma C2_zero_row_becomes_nan_witness :
  exists w,
    comprehension
      (weighted_pdf Standin.accepts_all Standin.underflow_pdf
         [[of_int 100; of_int 100]; [of_int (-100); of_int (-100)]]
         [[of_int 0; of_int 0]] [eye 2] [of_int 1])
      (seq 0 (length [of_int 1])) = Returned w /\
    is_zero (nth 0 (row_sums (transpose 2 w)) nan) = true /\
    nth 0 [[nan]; [nan]] [] = repeat nan (length [of_int 1]).
Proof.
  apply (C2_zero_row_becomes_nan Standin.accepts_all Standin.underflow_pdf
           [[of_int 100; of_int 100]; [of_int (-100); of_int (-100)]]
           [[of_int 0; of_int 0]] [eye 2] [of_int 1]
           [[nan]; [nan]] [nan] [nan] 0%nat).
  - reflexivity.
  - simpl. lia.
  - intros [ | k] Hk; [reflexivity | simpl in Hk; lia].
Defined.

(** * Sums over the reals *)

Section RealSums.

Local Open Scope R_scope.

Import Spec.

Lemma fold_left_Rplus (xs : list R) (acc : R) :
  fold_left Rplus xs acc = acc + fold_right Rplus 0 xs.
Proof.
  revert acc. induction xs as [ | x xs IH]; intros acc; simpl.
  - ring.
  - rewrite IH. ring.
Qed.

(** Over the reals the order of summation does not matter. *)
Lemma sum_fold_right (xs : vector R) : sum xs = fold_right Rplus 0 xs.
Proof.
  destruct xs as [ | x xs]; simpl; [reflexivity | apply fold_left_Rplus].
Qed.

Lemma sum_sigma (xs : vector R) :
  sum xs = sigma (length xs) (fun n => nth n xs 0).
Proof.
  rewrite sum_fold_right. unfold sigma. now rewrite <- list_as_entries.
Qed.

Lemma sum_map_seq (f : nat -> R) (n : nat) :
  sum (map f (seq 0 n)) = sigma n f.
Proof. apply sum_fold_right. Qed.

Lemma sigma_0 (f : nat -> R) : sigma 0 f = 0.
Proof. reflexivity. Qed.

Lemma fold_right_Rplus_acc (xs : list R) (acc : R) :
  fold_right Rplus acc xs = fold_right Rplus 0 xs + acc.
Proof.
  induction xs as [ | x xs IH]; simpl; [ring | rewrite IH; ring].
Qed.

Lemma sigma_S (n : nat) (f : nat -> R) : sigma (S n) f = sigma n f + f n.
Proof.
  unfold sigma. rewrite seq_S, map_app, fold_right_app. simpl.
  rewrite fold_right_Rplus_acc. ring.
Qed.

Lemma sigma_ext (n : nat) (f g : nat -> R) :
  (forall i, (i < n)%nat -> f i = g i) -> sigma n f = sigma n g.
Proof.
  induction n as [ | n IH]; intros H; [reflexivity | ].
  rewrite !sigma_S, IH, (H n) by auto with arith. reflexivity.
Qed.

Lemma sigma_ext_log (log : R -> R) (n : nat) (f g : nat -> R) :
  (forall i, (i < n)%nat -> f i = g i) ->
  sigma n (fun i => log (f i)) = sigma n (fun i => log (g i)).
Proof.
  intros H. apply sigma_ext. intros i Hi. now rewrite H.
Qed.

Lemma sigma_plus (n : nat) (f g : nat -> R) :
  sigma n (fun i => f i + g i) = sigma n f + sigma n g.
Proof.
  induction n as [ | n IH]; [rewrite !sigma_0; ring | ].
  rewrite !sigma_S, IH. ring.
Qed.

Lemma sigma_div (n : nat) (f : nat -> R) (c : R) :
  sigma n (fun i => f i / c) = sigma n f / c.
Proof.
  induction n as [ | n IH]; [rewrite !sigma_0; unfold Rdiv; ring | ].
  rewrite !sigma_S, IH. unfold Rdiv. ring.
Qed.

Lemma sigma_const (n : nat) (c : R) : sigma n (fun _ => c) = INR n * c.
Proof.
  induction n as [ | n IH]; [rewrite sigma_0; simpl; ring | ].
  rewrite sigma_S, IH, S_INR. ring.
Qed.

Lemma sigma_exchange (n m : nat) (f : nat -> nat -> R) :
  sigma n (fun i => sigma m (fun j => f i j))
  = sigma m (fun j => sigma n (fun i => f i j)).
Proof.
  induction n as [ | n IH].
  - rewrite sigma_0. symmetry. rewrite (sigma_ext m _ (fun _ => 0)).
    + rewrite sigma_const. ring.
    + intros. apply sigma_0.
  - rewrite sigma_S, IH, <- sigma_plus. apply sigma_ext.
    intros j _. now rewrite sigma_S.
Qed.

Lemma sigma_nonneg (n : nat) (f : nat -> R) :
  (forall i, (i < n)%nat -> 0 <= f i) -> 0 <= sigma n f.
Proof.
  induction n as [ | n IH]; intros H; [rewrite sigma_0; lra | ].
  rewrite sigma_S.
  assert (0 <= sigma n f) by (apply IH; auto with arith).
  assert (0 <= f n) by (apply H; auto with arith). lra.
Qed.

(** A mixture of positive densities with weights that are not all zero is
    positive. *)
Lemma sigma_weighted_positive (n : nat) (p c : nat -> R) :
  (forall i, (i < n)%nat -> 0 <= p i) ->
  (forall i, (i < n)%nat -> 0 < c i) ->
  0 < sigma n p ->
  0 < sigma n (fun i => p i * c i).
Proof.
  induction n as [ | n IH]; intros Hp Hc Hsum.
  - rewrite sigma_0 in Hsum. lra.
  - rewrite sigma_S in *.
    assert (Hpn : 0 <= p n) by (apply Hp; auto with arith).
    assert (Hcn : 0 < c n) by (apply Hc; auto with arith).
    assert (Hrest : 0 <= sigma n (fun i => p i * c i)).
    { apply sigma_nonneg. intros i Hi.
      apply Rmult_le_pos; [apply Hp | apply Rlt_le, Hc]; auto with arith. }
    destruct (Rle_lt_dec (sigma n p) 0) as [Hle | Hlt].
    + assert (0 < p n) by lra.
      assert (0 < p n * c n) by (now apply Rmult_lt_0_compat). lra.
    + assert (0 < sigma n (fun i => p i * c i))
        by (apply IH; auto with arith).
      assert (0 <= p n * c n) by (apply Rmult_le_pos; lra). lra.
Qed.

Lemma sum_repeat (c : R) (n : nat) : sum (repeat c n) = INR n * c.
Proof.
  rewrite sum_fold_right.
  induction n as [ | n IH]; [simpl; ring | ].
  change (fold_right Rplus 0 (repeat c (S n)))
    with (c + fold_right Rplus 0 (repeat c n)).
  rewrite IH, S_INR. ring.
Qed.

End RealSums.

(** * The E-step over the reals *)

Section RealExpectation.

Local Open Scope R_scope.

Import Spec.

Variable frozen_error : vector R -> matrix R -> option exn.
Variable pdf : vector R -> matrix R -> vector R -> R.

Variable data mu : matrix R.
Variable cov : list (matrix R).
Variable pi : vector R.

Local Abbreviation N := (length data).
Local Abbreviation K := (length pi).
Local Abbreviation w := (weight pdf data mu cov pi).

Variable rows : matrix R.
Hypothesis rows_built :
  comprehension (weighted_pdf frozen_error pdf data mu cov pi) (seq 0 K)
  = Returned rows.

Lemma weight_entry (n k : nat) :
  (n < N)%nat -> (k < K)%nat -> nth k (col n rows) 0 = w n k.
Proof.
  intros Hn Hk.
  destruct (weighted_rows_returned _ _ _ _ _ _ _ rows_built) as [_ Hrows].
  destruct (Hrows k Hk) as (_ & _ & _ & Hrow).
  change 0 with (@of_Z R _ 0%Z) at 1. rewrite nth_col, Hrow.
  rewrite (nth_indep _ _ (mul (nth k pi (of_Z 0))
             (pdf (nth k mu []) (nth k cov []) [])))
    by (now rewrite length_map).
  rewrite (map_nth (fun x => mul (nth k pi (of_Z 0))
                                 (pdf (nth k mu []) (nth k cov []) x))).
  reflexivity.
Qed.

Lemma weight_row_length (n : nat) : length (col n rows) = K.
Proof.
  rewrite length_col.
  now destruct (weighted_rows_returned _ _ _ _ _ _ _ rows_built).
Qed.

Lemma weight_row_sum (n : nat) :
  (n < N)%nat -> sum (col n rows) = sigma K (w n).
Proof.
  intros Hn. rewrite sum_sigma, weight_row_length.
  apply sigma_ext. intros k Hk. now apply weight_entry.
Qed.

(** Row [n] of the normalized array. *)
Lemma normalized_row (n : nat) :
  (n < N)%nat ->
  nth n (normalize_rows (transpose N rows)) []
  = map (fun x => x / sigma K (w n)) (col n rows).
Proof.
  intros Hn. rewrite normalize_rows_map.
  rewrite (nth_indep _ [] (map (fun x => div x (sum (@nil R))) []))
    by (now rewrite length_map, length_transpose).
  rewrite (map_nth (fun row => map (fun x => div x (sum row)) row)).
  rewrite nth_transpose by assumption.
  now rewrite weight_row_sum.
Qed.

Lemma normalized_entry (n k : nat) :
  (n < N)%nat -> (k < K)%nat ->
  entry (normalize_rows (transpose N rows)) n k = responsibility w K n k.
Proof.
  intros Hn Hk. unfold entry, responsibility.
  rewrite normalized_row by assumption.
  rewrite (nth_indep _ 0 (0 / sigma K (w n)))
    by (now rewrite length_map, weight_row_length).
  rewrite (map_nth (fun x => x / sigma K (w n))).
  now rewrite weight_entry.
Qed.

End RealExpectation.

Section RealExpectationStep.

Local Open Scope R_scope.

Import Spec.

Variable frozen_error : vector R -> matrix R -> option exn.
Variable pdf : vector R -> matrix R -> vector R -> R.

(** What the E-step returns, entry by entry. *)
Lemma expectation_step_real (data mu : matrix R) (cov : list (matrix R))
    (pi : vector R) (r : matrix R) (m_c pi' : vector R) :
  expectation_step frozen_error pdf data mu cov pi = Returned (r, m_c, pi') ->
  (forall n k, (n < length data)%nat -> (k < length pi)%nat ->
     entry r n k
     = responsibility (weight pdf data mu cov pi) (length pi) n k) /\
  length m_c = length pi /\
  (forall k, (k < length pi)%nat ->
     coord m_c k = effective_count (entry r) (length data) k) /\
  length pi' = length pi /\
  (forall k, (k < length pi)%nat ->
     coord pi' k = coord m_c k / sigma (length pi) (coord m_c)) /\
  sum pi' = sigma (length pi) (coord m_c) / sigma (length pi) (coord m_c).
Proof.
  intros HE. apply expectation_step_returned in HE.
  destruct HE as (rows & Hrows & HK & HN & Hr & Hm & Hpi).
  assert (Hlen_r : length r = length data).
  { rewrite Hr, normalize_rows_map, length_map. apply length_transpose. }
  assert (Hlen_m : length m_c = length pi)
    by (now rewrite Hm, length_map, length_seq).
  assert (Hsum_m : sum m_c = sigma (length pi) (coord m_c))
    by (now rewrite sum_sigma, Hlen_m).
  assert (Hcoord : forall k, (k < length pi)%nat ->
                   coord pi' k = coord m_c k / sigma (length pi) (coord m_c)).
  { intros k Hk. unfold coord. rewrite Hpi.
    rewrite (nth_indep _ 0 (div 0 (sum m_c)))
      by (now rewrite length_map, Hlen_m).
    rewrite (map_nth (fun m => div m (sum m_c))). now rewrite Hsum_m. }
  assert (Hlen_pi : length pi' = length pi)
    by (now rewrite Hpi, length_map).
  split; [ | split; [ | split; [ | split; [ | split]]]]; auto.
  - intros n k Hn Hk. rewrite Hr.
    now apply normalized_entry with (frozen_error := frozen_error).
  - intros k Hk. unfold coord, effective_count. rewrite Hm.
    rewrite nth_map_seq by assumption.
    rewrite sum_sigma, length_col, Hlen_r.
    apply sigma_ext. intros n _. exact (@nth_col R _ r k n).
  - rewrite sum_sigma, Hlen_pi.
    rewrite (sigma_ext _ _ (fun k => coord m_c k / sigma (length pi) (coord m_c)))
      by exact Hcoord.
    apply sigma_div.
Qed.

(** When no row sum is zero, every normalized row sums to 1 and the
    effective counts sum to the number of points. *)
Lemma effective_counts_total (data mu : matrix R) (cov : list (matrix R))
    (pi : vector R) (r : matrix R) (m_c pi' : vector R) :
  expectation_step frozen_error pdf data mu cov pi = Returned (r, m_c, pi') ->
  (forall n, (n < length data)%nat ->
     sigma (length pi) (weight pdf data mu cov pi n) <> 0) ->
  sigma (length pi) (coord m_c) = INR (length data).
Proof.
  intros HE Hrows.
  destruct (expectation_step_real _ _ _ _ _ _ _ HE)
    as (Hr & _ & Hm & _ & _ & _).
  rewrite (sigma_ext _ _ (fun k => sigma (length data) (fun n => entry r n k)))
    by exact Hm.
  rewrite <- sigma_exchange.
  rewrite (sigma_ext _ _ (fun _ => 1)); [rewrite sigma_const; ring | ].
  intros n Hn.
  rewrite (sigma_ext _ _ (fun k => weight pdf data mu cov pi n k
                    / sigma (length pi) (weight pdf data mu cov pi n)))
    by (intros k Hk; now apply Hr).
  rewrite sigma_div. field. now apply Hrows.
Qed.

End RealExpectationStep.



(** * The M-step over the reals *)

Section RealMaximization.

Local Open Scope R_scope.

Import Spec.

Variable data r : matrix R.
Variable m_c : vector R.

Local Abbreviation N := (length data).
Local Abbreviation D := (ncols data).

Hypothesis r_rows : length r = N.
Hypothesis data_rows : Forall (fun x => length x = D) data.

(** [u.dot(v)] for columns of two arrays with [N] rows. *)
Lemma dot_columns (a b : matrix R) (i j : nat) :
  length a = N -> length b = N ->
  dot (col i a) (col j b) = sigma N (fun n => entry a n i * entry b n j).
Proof.
  intros Ha Hb. unfold dot. rewrite sum_sigma, length_zip_with, !length_col.
  rewrite Ha, Hb, Nat.min_id. apply sigma_ext. intros n Hn.
  rewrite (nth_zip_with _ _ _ _ (of_Z 0) (of_Z 0) 0)
    by (rewrite length_col; lia).
  rewrite !nth_col. reflexivity.
Qed.

Lemma new_mean_row (k : nat) :
  (k < length m_c)%nat ->
  nth k (fst (maximization_step data r m_c)) []
  = map (fun d => sigma N (fun n => entry r n k * entry data n d) / coord m_c k)
        (seq 0 D).
Proof.
  intros Hk. unfold maximization_step. cbv zeta. simpl fst.
  rewrite nth_map_seq by assumption.
  apply map_ext. intros d. now rewrite dot_columns.
Qed.

Lemma new_mean_entry (k d : nat) :
  (k < length m_c)%nat -> (d < D)%nat ->
  entry (fst (maximization_step data r m_c)) k d = weighted_mean data r m_c k d.
Proof.
  intros Hk Hd. unfold entry. rewrite new_mean_row by assumption.
  now rewrite nth_map_seq.
Qed.

Lemma new_mean_length (k : nat) :
  (k < length m_c)%nat ->
  length (nth k (fst (maximization_step data r m_c)) []) = D.
Proof.
  intros Hk. rewrite new_mean_row by assumption.
  now rewrite length_map, length_seq.
Qed.

(** Entry [(n, a)] of [data - m] for a vector [m] of [D] coordinates. *)
Lemma centered_entry (m : vector R) (n a : nat) :
  length m = D -> (n < N)%nat -> (a < D)%nat ->
  entry (map (fun x => zip_with sub x m) data) n a
  = entry data n a - coord m a.
Proof.
  intros Hm Hn Ha. unfold entry, coord.
  rewrite (nth_indep _ [] (zip_with sub [] m)) by (now rewrite length_map).
  rewrite (map_nth (fun x => zip_with sub x m)).
  assert (Hrow : length (nth n data []) = D).
  { rewrite Forall_forall in data_rows. apply data_rows. now apply nth_In. }
  apply nth_zip_with; lia.
Qed.

(** Entry [(n, b)] of [c * r[:, k][:, np.newaxis]] for an array [c] of [N]
    rows. *)
Lemma weighted_entry (c : matrix R) (k n b : nat) :
  length c = N -> (n < N)%nat ->
  entry (zip_with (fun row rn => map (fun x => mul x rn) row) c (col k r)) n b
  = entry c n b * entry r n k.
Proof.
  intros Hc Hn. unfold entry.
  rewrite (nth_zip_with _ _ _ _ [] 0 [])
    by (rewrite ?length_col; lia).
  rewrite (nth_indep (col k r) 0 (of_Z 0)) by (rewrite length_col; lia).
  rewrite nth_col.
  destruct (Nat.lt_ge_cases b (length (nth n c []))) as [Hb | Hb].
  - rewrite (nth_indep _ 0 (mul 0 (nth k (nth n r []) (of_Z 0))))
      by (now rewrite length_map).
    now rewrite (map_nth (fun x => mul x (nth k (nth n r []) (of_Z 0)))).
  - rewrite !nth_overflow by (rewrite ?length_map; lia). simpl. ring.
Qed.

Lemma new_covariance_entry (k a b : nat) :
  (k < length m_c)%nat -> (a < D)%nat -> (b < D)%nat ->
  nth b (nth a (nth k (snd (maximization_step data r m_c)) []) []) 0
  = weighted_covariance data r m_c
      (nth k (fst (maximization_step data r m_c)) []) k a b.
Proof.
  intros Hk Ha Hb.
  pose proof (new_mean_length k Hk) as Hlen.
  unfold maximization_step in *. cbv zeta in *. simpl fst in *. simpl snd.
  set (mu := map _ (seq 0 (length m_c))) in *.
  rewrite nth_map_seq by assumption.
  rewrite !nth_map_seq by assumption.
  set (centered := map (fun x => zip_with sub x (nth k mu [])) data).
  assert (Hc : length centered = N) by (unfold centered; apply length_map).
  rewrite dot_columns;
    [ | assumption
      | rewrite length_zip_with, length_col, length_map, r_rows;
        apply Nat.min_id].
  unfold weighted_covariance. f_equal.
  apply sigma_ext. intros n Hn.
  rewrite weighted_entry by assumption.
  unfold centered. rewrite !centered_entry by assumption. ring.
Qed.

End RealMaximization.

(** C6: for a component [k] with a non-zero effective count, the M-step
    returns the weighted mean of the points and their weighted covariance
    around that new mean. *)
Theorem C6_weighted_mean_and_covariance
    (data r : matrix R) (m_c : vector R) (mu : matrix R) (cov : list (matrix R))
    (k : nat) :
  maximization_step data r m_c = (mu, cov) ->
  length r = length data ->
  Forall (fun x => length x = ncols data) data ->
  (k < length m_c)%nat ->
  Spec.coord m_c k <> 0%R ->
  length (nth k mu []) = ncols data /\
  (forall d, (d < ncols data)%nat ->
     Spec.entry mu k d = Spec.weighted_mean data r m_c k d) /\
  (forall a b, (a < ncols data)%nat -> (b < ncols data)%nat ->
     nth b (nth a (nth k cov []) []) 0%R
     = Spec.weighted_covariance data r m_c (nth k mu []) k a b).
Proof.
  intros HM Hr Hdata Hk _.
  assert (Hmu : mu = fst (maximization_step data r m_c)) by now rewrite HM.
  assert (Hcov : cov = snd (maximization_step data r m_c)) by now rewrite HM.
  subst mu cov. split; [ | split].
  - now apply new_mean_length.
  - intros d Hd. now apply new_mean_entry.
  - intros a b Ha Hb. now apply new_covariance_entry.
Qed.

Lemma C6_weighted_mean_and_covariance_witness :
  let r := [[(1 / 2)%R; (1 / 2)%R]; [(1 / 2)%R; (1 / 2)%R]] in
  let m_c := [1%R; 1%R] in
  let mu := fst (maximization_step Standin.two_points r m_c) in
  let cov := snd (maximization_step Standin.two_points r m_c) in
  length (nth 0 mu []) = 2%nat /\
  (forall d, (d < 2)%nat ->
     Spec.entry mu 0 d = Spec.weighted_mean Standin.two_points r m_c 0 d) /\
  (forall a b, (a < 2)%nat -> (b < 2)%nat ->
     nth b (nth a (nth 0 cov []) []) 0%R
     = Spec.weighted_covariance Standin.two_points r m_c (nth 0 mu []) 0 a b).
Proof.
  intros r m_c mu cov.
  apply (C6_weighted_mean_and_covariance Standin.two_points r m_c mu cov 0).
  - reflexivity.
  - reflexivity.
  - repeat constructor.
  - unfold m_c. simpl. lia.
  - unfold m_c, Spec.coord. simpl. lra.
Defined.

(** The mean of two points with equal responsibilities is their midpoint. *)
Example midpoint_mean :
  fst (maximization_step Standin.two_points
         [[(1 / 2)%R; (1 / 2)%R]; [(1 / 2)%R; (1 / 2)%R]] [1%R; 1%R])
  = [[(1 / 2)%R; (1 / 2)%R]; [(1 / 2)%R; (1 / 2)%R]].
Proof.
  unfold maximization_step, Standin.two_points, dot, col. simpl.
  repeat (f_equal; try lra).
Qed.

(** * The scorer over the reals *)

Lemma parameter_count_real (K D : nat) :
  parameter_count (F:=R) (Z.of_nat K) (Z.of_nat D) = Spec.free_parameters K D.
Proof.
  unfold parameter_count, Spec.free_parameters. simpl.
  rewrite mult_IZR, plus_IZR, <- !INR_IZR_INZ. reflexivity.
Qed.



(** The parameter count of [main]: four components in the plane. *)
Example parameter_count_of_main :
  parameter_count (F:=float) 4 2 = of_int 24
  /\ Spec.free_parameters 4 2 = 24%R.
Proof.
  split; [reflexivity | unfold Spec.free_parameters; simpl; lra].
Qed.

(** * The mixing weights through the fit *)

Section MixingWeights.

Local Open Scope R_scope.

Import Spec.

Variable frozen_error : vector R -> matrix R -> option exn.
Variable pdf : vector R -> matrix R -> vector R -> R.

Hypothesis pdf_positive : forall mean cov x, 0 < pdf mean cov x.

Lemma coord_nonneg (pi : vector R) (k : nat) :
  Forall (fun p => 0 <= p) pi -> 0 <= coord pi k.
Proof.
  intros H. unfold coord.
  destruct (Nat.lt_ge_cases k (length pi)) as [Hk | Hk].
  - rewrite Forall_forall in H. apply H. now apply nth_In.
  - rewrite nth_overflow by assumption. lra.
Qed.

(** With positive densities and mixing weights, no row sum is zero. *)
Lemma row_sum_positive (data mu : matrix R) (cov : list (matrix R))
    (pi : vector R) (n : nat) :
  mixing_weights pi ->
  0 < sigma (length pi) (weight pdf data mu cov pi n).
Proof.
  intros [Hpos Hsum]. unfold weight.
  apply sigma_weighted_positive
    with (p := coord pi)
         (c := fun k => pdf (nth k mu []) (nth k cov []) (nth n data [])).
  - intros k _. now apply coord_nonneg.
  - intros k _. apply pdf_positive.
  - rewrite sum_sigma in Hsum. unfold coord. rewrite Hsum. lra.
Qed.

(** The E-step keeps mixing weights mixing weights. *)
Lemma expectation_step_mixing_weights (data mu : matrix R)
    (cov : list (matrix R)) (pi : vector R) (r : matrix R) (m_c pi' : vector R) :
  data <> [] ->
  mixing_weights pi ->
  expectation_step frozen_error pdf data mu cov pi = Returned (r, m_c, pi') ->
  mixing_weights pi'.
Proof.
  intros Hdata Hpi HE.
  assert (Hrows : forall n, (n < length data)%nat ->
                  sigma (length pi) (weight pdf data mu cov pi n) <> 0).
  { intros n _. pose proof (row_sum_positive data mu cov pi n Hpi). lra. }
  pose proof (effective_counts_total _ _ _ _ _ _ _ _ _ HE Hrows) as Htotal.
  destruct (expectation_step_real _ _ _ _ _ _ _ _ _ HE)
    as (Hr & Hlen_m & Hm & Hlen_pi & Hcoord & Hsum).
  assert (HN : 0 < INR (length data)).
  { apply lt_0_INR. destruct data; [congruence | simpl; lia]. }
  assert (Hcount : forall k, (k < length pi)%nat -> 0 <= coord m_c k).
  { intros k Hk. rewrite (Hm k Hk). apply sigma_nonneg. intros n Hn.
    rewrite (Hr n k Hn Hk). unfold responsibility.
    pose proof (row_sum_positive data mu cov pi n Hpi) as Hs.
    apply Rmult_le_pos.
    - unfold weight. apply Rmult_le_pos.
      + apply coord_nonneg, Hpi.
      + apply Rlt_le, pdf_positive.
    - apply Rlt_le, Rinv_0_lt_compat, Hs. }
  split.
  - apply Forall_forall. intros p Hp.
    apply (In_nth _ _ 0) in Hp. destruct Hp as (k & Hk & <-).
    rewrite Hlen_pi in Hk. change (0 <= coord pi' k).
    rewrite (Hcoord k Hk), Htotal.
    apply Rmult_le_pos; [now apply Hcount | ].
    apply Rlt_le, Rinv_0_lt_compat, HN.
  - rewrite Hsum, Htotal. field. lra.
Qed.

Variable Seed : Type.
Variable rand : Seed -> nat -> matrix R.

(** The initializer returns uniform weights, which are mixing weights. *)
Lemma initialize_parameters_mixing_weights (num_components : Z) (seed : Seed)
    (pis : vector R) (mus : matrix R) (sigmas : list (matrix R)) :
  initialize_parameters rand num_components seed = Returned (pis, mus, sigmas) ->
  (1 <= num_components)%Z /\
  pis = repeat (1 / IZR num_components) (Z.to_nat num_components) /\
  mixing_weights pis.
Proof.
  unfold initialize_parameters.
  destruct (Z.eqb_spec num_components 0) as [ | Hne]; [discriminate | ].
  destruct (Z.ltb_spec num_components 0) as [ | Hge]; [discriminate | ].
  intros H. inversion H as [[Hpis Hmus Hsigmas]]. clear H Hmus Hsigmas.
  assert (HK : (1 <= num_components)%Z) by lia.
  assert (HKR : 0 < IZR num_components) by (apply IZR_lt; lia).
  split; [assumption | split; [reflexivity | ]].
  split.
  - apply Forall_forall. intros p Hp. apply repeat_spec in Hp. subst p.
    apply Rlt_le. unfold Rdiv. rewrite Rmult_1_l.
    now apply Rinv_0_lt_compat.
  - change (div (of_Z 1) (of_Z num_components)) with (1 / IZR num_components).
    rewrite sum_repeat, INR_IZR_INZ, Z2Nat.id by lia. field. lra.
Qed.

End MixingWeights.

Section MixingWeightsInLoop.

Import Spec.

Variable linspace : R -> R -> nat -> vector R.
Variable frozen_error : vector R -> matrix R -> option exn.
Variable pdf : vector R -> matrix R -> vector R -> R.
Variable scorer :
  matrix R -> matrix R -> list (matrix R) -> vector R -> result float.
Variable data : matrix R.
Variable max_iter : Z.
Variable threshold : float.

Hypothesis pdf_positive : forall mean cov x, (0 < pdf mean cov x)%R.
Hypothesis data_not_empty : data <> [].

Local Abbreviation body :=
  (loop_body (e_step frozen_error pdf) m_step scorer
      (plot_step linspace frozen_error pdf) data max_iter threshold).
Local Abbreviation reach :=
  (at_iteration (e_step frozen_error pdf) m_step scorer
      (plot_step linspace frozen_error pdf) data max_iter threshold).
Local Abbreviation ends :=
  (run_ends (e_step frozen_error pdf) m_step scorer
      (plot_step linspace frozen_error pdf) data max_iter threshold).

(** One iteration keeps the invariant, however it ends. *)
Lemma loop_body_mixing_weights (it : Z)
    (s : fit_state (vector R) (matrix R) (list (matrix R)))
    (f : flow (vector R) (matrix R) (list (matrix R))) :
  mixing_weights (st_pi s) ->
  body it s = Returned f ->
  mixing_weights (st_pi (flow_state f)).
Proof.
  intros Hs Hbody. apply loop_body_steps in Hbody.
  destruct Hbody as (r & m_c & pi & mu & cov & a & HE & _ & _ & Hpi & _).
  rewrite Hpi. unfold e_step in HE.
  exact (expectation_step_mixing_weights frozen_error pdf pdf_positive
           data (st_mu s) (st_cov s) (st_pi s) r m_c pi data_not_empty Hs HE).
Qed.

Lemma at_iteration_mixing_weights (s0 : fit_state _ _ _) (n : nat)
    (s : fit_state (vector R) (matrix R) (list (matrix R))) :
  mixing_weights (st_pi s0) -> reach s0 n s -> mixing_weights (st_pi s).
Proof.
  intros H0. induction 1 as [ | n s s' Hreach IH Hlt Hbody]; [assumption | ].
  exact (loop_body_mixing_weights (Z.of_nat n) s (Continue s') IH Hbody).
Qed.

Lemma run_ends_mixing_weights (s0 : fit_state _ _ _) (n : nat)
    (s : fit_state (vector R) (matrix R) (list (matrix R))) :
  mixing_weights (st_pi s0) -> ends s0 n s -> mixing_weights (st_pi s).
Proof.
  intros H0 Hends. destruct Hends as [s Hreach | n s s' Hreach Hlt Hbody].
  - now apply at_iteration_mixing_weights with (s0 := s0) (n := Z.to_nat max_iter).
  - apply (loop_body_mixing_weights (Z.of_nat n) s (Return s'));
      [ | assumption].
    now apply at_iteration_mixing_weights with (s0 := s0) (n := n).
Qed.

End MixingWeightsInLoop.

(** C8, amended: in exact arithmetic, with positive densities and a dataset
    that is not empty, the weights that the initializer returns are [1/K]
    each and sum to 1, and so do the weights at every loop head of the fit
    and in the state in which it ends; none is negative.  (In binary64 the
    property fails as soon as the densities of one point have all
    underflowed to zero, and the weights of the next iteration are NaN.) *)
Theorem C8_mixing_weights_sum_to_one
    (linspace : R -> R -> nat -> vector R)
    (frozen_error : vector R -> matrix R -> option exn)
    (pdf : vector R -> matrix R -> vector R -> R)
    (scorer : matrix R -> matrix R -> list (matrix R) -> vector R -> result float)
    (Seed : Type) (rand : Seed -> nat -> matrix R)
    (num_components : Z) (seed : Seed)
    (pis : vector R) (mus : matrix R) (sigmas : list (matrix R))
    (data : matrix R) (max_iter : Z) (threshold : float)
    (n : nat) (s : fit_state (vector R) (matrix R) (list (matrix R))) :
  (forall mean cov x, (0 < pdf mean cov x)%R) ->
  data <> [] ->
  initialize_parameters rand num_components seed = Returned (pis, mus, sigmas) ->
  at_iteration (e_step frozen_error pdf) m_step scorer
      (plot_step linspace frozen_error pdf) data max_iter threshold
               (initial_state pis mus sigmas) n s
  \/ run_ends (e_step frozen_error pdf) m_step scorer
      (plot_step linspace frozen_error pdf) data max_iter threshold
              (initial_state pis mus sigmas) n s ->
  pis = repeat (1 / IZR num_components)%R (Z.to_nat num_components) /\
  sum pis = 1%R /\
  sum (st_pi s) = 1%R /\
  Forall (fun p => (0 <= p)%R) (st_pi s).
Proof.
  intros Hpdf Hdata Hinit Hs.
  destruct (initialize_parameters_mixing_weights Seed rand num_components seed
              pis mus sigmas Hinit) as (_ & Hpis & Hmix).
  assert (Hgoal : Spec.mixing_weights (st_pi s)).
  { destruct Hs as [Hreach | Hends].
    - now apply (at_iteration_mixing_weights linspace frozen_error pdf scorer data
                   max_iter threshold Hpdf Hdata (initial_state pis mus sigmas) n).
    - now apply (run_ends_mixing_weights linspace frozen_error pdf scorer data
                   max_iter threshold Hpdf Hdata (initial_state pis mus sigmas) n). }
  destruct Hmix as [_ Hsum]. destruct Hgoal as [Hpos Hsum'].
  repeat split; assumption.
Qed.

Lemma C8_mixing_weights_sum_to_one_witness :
  exists pis mus sigmas s,
    initialize_parameters (F:=R) Standin.half_rand 2 tt
      = Returned (pis, mus, sigmas) /\
    at_iteration (e_step Standin.accepts_all Standin.flat_pdf) m_step
                 (Standin.constant_scorer (of_int 3))
                 (plot_step Standin.two_ticks Standin.accepts_all
                            Standin.flat_pdf)
                 Standin.two_points
                 200 (of_int 1) (initial_state pis mus sigmas) 1 s /\
    sum pis = 1%R /\
    sum (st_pi s) = 1%R.
Proof.
  set (pis := repeat (div (of_Z 1) (of_Z 2)) 2 : vector R).
  set (mus := map (map (fun u => sub (mul u (of_Z 4)) (of_Z 2)))
                  (Standin.half_rand (F:=R) tt 2)).
  set (sigmas := map (fun _ => eye 2) (range 2) : list (matrix R)).
  assert (Hbody : exists s,
    loop_body (e_step Standin.accepts_all Standin.flat_pdf) m_step
              (Standin.constant_scorer (of_int 3))
              (plot_step Standin.two_ticks Standin.accepts_all
                         Standin.flat_pdf)
              Standin.two_points
              200 (of_int 1) (Z.of_nat 0) (initial_state pis mus sigmas)
    = Returned (Continue s)).
  { eexists. reflexivity. }
  destruct Hbody as [s Hs].
  assert (Hreach :
    at_iteration (e_step Standin.accepts_all Standin.flat_pdf) m_step
                 (Standin.constant_scorer (of_int 3))
                 (plot_step Standin.two_ticks Standin.accepts_all
                            Standin.flat_pdf)
                 Standin.two_points
                 200 (of_int 1) (initial_state pis mus sigmas) 1 s).
  { apply at_next with (s := initial_state pis mus sigmas);
      [apply at_start | simpl; lia | exact Hs]. }
  exists pis, mus, sigmas, s.
  split; [reflexivity | ]. split; [exact Hreach | ].
  refine (let H := C8_mixing_weights_sum_to_one
            Standin.two_ticks Standin.accepts_all Standin.flat_pdf
            (Standin.constant_scorer (of_int 3)) unit Standin.half_rand 2 tt
            pis mus sigmas Standin.two_points 200 (of_int 1) 1 s _ _ eq_refl
            (or_introl Hreach) in
          conj (proj1 (proj2 H)) (proj1 (proj2 (proj2 H)))).
  - intros mean cov x. unfold Standin.flat_pdf. simpl. lra.
  - discriminate.
Defined.

(** * The M-step and the mixing weights *)

Section ObjectFacts.

Context {F : Type} {FA : Arith F}.

Variable frozen_error : vector F -> matrix F -> option exn.
Variable pdf : vector F -> matrix F -> vector F -> F.

Lemma nth_new {A : Type} (xs : list A) (a d : A) :
  nth (length xs) (xs ++ [a]) d = a.
Proof. now rewrite nth_middle. Qed.

Lemma nth_old {A : Type} (xs ys : list A) (l : nat) (d : A) :
  (l < length xs)%nat -> nth l (xs ++ ys) d = nth l xs d.
Proof. intros Hl. now apply app_nth1. Qed.

(** Writing into the array that was allocated last. *)
Lemma write_last {A : Type} (xs : list A) (a b : A) :
  firstn (length xs) (xs ++ [a]) ++ b :: skipn (S (length xs)) (xs ++ [a])
  = xs ++ [b].
Proof.
  rewrite firstn_app, Nat.sub_diag, firstn_all, firstn_O, app_nil_r.
  rewrite skipn_all2; [reflexivity | rewrite length_app; simpl; lia].
Qed.

(** The E-step on references computes what [expectation_step] computes on the
    values, in three new arrays, and leaves the arrays that exist as they
    are. *)
Lemma expectation_step_at_returned (data mu cov pi : nat) (h h1 : store)
    (r m_c pi' : nat) :
  expectation_step_at frozen_error pdf data mu cov pi h
  = Returned (r, m_c, pi', h1) ->
  exists rv mv pv,
    expectation_step frozen_error pdf (matrix_at h data) (matrix_at h mu)
                     (stack_at h cov) (vector_at h pi)
    = Returned (rv, mv, pv) /\
    r = length (matrices h) /\
    m_c = length (vectors h) /\
    pi' = S (length (vectors h)) /\
    vectors h1 = vectors h ++ [mv; pv] /\
    matrices h1 = matrices h ++ [rv] /\
    stacks h1 = stacks h.
Proof.
  unfold expectation_step_at, expectation_step.
  destruct (comprehension _ _) as [w | e]; cbv beta iota delta [bind];
    [ | discriminate].
  destruct ((length (vector_at h pi) =? 0)%nat
            || (length (matrix_at h data) =? 1)%nat); [discriminate | ].
  unfold new_matrix, new_vector, write_matrix, matrix_at, vector_at.
  cbn [vectors matrices stacks fst snd].
  rewrite !write_last, !nth_new.
  intros H. inversion H; subst; clear H.
  do 3 eexists. split; [reflexivity | ].
  cbn [vectors matrices stacks]. rewrite length_app, <- app_assoc.
  repeat split; simpl; lia || reflexivity.
Qed.

(** The M-step on references, for a dataset and responsibilities that
    exist. *)
Lemma maximization_step_at_returned (data r m_c : nat) (h : store) :
  (data < length (matrices h))%nat -> (r < length (matrices h))%nat ->
  maximization_step_at data r m_c h
  = (length (matrices h), length (stacks h),
     {| vectors := vectors h;
        matrices := matrices h
                    ++ [fst (maximization_step (matrix_at h data)
                               (matrix_at h r) (vector_at h m_c))];
        stacks := stacks h
                  ++ [snd (maximization_step (matrix_at h data)
                             (matrix_at h r) (vector_at h m_c))] |}).
Proof.
  intros Hdata Hr.
  unfold maximization_step_at, new_matrix, new_stack, matrix_at, vector_at.
  cbn [vectors matrices stacks]. now rewrite !nth_old by assumption.
Qed.

End ObjectFacts.

(** C10: the M-step and the mixing weights, with the arrays as objects.  In
    an iteration, the M-step is handed the dataset, the responsibilities
    and the effective counts.  It writes into no array that exists: the
    store of vectors, which holds the weights that the E-step returned and
    those it was given, is the same after it as before, and so is every
    matrix and stack of matrices that existed.  What it returns are two new
    arrays, whose values are those of [maximization_step] on the values of
    its three arguments.  The weights change in the E-step only, which
    binds the name to a new vector and leaves the one it was given as it
    is; and the iteration of the loop leaves, as its weights, means and
    covariances, the values of these arrays. *)
Theorem C10_m_step_leaves_mixing_weights
    (F : Type) (FA : Arith F)
    (linspace : F -> F -> nat -> vector F)
    (frozen_error : vector F -> matrix F -> option exn)
    (pdf : vector F -> matrix F -> vector F -> F)
    (scorer : matrix F -> matrix F -> list (matrix F) ->
              vector F -> result float)
    (max_iter : Z) (threshold : float) (it : Z)
    (h h1 h2 : store) (data mu cov pi r m_c pi' mu' cov' : nat) :
  (data < length (matrices h))%nat ->
  expectation_step_at frozen_error pdf data mu cov pi h
  = Returned (r, m_c, pi', h1) ->
  maximization_step_at data r m_c h1 = (mu', cov', h2) ->
  (vectors h2 = vectors h1 /\
   (forall l, (l < length (matrices h1))%nat ->
      matrix_at h2 l = matrix_at h1 l) /\
   (forall l, (l < length (stacks h1))%nat -> stack_at h2 l = stack_at h1 l))
  /\
  (mu' = length (matrices h1) /\ cov' = length (stacks h1) /\
   (matrix_at h2 mu', stack_at h2 cov')
   = maximization_step (matrix_at h1 data) (matrix_at h1 r)
                       (vector_at h1 m_c))
  /\
  ((length (vectors h) <= pi')%nat /\
   (forall l, (l < length (vectors h))%nat ->
      vector_at h1 l = vector_at h l) /\
   expectation_step frozen_error pdf (matrix_at h data) (matrix_at h mu)
                    (stack_at h cov) (vector_at h pi)
   = Returned (matrix_at h1 r, vector_at h1 m_c, vector_at h1 pi'))
  /\
  (forall s f,
     st_pi s = vector_at h pi -> st_mu s = matrix_at h mu ->
     st_cov s = stack_at h cov ->
     loop_body (e_step frozen_error pdf) m_step scorer
               (plot_step linspace frozen_error pdf) (matrix_at h data)
               max_iter threshold it s = Returned f ->
     st_pi (flow_state f) = vector_at h2 pi' /\
     st_mu (flow_state f) = matrix_at h2 mu' /\
     st_cov (flow_state f) = stack_at h2 cov').
Proof.
  intros Hdata HE HM.
  apply expectation_step_at_returned in HE.
  destruct HE as (rv & mv & pv & HE & -> & -> & -> & Hv & Hm & Hs).
  rewrite maximization_step_at_returned in HM
    by (rewrite Hm, length_app; simpl; lia).
  injection HM as Hmu Hcov Hh2.
  assert (Hdata1 : matrix_at h1 data = matrix_at h data).
  { unfold matrix_at. rewrite Hm. now apply nth_old. }
  assert (Hr1 : matrix_at h1 (length (matrices h)) = rv).
  { unfold matrix_at. rewrite Hm. apply nth_new. }
  assert (Hm1 : vector_at h1 (length (vectors h)) = mv).
  { unfold vector_at. rewrite Hv.
    change [mv; pv] with ([mv] ++ [pv]). rewrite app_assoc.
    rewrite nth_old by (rewrite length_app; simpl; lia). apply nth_new. }
  assert (Hp1 : vector_at h1 (S (length (vectors h))) = pv).
  { unfold vector_at. rewrite Hv.
    change [mv; pv] with ([mv] ++ [pv]). rewrite app_assoc.
    replace (S (length (vectors h))) with (length (vectors h ++ [mv]))
      by (rewrite length_app; simpl; lia).
    apply nth_new. }
  assert (Hframe_v : vectors h2 = vectors h1) by (now rewrite <- Hh2).
  assert (Hframe_m : forall l, (l < length (matrices h1))%nat ->
                     matrix_at h2 l = matrix_at h1 l).
  { intros l Hl. rewrite <- Hh2. unfold matrix_at. cbn [matrices].
    now apply nth_old. }
  assert (Hframe_s : forall l, (l < length (stacks h1))%nat ->
                     stack_at h2 l = stack_at h1 l).
  { intros l Hl. rewrite <- Hh2. unfold stack_at. cbn [stacks].
    now apply nth_old. }
  assert (Hnew : (matrix_at h2 mu', stack_at h2 cov')
                 = maximization_step (matrix_at h1 data)
                     (matrix_at h1 (length (matrices h)))
                     (vector_at h1 (length (vectors h)))).
  { rewrite <- Hh2, <- Hmu, <- Hcov. unfold matrix_at at 1, stack_at at 1.
    cbn [matrices stacks]. rewrite !nth_new.
    symmetry. apply surjective_pairing. }
  split; [repeat split; assumption | ].
  split; [repeat split; (symmetry; assumption) || assumption | ].
  split.
  { split; [lia | split].
    - intros l Hl. unfold vector_at. rewrite Hv. now apply nth_old.
    - now rewrite Hr1, Hm1, Hp1. }
  intros s f Hpi Hmu_s Hcov_s Hbody.
  apply loop_body_steps in Hbody.
  destruct Hbody as (r0 & m0 & p0 & mu0 & cov0 & a & HE0 & HM0 & _ & Hfp & Hfm
                     & Hfc & _).
  unfold e_step in HE0. rewrite Hpi, Hmu_s, Hcov_s, HE in HE0.
  injection HE0 as <- <- <-.
  assert (HM1 : maximization_step (matrix_at h data) rv mv = (mu0, cov0))
    by (unfold m_step in HM0; congruence).
  rewrite Hr1, Hm1, Hdata1, HM1 in Hnew. injection Hnew as Hn1 Hn2.
  rewrite Hfp, Hfm, Hfc, Hn1, Hn2. split; [ | split; reflexivity].
  unfold vector_at. rewrite Hframe_v. exact (eq_sym Hp1).
Qed.

Lemma C10_m_step_leaves_mixing_weights_witness :
  let h := {| vectors := [Standin.equal_weights];
              matrices := [Standin.two_points; Standin.two_means];
              stacks := [Standin.unit_covariances] |} in
  exists h1 h2,
    expectation_step_at (F:=float) Standin.accepts_all Standin.flat_pdf
                        0 1 0 0 h = Returned (2%nat, 1%nat, 2%nat, h1) /\
    maximization_step_at 0 2 1 h1 = (3%nat, 1%nat, h2) /\
    vectors h2 = vectors h1 /\
    vector_at h1 0 = Standin.equal_weights.
Proof.
  intros h.
  assert (HE : exists h1,
    expectation_step_at (F:=float) Standin.accepts_all Standin.flat_pdf
                        0 1 0 0 h = Returned (2%nat, 1%nat, 2%nat, h1)).
  { eexists. vm_compute. reflexivity. }
  destruct HE as [h1 HE].
  assert (HM : exists h2, maximization_step_at 0 2 1 h1 = (3%nat, 1%nat, h2)).
  { pose proof HE as H. vm_compute in H. inversion H; subst h1; clear H.
    eexists. vm_compute. reflexivity. }
  destruct HM as [h2 HM].
  exists h1, h2. split; [exact HE | split; [exact HM | ]].
  pose proof (@C10_m_step_leaves_mixing_weights
                float Arith_float Standin.two_ticks Standin.accepts_all
                Standin.flat_pdf (Standin.constant_scorer (of_int 3))
                200 (of_int 1) 0 h h1 h2 0 1 0 0 2 1 2 3 1) as H.
  destruct H as ((Hv & _) & _ & (_ & Hold & _) & _);
    [simpl; lia | exact HE | exact HM | ].
  split; [exact Hv | ].
  exact (Hold 0%nat ltac:(simpl; lia)).
Defined.

(** * Invalid configurations *)

(** One iteration of the fit in binary64, with a threshold of zero. *)
Example fit_with_zero_threshold :
  fit (F:=float) Standin.two_ticks Standin.accepts_all Standin.flat_pdf
      (Standin.constant_scorer (of_int 3)) Standin.half_rand
      2 tt Standin.two_points 1 (of_int 0)
  = Returned [of_int 3].
Proof. reflexivity. Qed.

(** No iteration, with a budget of zero. *)
Example fit_with_zero_budget :
  fit (F:=float) Standin.two_ticks Standin.accepts_all Standin.flat_pdf
      (Standin.constant_scorer (of_int 3)) Standin.half_rand
      2 tt Standin.two_points 0 (of_int 1)
  = Returned [].
Proof. reflexivity. Qed.

(** The initializer on a component count of zero and on a negative one. *)
Example initialize_zero_components :
  initialize_parameters (F:=float) Standin.half_rand 0 tt
  = Raised ZeroDivisionError
  /\ initialize_parameters (F:=float) Standin.half_rand (-3) tt
     = Raised ValueError.
Proof. split; reflexivity. Qed.

(** Runs that raise, with a threshold of zero: on a single point the
    exception is that of the E-step; on points, means and covariances of
    three coordinates it is that of the plot, whose mesh is of the plane,
    after the three steps have returned. *)
Example fit_that_raises :
  fit (F:=float) Standin.two_ticks Standin.accepts_all Standin.flat_pdf
      (Standin.constant_scorer (of_int 3)) Standin.half_rand
      2 tt [[of_int 0; of_int 0]] 2 (of_int 0)
  = Raised AxisError
  /\ em_run (F:=float) Standin.two_ticks Standin.accepts_all Standin.flat_pdf
       (Standin.constant_scorer (of_int 3))
       [[of_int 0; of_int 0; of_int 0]; [of_int 1; of_int 1; of_int 1]] 2
       Standin.equal_weights
       [[of_int 0; of_int 0; of_int 0]; [of_int 1; of_int 1; of_int 1]]
       [eye 3; eye 3] (of_int 0)
     = Raised ValueError.
Proof. split; reflexivity. Qed.

(** C3, as stated, fails: whatever the library computes, a fit with a budget
    of zero and a threshold of zero is not rejected; it returns the empty
    list. *)
Lemma C3_invalid_budget_and_threshold_are_accepted :
  ~ exists (linspace : float -> float -> nat -> vector float)
           (frozen_error : vector float -> matrix float -> option exn)
           (pdf : vector float -> matrix float -> vector float -> float)
           (log : float -> float) (rand : unit -> nat -> matrix float),
      rejects_invalid_configuration linspace frozen_error pdf log rand.
Proof.
  intros (linspace & frozen_error & pdf & log & rand & H).
  destruct (H 2%Z tt Standin.two_points 0%Z (of_int 0)
              (or_intror (or_intror eq_refl))) as [e He].
  discriminate He.
Qed.

(** C3, amended: the initializer raises for a component count below 1;
    [run_em_algorithm] checks neither the budget nor the threshold: with a
    budget below 1 it returns the empty list without running an iteration,
    and, whatever the budget and the threshold, it raises nothing of its
    own: an exception of the run is the exception of a call (the E-step,
    the M-step, the scorer, the plot of a scheduled iteration) in an
    iteration that the run got to within the budget. *)
Theorem C3_only_component_count_is_checked
    (F : Type) (FA : Arith F) (Seed : Type) (rand : Seed -> nat -> matrix F)
    (num_components : Z) (seed : Seed)
    (Data Pi Mu Cov Resp Counts Shown : Type)
    (expectation : Data -> Mu -> Cov -> Pi -> result (Resp * Counts * Pi))
    (maximization : Data -> Resp -> Counts -> result (Mu * Cov))
    (scorer : Data -> Mu -> Cov -> Pi -> result float)
    (plot : Data -> Mu -> Cov -> Pi -> result Shown)
    (data : Data) (max_iter : Z) (threshold : float)
    (pi : Pi) (mu : Mu) (cov : Cov) :
  ((num_components < 1)%Z ->
     initialize_parameters rand num_components seed
     = Raised (if (num_components =? 0)%Z then ZeroDivisionError
               else ValueError)) /\
  ((max_iter < 1)%Z ->
     run_em_algorithm expectation maximization scorer plot data max_iter
                      threshold pi mu cov = Returned []) /\
  (forall e,
     run_em_algorithm expectation maximization scorer plot data max_iter
                      threshold pi mu cov = Raised e ->
     exists n s,
       at_iteration expectation maximization scorer plot data max_iter
                    threshold (initial_state pi mu cov) n s /\
       (Z.of_nat n < max_iter)%Z /\
       a_call_raises expectation maximization scorer plot data max_iter
                     (Z.of_nat n) s e).
Proof.
  split; [ | split].
  - intros HK. unfold initialize_parameters.
    destruct (Z.eqb_spec num_components 0) as [ | Hne]; [reflexivity | ].
    destruct (Z.ltb_spec num_components 0) as [ | Hge]; [reflexivity | lia].
  - intros Hmax. unfold run_em_algorithm, run_em_loop, range.
    replace (Z.to_nat max_iter) with 0%nat by lia. reflexivity.
  - intros e Hrun. unfold run_em_algorithm, run_em_loop, range in Hrun.
    destruct (for_loop expectation maximization scorer plot data max_iter
                threshold (map Z.of_nat (seq 0 (Z.to_nat max_iter)))
                (initial_state pi mu cov)) as [f | e'] eqn:Hloop;
      [discriminate | ].
    injection Hrun as ->.
    apply (for_loop_raises (s0 := initial_state pi mu cov)) in Hloop;
      [ | constructor | lia].
    destruct Hloop as (j & sj & Hreach & Hlt & Hbody).
    exists j, sj. split; [assumption | split; [assumption | ]].
    apply loop_body_raises in Hbody. exact Hbody.
Qed.

Lemma C3_only_component_count_is_checked_witness :
  initialize_parameters (F:=float) Standin.half_rand 0 tt
  = Raised ZeroDivisionError /\
  Scripted.run [of_int 7] 0 0 (of_int 0) = Returned [] /\
  exists n s,
    at_iteration (e_step (F:=float) Standin.accepts_all Standin.flat_pdf)
                 m_step (Standin.constant_scorer (of_int 3))
                 (plot_step Standin.two_ticks Standin.accepts_all
                            Standin.flat_pdf)
                 [[of_int 0; of_int 0]] 2 (of_int 0)
                 (initial_state Standin.equal_weights Standin.two_means
                                Standin.unit_covariances) n s /\
    (Z.of_nat n < 2)%Z /\
    a_call_raises (e_step (F:=float) Standin.accepts_all Standin.flat_pdf)
                  m_step (Standin.constant_scorer (of_int 3))
                  (plot_step Standin.two_ticks Standin.accepts_all
                             Standin.flat_pdf)
                  [[of_int 0; of_int 0]] 2 (Z.of_nat n) s AxisError.
Proof.
  split; [ | split].
  - apply (@C3_only_component_count_is_checked
             float Arith_float unit Standin.half_rand 0 tt
             (list float) nat nat unit nat unit unit
             Scripted.expectation Scripted.maximization Scripted.scorer
           Scripted.plot
             [of_int 7] 0 (of_int 0) 0%nat 0%nat tt).
    lia.
  - apply (@C3_only_component_count_is_checked
             float Arith_float unit Standin.half_rand 0 tt
             (list float) nat nat unit nat unit unit
             Scripted.expectation Scripted.maximization Scripted.scorer
           Scripted.plot
             [of_int 7] 0 (of_int 0) 0%nat 0%nat tt).
    lia.
  - apply (@C3_only_component_count_is_checked
             float Arith_float unit Standin.half_rand 0 tt
             _ _ _ _ _ _ _
             (e_step (F:=float) Standin.accepts_all Standin.flat_pdf)
             m_step (Standin.constant_scorer (of_int 3))
             (plot_step Standin.two_ticks Standin.accepts_all
                        Standin.flat_pdf)
             [[of_int 0; of_int 0]] 2 (of_int 0)
             Standin.equal_weights Standin.two_means
             Standin.unit_covariances).
    reflexivity.
Defined.

(** * More on the loop: length, output, exceptions, stalls *)

Section LoopBehaviour.

Variables Data Pi Mu Cov Resp Counts Shown : Type.
Variable expectation : Data -> Mu -> Cov -> Pi -> result (Resp * Counts * Pi).
Variable maximization : Data -> Resp -> Counts -> result (Mu * Cov).
Variable scorer : Data -> Mu -> Cov -> Pi -> result float.
Variable plot : Data -> Mu -> Cov -> Pi -> result Shown.
Variable data : Data.
Variable max_iter : Z.
Variable threshold : float.

Local Abbreviation body :=
  (loop_body expectation maximization scorer plot data max_iter threshold).
Local Abbreviation reach :=
  (at_iteration expectation maximization scorer plot data max_iter threshold).
Local Abbreviation loop :=
  (for_loop expectation maximization scorer plot data max_iter threshold).
Local Abbreviation run :=
  (run_em_algorithm expectation maximization scorer plot data max_iter threshold).
Local Abbreviation run_loop :=
  (run_em_loop expectation maximization scorer plot data max_iter threshold).

(** What an iteration that does not raise has written. *)
Lemma loop_body_output (it : Z) (s : fit_state Pi Mu Cov) (f : flow Pi Mu Cov) :
  body it s = Returned f ->
  exists a pi mu cov,
    stdout (flow_state f)
    = (if scheduled max_iter it then stdout s ++ [Report it a pi mu cov]
       else stdout s)
      ++ match f with
         | Return _ => [TerminatingEarly Pi Mu Cov threshold]
         | Continue _ => []
         end.
Proof.
  unfold loop_body, scheduled. intros H.
  destruct (expectation data (st_mu s) (st_cov s) (st_pi s))
    as [[[r m_c] pi] | e]; simpl in H; [ | discriminate].
  destruct (maximization data r m_c) as [[mu cov] | e]; simpl in H;
    [ | discriminate].
  destruct (scorer data mu cov pi) as [a | e]; simpl in H; [ | discriminate].
  exists a, pi, mu, cov.
  destruct ((it mod 10 =? 0)%Z || (it =? max_iter - 1)%Z);
    [destruct (plot data mu cov pi) as [shown | e]; simpl in H;
       [ | discriminate] | simpl in H];
    (destruct (flt (fsub (previous_aic s) a) threshold);
      [destruct (3 <=? no_improve_count s + 1)%Z | ];
      inversion H; subst f; simpl; rewrite ?app_nil_r; reflexivity).
Qed.

(** The loop run from the start equals the loop run from a head that it
    reaches. *)
Lemma for_loop_from_head s0 (n : nat) (s : fit_state Pi Mu Cov) :
  reach s0 n s ->
  forall m, loop (map Z.of_nat (seq 0 (n + m))) s0
            = loop (map Z.of_nat (seq n m)) s.
Proof.
  induction 1 as [ | n s s' Hreach IH Hlt Hbody]; intros m; [reflexivity | ].
  replace (S n + m)%nat with (n + S m)%nat by lia.
  rewrite IH. simpl. rewrite Hbody. reflexivity.
Qed.

Lemma reach_within_budget s0 (n : nat) (s : fit_state Pi Mu Cov) :
  reach s0 n s -> (Z.of_nat n <= Z.max 0 max_iter)%Z.
Proof. induction 1; lia. Qed.

Lemma run_ends_length pi mu cov (n : nat) (s : fit_state Pi Mu Cov) :
  run_ends expectation maximization scorer plot data max_iter threshold
           (initial_state pi mu cov) n s ->
  length (aic_list s) = n.
Proof.
  intros Hends. inversion Hends as [s1 Hreach | j sj s1 Hreach Hlt Hbody]; subst.
  - apply (head_invariant_holds Hreach).
  - apply head_invariant_holds in Hreach. destruct Hreach as [Hlen _].
    apply loop_body_steps in Hbody.
    destruct Hbody as (r & m_c & pi' & mu' & cov' & a & _ & _ & _ & _ & _ & _
                       & Hl & _).
    simpl in Hl. rewrite Hl, length_app, Hlen. simpl. lia.
Qed.

(** X1: the scores of a run: as many as the budget when it is used up, at most
    as many when the early stop fires. *)
Theorem trajectory_length pi mu cov (f : flow Pi Mu Cov) :
  run_loop pi mu cov = Returned f ->
  run pi mu cov = Returned (aic_list (flow_state f)) /\
  match f with
  | Continue s => length (aic_list s) = Z.to_nat max_iter
  | Return s => (length (aic_list s) <= Z.to_nat max_iter)%nat
  end.
Proof.
  intros Hloop. split.
  { unfold run_em_algorithm. rewrite Hloop. now destruct f. }
  pose proof Hloop as Hends. apply run_em_loop_ends in Hends.
  destruct Hends as (n & Hends & Hn).
  unfold run_em_loop, range in Hloop.
  apply for_loop_reaches with (s0 := initial_state pi mu cov) in Hloop;
    [ | constructor | lia].
  destruct Hloop as [(s' & -> & Hreach) | (j & sj & s' & -> & _)].
  - apply (head_invariant_holds Hreach).
  - simpl in Hends. apply (run_ends_length pi mu cov) in Hends. lia.
Qed.

(** What has been written at a loop head: the reports of the scheduled
    iterations among those done. *)
Lemma head_output pi mu cov (n : nat) (s : fit_state Pi Mu Cov) :
  reach (initial_state pi mu cov) n s ->
  map report_iteration (stdout s)
  = map Some (filter (scheduled max_iter) (map Z.of_nat (seq 0 n))).
Proof.
  induction 1 as [ | n s s' Hreach IH Hlt Hbody]; [reflexivity | ].
  apply loop_body_output in Hbody. destruct Hbody as (a & p & m & c & Hout).
  simpl in Hout. rewrite app_nil_r in Hout. rewrite Hout.
  rewrite seq_S, map_app, filter_app, map_app. simpl.
  destruct (scheduled max_iter (Z.of_nat n)).
  - rewrite map_app, IH. reflexivity.
  - rewrite IH, app_nil_r. reflexivity.
Qed.

(** X2: the output of a run: the reports of the scheduled iterations (every
    tenth and the last of the budget) among those executed, in order, then
    one closing message that tells how the run ended. *)
Theorem run_output pi mu cov (f : flow Pi Mu Cov) :
  run_loop pi mu cov = Returned f ->
  exists out,
    stdout (final_state max_iter f)
    = out ++ [closing_message max_iter threshold f] /\
    map report_iteration out
    = map Some (filter (scheduled max_iter)
                       (map Z.of_nat (seq 0 (length (aic_list (flow_state f)))))).
Proof.
  intros Hloop. unfold run_em_loop, range in Hloop.
  apply for_loop_reaches with (s0 := initial_state pi mu cov) in Hloop;
    [ | constructor | lia].
  destruct Hloop as [(s' & -> & Hreach)
                    | (j & sj & s' & -> & Hreach & Hlt & Hbody)].
  - exists (stdout s'). split; [reflexivity | ].
    simpl. rewrite (proj1 (head_invariant_holds Hreach)).
    now apply (head_output pi mu cov).
  - pose proof (head_output pi mu cov j sj Hreach) as Hhead.
    pose proof (proj1 (head_invariant_holds Hreach)) as Hlen.
    pose proof Hbody as Hsteps. apply loop_body_steps in Hsteps.
    destruct Hsteps as (r & m_c & pi' & mu' & cov' & a & _ & _ & _ & _ & _ & _
                        & Hl & _).
    apply loop_body_output in Hbody. destruct Hbody as (a' & p & m & c & Hout).
    simpl in *. rewrite Hout. eexists. split; [reflexivity | ].
    rewrite Hl, length_app, Hlen. simpl.
    replace (j + 1)%nat with (S j) by lia.
    rewrite seq_S, map_app, filter_app, map_app. simpl.
    destruct (scheduled max_iter (Z.of_nat j)).
    + rewrite map_app, Hhead. reflexivity.
    + rewrite Hhead, app_nil_r. reflexivity.
Qed.

(** X3: an exception of a call (a step, or the scheduled plot) in an
    iteration that the run gets to is the outcome of the run: the scores
    gathered before it are not returned. *)
Theorem exception_ends_the_run pi mu cov (n : nat) (s : fit_state Pi Mu Cov)
    (e : exn) :
  reach (initial_state pi mu cov) n s ->
  (Z.of_nat n < max_iter)%Z ->
  body (Z.of_nat n) s = Raised e ->
  run pi mu cov = Raised e.
Proof.
  intros Hreach Hlt Hbody. unfold run_em_algorithm, run_em_loop, range.
  replace (Z.to_nat max_iter) with (n + S (Z.to_nat max_iter - S n))%nat by lia.
  rewrite (for_loop_from_head _ n s Hreach). simpl. rewrite Hbody. reflexivity.
Qed.

End LoopBehaviour.

(** * Scores that never stop the loop, and scores that stall *)

Lemma fsub_diag (c : float) : finite c = true -> fsub c c = S754_zero false.
Proof.
  destruct c as [[ | ] | | | s m e]; simpl; intros H;
    try discriminate; try reflexivity.
  unfold fsub, SFsub. rewrite Z.sub_diag. reflexivity.
Qed.

(** A difference that involves NaN, or that is [inf - inf], is NaN and is
    below no threshold. *)
Lemma unordered_delta_not_below (p c threshold : float) :
  p = nan \/ p = inf -> c = nan \/ c = inf ->
  flt (fsub p c) threshold = false.
Proof.
  intros [-> | ->] [-> | ->];
    destruct threshold as [st | [ | ] | | st mt et]; reflexivity.
Qed.

Section Stalls.

Variables Data Pi Mu Cov Resp Counts Shown : Type.
Variable expectation : Data -> Mu -> Cov -> Pi -> result (Resp * Counts * Pi).
Variable maximization : Data -> Resp -> Counts -> result (Mu * Cov).
Variable scorer : Data -> Mu -> Cov -> Pi -> result float.
Variable plot : Data -> Mu -> Cov -> Pi -> result Shown.
Variable data : Data.
Variable max_iter : Z.
Variable threshold : float.

Local Abbreviation body :=
  (loop_body expectation maximization scorer plot data max_iter threshold).
Local Abbreviation reach :=
  (at_iteration expectation maximization scorer plot data max_iter threshold).
Local Abbreviation loop :=
  (for_loop expectation maximization scorer plot data max_iter threshold).
Local Abbreviation run :=
  (run_em_algorithm expectation maximization scorer plot data max_iter threshold).
Local Abbreviation run_loop :=
  (run_em_loop expectation maximization scorer plot data max_iter threshold).

Lemma last_cons {A : Type} (a d : A) (l : list A) :
  last (a :: l) d = last l a.
Proof.
  revert a d. induction l as [ | b l IH]; intros a d; [reflexivity | ].
  change (last (a :: b :: l) d) with (last (b :: l) d).
  now rewrite !IH.
Qed.

Lemma patience_previous (l : list float) (st : float * Z) :
  fst (fold_left (patience_step threshold) l st) = last l (fst st).
Proof.
  revert st. induction l as [ | a l IH]; intros st; [reflexivity | ].
  cbn [fold_left]. rewrite IH, last_cons.
  unfold patience_step. now destruct (flt _ _).
Qed.

(** At a loop head, the score compared with and the counter are those of
    the patience rule replayed on the scores so far. *)
Lemma head_replay pi mu cov (n : nat) (s : fit_state Pi Mu Cov) :
  reach (initial_state pi mu cov) n s ->
  (previous_aic s, no_improve_count s)
  = fold_left (patience_step threshold) (aic_list s) (inf, 0%Z).
Proof.
  induction 1 as [ | n s s' Hreach IH Hlt Hbody]; [reflexivity | ].
  apply loop_body_steps in Hbody.
  destruct Hbody as (r & m_c & pi' & mu' & cov' & a & _ & _ & _ & _ & _ & _
                     & Hl & Hcase).
  cbn [flow_state] in Hl, Hcase. rewrite Hl, fold_left_app, <- IH.
  cbn [fold_left]. unfold patience_step. cbn [fst snd].
  destruct (flt (fsub (previous_aic s) a) threshold).
  - destruct Hcase as [Hc Hcase].
    destruct (3 <=? no_improve_count s + 1)%Z.
    + destruct Hcase as [s'' Habs]. discriminate.
    + destruct Hcase as (s'' & Heq & Hp). injection Heq as <-.
      now rewrite Hp, Hc.
  - destruct Hcase as (s'' & Heq & Hc & Hp). injection Heq as <-.
    now rewrite Hp, Hc.
Qed.

Lemma head_previous pi mu cov (n : nat) (s : fit_state Pi Mu Cov) :
  reach (initial_state pi mu cov) n s ->
  previous_aic s = last (aic_list s) inf.
Proof.
  intros Hreach. apply head_replay in Hreach.
  change (previous_aic s) with (fst (previous_aic s, no_improve_count s)).
  rewrite Hreach. apply patience_previous.
Qed.

(** The heads before a head, and their scores. *)
Lemma reach_prefix pi mu cov (n : nat) (s : fit_state Pi Mu Cov) :
  reach (initial_state pi mu cov) n s ->
  forall k, (k <= n)%nat ->
    exists sk, reach (initial_state pi mu cov) k sk /\
               aic_list sk = firstn k (aic_list s).
Proof.
  induction 1 as [ | n s s' Hreach IH Hlt Hbody]; intros k Hk.
  - exists (initial_state pi mu cov). split; [ | now destruct k].
    replace k with 0%nat by lia. constructor.
  - pose proof (proj1 (head_invariant_holds Hreach)) as Hlen.
    pose proof Hbody as Hsteps. apply loop_body_steps in Hsteps.
    destruct Hsteps as (r & m_c & pi' & mu' & cov' & a & _ & _ & _ & _ & _ & _
                        & Hl & _).
    cbn [flow_state] in Hl.
    destruct (Nat.eq_dec k (S n)) as [-> | Hne].
    + exists s'. split.
      * now apply at_next with (s := s).
      * rewrite firstn_all2; [reflexivity | ].
        rewrite Hl, length_app, Hlen. simpl. lia.
    + destruct (IH k ltac:(lia)) as (sk & Hsk & Hprefix).
      exists sk. split; [assumption | ].
      rewrite Hl, firstn_app, Hprefix.
      replace (k - length (aic_list s))%nat with 0%nat by lia.
      now rewrite firstn_O, app_nil_r.
Qed.

(** How a run that returns has ended: at the head after the last iteration
    of the budget, or in an iteration that returned early. *)
Lemma run_loop_cases pi mu cov (f : flow Pi Mu Cov) :
  run_loop pi mu cov = Returned f ->
  (exists s, f = Continue s /\
             reach (initial_state pi mu cov) (Z.to_nat max_iter) s) \/
  (exists j sj s a,
     f = Return s /\ reach (initial_state pi mu cov) j sj /\
     (Z.of_nat j < max_iter)%Z /\
     aic_list s = aic_list sj ++ [a] /\
     flt (fsub (previous_aic sj) a) threshold = true /\
     (3 <= no_improve_count sj + 1)%Z).
Proof.
  intros Hloop. unfold run_em_loop, range in Hloop.
  apply for_loop_reaches with (s0 := initial_state pi mu cov) in Hloop;
    [ | constructor | lia].
  destruct Hloop as [(s' & -> & Hreach)
                    | (j & sj & s' & -> & Hreach & Hlt & Hbody)].
  - left. exists s'. split; [reflexivity | exact Hreach].
  - right. apply loop_body_steps in Hbody.
    destruct Hbody as (r & m_c & pi' & mu' & cov' & a & _ & _ & _ & _ & _ & _
                       & Hl & Hcase).
    exists j, sj, s', a. cbn [flow_state] in Hl.
    split; [reflexivity | split; [assumption | split; [assumption | ]]].
    split; [assumption | ].
    destruct (flt (fsub (previous_aic sj) a) threshold).
    + destruct Hcase as [_ Hcase].
      destruct (Z.leb_spec 3 (no_improve_count sj + 1)) as [Hge | Hsmall].
      * split; [reflexivity | assumption].
      * destruct Hcase as (s'' & Habs & _). discriminate.
    + destruct Hcase as (s'' & Habs & _). discriminate.
Qed.

Lemma run_of_loop pi mu cov (f : flow Pi Mu Cov) :
  run_loop pi mu cov = Returned f ->
  run pi mu cov = Returned (aic_list (flow_state f)).
Proof.
  intros Hloop. unfold run_em_algorithm. rewrite Hloop. now destruct f.
Qed.

(** X4: a run that returns scores that are all NaN or [+inf] (a likelihood
    of zero, a parameter set gone to NaN) has not stopped early: no
    difference of such scores is below a threshold, so the run has used up
    its budget. *)
Theorem unordered_scores_exhaust_the_budget pi mu cov (f : flow Pi Mu Cov) :
  run_loop pi mu cov = Returned f ->
  Forall (fun a => a = nan \/ a = inf) (aic_list (flow_state f)) ->
  (exists s, f = Continue s) /\
  length (aic_list (flow_state f)) = Z.to_nat max_iter /\
  run pi mu cov = Returned (aic_list (flow_state f)).
Proof.
  intros Hloop Hscores. pose proof (run_of_loop _ _ _ _ Hloop) as Hrun.
  destruct (run_loop_cases _ _ _ _ Hloop)
    as [(s & -> & Hreach) | (j & sj & s & a & -> & Hreach & _ & Hl & Hdelta & _)].
  - split; [eauto | split; [ | assumption]].
    apply (head_invariant_holds Hreach).
  - exfalso. cbn [flow_state] in Hscores. rewrite Hl in Hscores.
    apply Forall_app in Hscores. destruct Hscores as [Hbefore Ha].
    inversion Ha as [ | a' l' Ha' _]; subst.
    rewrite (head_previous _ _ _ _ _ Hreach) in Hdelta.
    rewrite unordered_delta_not_below in Hdelta; [discriminate | | assumption].
    destruct (aic_list sj) as [ | b l] eqn:Hlist using rev_ind;
      [right; reflexivity | ].
    rewrite last_last. apply Forall_app in Hbefore.
    destruct Hbefore as [_ Hb]. now inversion Hb.
Qed.

(** X5: a run that returns scores that are all the same finite number, with
    a threshold that zero is not below (zero, a negative number, NaN), has
    not stopped early: it has used up its budget. *)
Theorem plateau_with_threshold_not_above_zero pi mu cov (c : float)
    (f : flow Pi Mu Cov) :
  finite c = true ->
  flt (S754_zero false) threshold = false ->
  run_loop pi mu cov = Returned f ->
  Forall (eq c) (aic_list (flow_state f)) ->
  (exists s, f = Continue s) /\
  aic_list (flow_state f) = repeat c (Z.to_nat max_iter) /\
  run pi mu cov = Returned (repeat c (Z.to_nat max_iter)).
Proof.
  intros Hc Hthreshold Hloop Hscores.
  pose proof (run_of_loop _ _ _ _ Hloop) as Hrun.
  destruct (run_loop_cases _ _ _ _ Hloop)
    as [(s & -> & Hreach) | (j & sj & s & a & -> & Hreach & _ & Hl & Hdelta & _)].
  - cbn [flow_state] in *.
    apply Forall_eq_repeat in Hscores.
    rewrite (proj1 (head_invariant_holds Hreach)) in Hscores.
    rewrite Hscores in Hrun |- *. split; [eauto | split; [reflexivity | ]].
    assumption.
  - exfalso. cbn [flow_state] in Hscores. rewrite Hl in Hscores.
    apply Forall_app in Hscores. destruct Hscores as [Hbefore Ha].
    inversion Ha as [ | a' l' Ha' _]; subst.
    rewrite (head_previous _ _ _ _ _ Hreach) in Hdelta.
    destruct (aic_list sj) as [ | b l] eqn:Hlist using rev_ind.
    + cbn [last] in Hdelta. rewrite first_delta_not_below in Hdelta.
      discriminate.
    + rewrite last_last in Hdelta. apply Forall_app in Hbefore.
      destruct Hbefore as [_ Hb]. inversion Hb; subst.
      rewrite fsub_diag in Hdelta by assumption. congruence.
Qed.

(** With a threshold above zero, the patience rule on four equal finite
    scores: the counter reaches 3. *)
Lemma patience_on_plateau (c : float) :
  finite c = true ->
  flt (S754_zero false) threshold = true ->
  fold_left (patience_step threshold) [c; c; c; c] (inf, 0%Z) = (c, 3%Z).
Proof.
  intros Hc Hthreshold. cbn [fold_left]. unfold patience_step. cbn [fst snd].
  rewrite first_delta_not_below. cbn [fst snd].
  do 3 (rewrite (fsub_diag c Hc), Hthreshold; cbn [fst snd]).
  reflexivity.
Qed.

(** X6: a run that returns, with a threshold above zero, and whose first
    four scores are the same finite number, has returned in its fourth
    iteration by the early stop, with these four scores. *)
Theorem plateau_stops_after_four pi mu cov (c : float) (f : flow Pi Mu Cov) :
  finite c = true ->
  flt (S754_zero false) threshold = true ->
  run_loop pi mu cov = Returned f ->
  firstn 4 (aic_list (flow_state f)) = [c; c; c; c] ->
  (exists s, f = Return s) /\
  aic_list (flow_state f) = [c; c; c; c] /\
  run pi mu cov = Returned [c; c; c; c].
Proof.
  intros Hc Hthreshold Hloop Hfirst.
  pose proof (run_of_loop _ _ _ _ Hloop) as Hrun.
  assert (Hnever : forall s4, reach (initial_state pi mu cov) 4 s4 ->
                   aic_list s4 = [c; c; c; c] -> False).
  { intros s4 Hreach Hlist.
    pose proof (head_invariant_holds Hreach) as (_ & Hcount & _).
    apply head_replay in Hreach.
    rewrite Hlist, patience_on_plateau in Hreach by assumption.
    injection Hreach as _ Hthree. lia. }
  assert (Hlong : (4 <= length (aic_list (flow_state f)))%nat).
  { apply (f_equal (@length float)) in Hfirst.
    rewrite length_firstn in Hfirst. cbn [length] in Hfirst. lia. }
  destruct (run_loop_cases _ _ _ _ Hloop)
    as [(s & -> & Hreach) | (j & sj & s & a & -> & Hreach & _ & Hl & _ & _)].
  - exfalso. cbn [flow_state] in *.
    pose proof (proj1 (head_invariant_holds Hreach)) as Hlen.
    destruct (reach_prefix _ _ _ _ _ Hreach 4 ltac:(lia)) as (s4 & H4 & Hlist).
    apply (Hnever s4 H4). now rewrite Hlist.
  - cbn [flow_state] in *.
    pose proof (proj1 (head_invariant_holds Hreach)) as Hlen.
    assert (Hj : j = 3%nat).
    { destruct (Nat.le_gt_cases 4 j) as [Hge | Hlt]; [exfalso | ].
      - destruct (reach_prefix _ _ _ _ _ Hreach 4 Hge) as (s4 & H4 & Hlist).
        apply (Hnever s4 H4). rewrite Hlist, <- Hfirst, Hl, firstn_app.
        replace (4 - length (aic_list sj))%nat with 0%nat by lia.
        now rewrite firstn_O, app_nil_r.
      - rewrite Hl, length_app, Hlen in Hlong. simpl in Hlong. lia. }
    assert (Hall : aic_list s = [c; c; c; c]).
    { rewrite <- Hfirst. symmetry. apply firstn_all2.
      rewrite Hl, length_app, Hlen, Hj. simpl. lia. }
    rewrite Hall in Hrun. split; [eauto | split; assumption].
Qed.

End Stalls.

Lemma trajectory_length_witness :
  exists f,
    Scripted.loop [of_int 5; of_int 5; of_int 5; of_int 5; of_int 5] 200 0
                  (of_int 1) = Returned f /\
    Scripted.run [of_int 5; of_int 5; of_int 5; of_int 5; of_int 5] 200 0
                 (of_int 1) = Returned (aic_list (flow_state f)) /\
    match f with
    | Continue s => length (aic_list s) = Z.to_nat 200
    | Return s => (length (aic_list s) <= Z.to_nat 200)%nat
    end.
Proof.
  eexists. split; [reflexivity | ].
  apply (trajectory_length
           (list float) nat nat unit nat unit unit
           Scripted.expectation Scripted.maximization Scripted.scorer
           Scripted.plot
           [of_int 5; of_int 5; of_int 5; of_int 5; of_int 5] 200 (of_int 1)
           0%nat 0%nat tt).
  reflexivity.
Defined.

Lemma run_output_witness :
  exists f out,
    Scripted.loop [of_int 5; of_int 5; of_int 5; of_int 5; of_int 5] 200 0
                  (of_int 1) = Returned f /\
    stdout (final_state 200 f)
    = out ++ [TerminatingEarly nat nat unit (of_int 1)] /\
    map report_iteration out = [Some 0%Z].
Proof.
  eexists.
  destruct (run_output
              (list float) nat nat unit nat unit unit
              Scripted.expectation Scripted.maximization Scripted.scorer
           Scripted.plot
              [of_int 5; of_int 5; of_int 5; of_int 5; of_int 5] 200 (of_int 1)
              0%nat 0%nat tt _ eq_refl) as (out & Hout & Hreports).
  exists out. split; [reflexivity | split; [exact Hout | exact Hreports]].
Defined.

(** The script runs out in the fourth iteration: the three scores gathered
    are lost. *)
Lemma exception_ends_the_run_witness :
  Scripted.run [of_int 10; of_int 9; of_int 8] 20 0 (of_int 1)
  = Raised IndexError.
Proof.
  apply (exception_ends_the_run
           (list float) nat nat unit nat unit unit
           Scripted.expectation Scripted.maximization Scripted.scorer
           Scripted.plot
           [of_int 10; of_int 9; of_int 8] 20 (of_int 1) 0%nat 0%nat tt
           3%nat
           {| st_pi := 3%nat; st_mu := 2%nat; st_cov := tt;
              previous_aic := of_int 8; no_improve_count := 0;
              aic_list := [of_int 10; of_int 9; of_int 8];
              stdout := [Report 0 (of_int 10) 1%nat 0%nat tt] |}).
  - eapply at_next;
      [eapply at_next;
        [eapply at_next; [apply at_start | lia | reflexivity]
        | lia | reflexivity]
      | lia | reflexivity].
  - lia.
  - reflexivity.
Defined.

Lemma unordered_scores_exhaust_the_budget_witness :
  exists f,
    run_em_loop (e_step (F:=float) Standin.accepts_all Standin.flat_pdf) m_step
      (Standin.constant_scorer nan)
      (plot_step Standin.two_ticks Standin.accepts_all Standin.flat_pdf)
      Standin.two_points 7 (of_int 1)
      Standin.equal_weights Standin.two_means Standin.unit_covariances
    = Returned f /\
    (exists s, f = Continue s) /\
    length (aic_list (flow_state f)) = 7%nat.
Proof.
  eexists. split; [vm_compute; reflexivity | ].
  refine (let H := @unordered_scores_exhaust_the_budget _ _ _ _ _ _ _
            (e_step (F:=float) Standin.accepts_all Standin.flat_pdf) m_step
            (Standin.constant_scorer nan)
            (plot_step Standin.two_ticks Standin.accepts_all Standin.flat_pdf)
            Standin.two_points 7 (of_int 1)
            Standin.equal_weights Standin.two_means Standin.unit_covariances
            _ _ _ in conj (proj1 H) (proj1 (proj2 H))).
  - vm_compute. reflexivity.
  - vm_compute. repeat constructor.
Defined.

Lemma plateau_with_threshold_not_above_zero_witness :
  exists f,
    run_em_loop (e_step (F:=float) Standin.accepts_all Standin.flat_pdf) m_step
      (Standin.constant_scorer (of_int 5))
      (plot_step Standin.two_ticks Standin.accepts_all Standin.flat_pdf)
      Standin.two_points 7 (of_int 0)
      Standin.equal_weights Standin.two_means Standin.unit_covariances
    = Returned f /\
    aic_list (flow_state f) = repeat (of_int 5) 7.
Proof.
  eexists. split; [vm_compute; reflexivity | ].
  refine (proj1 (proj2 (@plateau_with_threshold_not_above_zero _ _ _ _ _ _ _
            (e_step (F:=float) Standin.accepts_all Standin.flat_pdf) m_step
            (Standin.constant_scorer (of_int 5))
            (plot_step Standin.two_ticks Standin.accepts_all Standin.flat_pdf)
            Standin.two_points 7 (of_int 0)
            Standin.equal_weights Standin.two_means Standin.unit_covariances
            (of_int 5) _ _ _ _ _))).
  - reflexivity.
  - reflexivity.
  - vm_compute. reflexivity.
  - vm_compute. repeat constructor.
Defined.

Lemma plateau_stops_after_four_witness :
  exists f,
    run_em_loop (e_step (F:=float) Standin.accepts_all Standin.flat_pdf) m_step
      (Standin.constant_scorer (of_int 5))
      (plot_step Standin.two_ticks Standin.accepts_all Standin.flat_pdf)
      Standin.two_points 7 (fdiv (of_int 1) (of_int 10))
      Standin.equal_weights Standin.two_means Standin.unit_covariances
    = Returned f /\
    (exists s, f = Return s) /\
    aic_list (flow_state f) = [of_int 5; of_int 5; of_int 5; of_int 5].
Proof.
  eexists. split; [vm_compute; reflexivity | ].
  refine (let H := @plateau_stops_after_four _ _ _ _ _ _ _
            (e_step (F:=float) Standin.accepts_all Standin.flat_pdf) m_step
            (Standin.constant_scorer (of_int 5))
            (plot_step Standin.two_ticks Standin.accepts_all Standin.flat_pdf)
            Standin.two_points 7 (fdiv (of_int 1) (of_int 10))
            Standin.equal_weights Standin.two_means Standin.unit_covariances
            (of_int 5) _ _ _ _ _ in conj (proj1 H) (proj1 (proj2 H))).
  - reflexivity.
  - reflexivity.
  - vm_compute. reflexivity.
  - vm_compute. reflexivity.
Defined.

(** * More on the E-step and the scorer: shapes and exceptions *)

Section StepShapes.

Context {F : Type} {FA : Arith F}.

Variable frozen_error : vector F -> matrix F -> option exn.
Variable pdf : vector F -> matrix F -> vector F -> F.
Variable log : F -> F.

(** The lengths of what the E-step returns. *)
Lemma expectation_step_lengths (data mu : matrix F) (cov : list (matrix F))
    (pi : vector F) (r : matrix F) (m_c pi' : vector F) :
  expectation_step frozen_error pdf data mu cov pi = Returned (r, m_c, pi') ->
  length r = length data /\
  Forall (fun row => length row = length pi) r /\
  length m_c = length pi /\
  length pi' = length pi.
Proof.
  intros HE. apply expectation_step_returned in HE.
  destruct HE as (w & Hw & _ & _ & Hr & Hm & Hpi).
  apply weighted_rows_returned in Hw. destruct Hw as [Hlen _].
  assert (Hlen_m : length m_c = length pi)
    by (now rewrite Hm, length_map, length_seq).
  repeat split.
  - rewrite Hr, normalize_rows_map, length_map. apply length_transpose.
  - rewrite Hr, normalize_rows_map. apply Forall_forall. intros row Hrow.
    apply in_map_iff in Hrow. destruct Hrow as (row0 & <- & Hin).
    rewrite length_map. unfold transpose in Hin.
    apply in_map_iff in Hin. destruct Hin as (n & <- & _).
    now rewrite length_col.
  - assumption.
  - now rewrite Hpi, length_map.
Qed.

(** X7: the E-step returns one row of responsibilities per point, each with one
    entry per component, and one effective count and one weight per
    component. *)
Theorem expectation_step_shapes (data mu : matrix F) (cov : list (matrix F))
    (pi : vector F) (r : matrix F) (m_c pi' : vector F) :
  expectation_step frozen_error pdf data mu cov pi = Returned (r, m_c, pi') ->
  length r = length data /\
  Forall (fun row => length row = length pi) r /\
  length m_c = length pi /\
  length pi' = length pi.
Proof.
  intros HE.
  destruct (expectation_step_lengths data mu cov pi r m_c pi' HE)
    as (Hlen_r & Hrows & Hlen_m & Hlen_pi).
  repeat split; assumption.
Qed.






(** X10: for some component and a number of points other than one, the E-step
    and the scorer return on the same arguments. *)
Theorem expectation_step_and_scorer_agree (data mu : matrix F)
    (cov : list (matrix F)) (pi : vector F) :
  length pi <> 0%nat -> length data <> 1%nat ->
  (returns (expectation_step frozen_error pdf data mu cov pi) <->
   returns (compute_aic frozen_error pdf log data mu cov pi)).
Proof.
  intros HK HN. split.
  - intros [[[r m_c] pi'] HE]. apply expectation_step_returned in HE.
    destruct HE as (w & Hw & _). unfold compute_aic.
    pose proof (weighted_rows_returned _ _ _ _ _ _ _ Hw) as [_ Hrows].
    destruct (Hrows 0%nat ltac:(lia)) as (Hmu & _).
    rewrite (index_in_range mu 0 []) by assumption.
    cbv beta iota delta [bind]. rewrite Hw. eexists; reflexivity.
  - intros [a Ha]. unfold compute_aic in Ha.
    destruct (index mu 0) as [mu0 | e]; simpl in Ha; [ | discriminate].
    unfold expectation_step.
    destruct (comprehension _ _) as [w | e]; simpl in Ha; [ | discriminate].
    simpl. apply Nat.eqb_neq in HK. apply Nat.eqb_neq in HN.
    rewrite HK, HN. simpl. eexists; reflexivity.
Qed.

End StepShapes.

Lemma expectation_step_shapes_witness :
  exists r m_c pi',
    expectation_step (F:=float) Standin.accepts_all Standin.flat_pdf
      Standin.two_points Standin.two_means Standin.unit_covariances
      Standin.equal_weights = Returned (r, m_c, pi') /\
    length r = 2%nat /\
    Forall (fun row => length row = 2%nat) r /\
    length m_c = 2%nat /\
    length pi' = 2%nat.
Proof.
  do 3 eexists. split; [vm_compute; reflexivity | ].
  apply (expectation_step_shapes (F:=float)
           Standin.accepts_all Standin.flat_pdf
           Standin.two_points Standin.two_means Standin.unit_covariances
           Standin.equal_weights).
  vm_compute. reflexivity.
Defined.



Lemma expectation_step_and_scorer_agree_witness :
  returns (expectation_step (F:=float) Standin.accepts_all Standin.flat_pdf
             Standin.two_points Standin.two_means Standin.unit_covariances
             Standin.equal_weights) <->
  returns (compute_aic (F:=float) Standin.accepts_all Standin.flat_pdf
             (fun x => x) Standin.two_points Standin.two_means
             Standin.unit_covariances Standin.equal_weights).
Proof.
  apply (expectation_step_and_scorer_agree (F:=float)
           Standin.accepts_all Standin.flat_pdf (fun x => x)
           Standin.two_points Standin.two_means Standin.unit_covariances
           Standin.equal_weights).
  - simpl. discriminate.
  - simpl. discriminate.
Defined.

(** * More on the E-step over the reals: responsibilities as probabilities *)

Section Responsibilities.

Local Open Scope R_scope.

Import Spec.

Variable frozen_error : vector R -> matrix R -> option exn.
Variable pdf : vector R -> matrix R -> vector R -> R.

Lemma sigma_ge_term (n k : nat) (f : nat -> R) :
  (forall i, (i < n)%nat -> 0 <= f i) -> (k < n)%nat -> f k <= sigma n f.
Proof.
  induction n as [ | n IH]; intros Hf Hk; [lia | ].
  rewrite sigma_S.
  assert (Hrest : 0 <= sigma n f) by (apply sigma_nonneg; auto with arith).
  assert (Hn : 0 <= f n) by (apply Hf; lia).
  destruct (Nat.eq_dec k n) as [-> | Hne]; [lra | ].
  assert (f k <= sigma n f) by (apply IH; [auto with arith | lia]). lra.
Qed.

(** X11: when no row sum is zero, the responsibilities of every point sum
    to 1, the effective counts sum to the number of points, and the weights
    returned sum to 1 if there is a point at all, whatever the weights
    given. *)
Theorem expectation_step_normalizes (data mu : matrix R)
    (cov : list (matrix R)) (pi : vector R) (r : matrix R) (m_c pi' : vector R) :
  expectation_step frozen_error pdf data mu cov pi = Returned (r, m_c, pi') ->
  (forall n, (n < length data)%nat ->
     sigma (length pi) (weight pdf data mu cov pi n) <> 0) ->
  (forall n, (n < length data)%nat -> sum (nth n r []) = 1) /\
  sum m_c = INR (length data) /\
  (data <> [] -> sum pi' = 1).
Proof.
  intros HE Hrows.
  pose proof (effective_counts_total _ _ _ _ _ _ _ _ _ HE Hrows) as Htotal.
  destruct (expectation_step_real _ _ _ _ _ _ _ _ _ HE)
    as (Hr & Hlen_m & _ & _ & _ & Hsum).
  destruct (expectation_step_lengths _ _ _ _ _ _ _ _ _ HE)
    as (Hlen_r & Hrows_r & _ & _).
  split; [ | split].
  - intros n Hn. rewrite sum_sigma.
    assert (Hlen : length (nth n r []) = length pi).
    { rewrite Forall_forall in Hrows_r. apply Hrows_r, nth_In. lia. }
    rewrite Hlen.
    rewrite (sigma_ext _ _ (fun k => weight pdf data mu cov pi n k
                      / sigma (length pi) (weight pdf data mu cov pi n)))
      by (intros k Hk; now apply Hr).
    rewrite sigma_div. field. now apply Hrows.
  - now rewrite sum_sigma, Hlen_m.
  - intros Hdata. rewrite Hsum, Htotal. field.
    apply not_0_INR. destruct data; [congruence | discriminate].
Qed.

(** X12: with a positive density and weights that are not negative and not all
    zero, every responsibility is a probability. *)
Theorem responsibilities_are_probabilities (data mu : matrix R)
    (cov : list (matrix R)) (pi : vector R) (r : matrix R) (m_c pi' : vector R)
    (n k : nat) :
  (forall mean c x, 0 < pdf mean c x) ->
  Forall (fun p => 0 <= p) pi ->
  0 < sum pi ->
  expectation_step frozen_error pdf data mu cov pi = Returned (r, m_c, pi') ->
  (n < length data)%nat -> (k < length pi)%nat ->
  0 <= entry r n k <= 1.
Proof.
  intros Hpdf Hpos Hsum HE Hn Hk.
  destruct (expectation_step_real _ _ _ _ _ _ _ _ _ HE) as (Hr & _).
  rewrite (Hr n k Hn Hk). unfold responsibility.
  assert (Hw : forall j, (j < length pi)%nat ->
               0 <= weight pdf data mu cov pi n j).
  { intros j _. unfold weight. apply Rmult_le_pos.
    - now apply coord_nonneg.
    - apply Rlt_le, Hpdf. }
  assert (Htotal : 0 < sigma (length pi) (weight pdf data mu cov pi n)).
  { unfold weight.
    apply sigma_weighted_positive
      with (p := coord pi)
           (c := fun j => pdf (nth j mu []) (nth j cov []) (nth n data [])).
    - intros j _. now apply coord_nonneg.
    - intros j _. apply Hpdf.
    - rewrite sum_sigma in Hsum. exact Hsum. }
  pose proof (sigma_ge_term (length pi) k _ Hw Hk) as Hle.
  pose proof (Hw k Hk) as Hge.
  split.
  - apply Rmult_le_pos; [assumption | ].
    apply Rlt_le, Rinv_0_lt_compat, Htotal.
  - apply (Rmult_le_reg_r (sigma (length pi) (weight pdf data mu cov pi n)));
      [assumption | ].
    unfold Rdiv. rewrite Rmult_assoc, Rinv_l by lra. lra.
Qed.

End Responsibilities.

Lemma expectation_step_normalizes_witness :
  exists r m_c pi',
    expectation_step (F:=R) Standin.accepts_all Standin.flat_pdf
      Standin.two_points Standin.two_means Standin.unit_covariances
      [3%R; 1%R] = Returned (r, m_c, pi') /\
    (forall n, (n < 2)%nat -> sum (nth n r []) = 1%R) /\
    sum m_c = INR 2 /\
    (Standin.two_points (F:=R) <> [] -> sum pi' = 1%R).
Proof.
  assert (H : returns (expectation_step (F:=R) Standin.accepts_all
                         Standin.flat_pdf Standin.two_points Standin.two_means
                         Standin.unit_covariances [3%R; 1%R]))
    by (eexists; reflexivity).
  destruct H as [[[r m_c] pi'] HE].
  exists r, m_c, pi'. split; [exact HE | ].
  apply (expectation_step_normalizes Standin.accepts_all Standin.flat_pdf
           Standin.two_points Standin.two_means Standin.unit_covariances
           [3%R; 1%R] r m_c pi' HE).
  intros [ | [ | n]] Hn; simpl in Hn; try lia;
    unfold Spec.sigma, Spec.weight, Spec.coord, Standin.flat_pdf; simpl; lra.
Defined.

Lemma responsibilities_are_probabilities_witness :
  exists r m_c pi',
    expectation_step (F:=R) Standin.accepts_all Standin.flat_pdf
      Standin.two_points Standin.two_means Standin.unit_covariances
      [3%R; 1%R] = Returned (r, m_c, pi') /\
    (0 <= Spec.entry r 0 1 <= 1)%R.
Proof.
  assert (H : returns (expectation_step (F:=R) Standin.accepts_all
                         Standin.flat_pdf Standin.two_points Standin.two_means
                         Standin.unit_covariances [3%R; 1%R]))
    by (eexists; reflexivity).
  destruct H as [[[r m_c] pi'] HE].
  exists r, m_c, pi'. split; [exact HE | ].
  apply (responsibilities_are_probabilities
           Standin.accepts_all Standin.flat_pdf
           Standin.two_points Standin.two_means Standin.unit_covariances
           [3%R; 1%R] r m_c pi' 0 1).
  - intros. unfold Standin.flat_pdf. simpl. lra.
  - repeat constructor; lra.
  - simpl. lra.
  - exact HE.
  - simpl. lia.
  - simpl. lia.
Defined.

(** * More on the E-step in binary64: one row of zeros spoils the weights *)

Lemma fadd_nan_l (x : float) : fadd nan x = nan.
Proof. reflexivity. Qed.

Lemma fadd_nan_r (x : float) : fadd x nan = nan.
Proof. now destruct x. Qed.

Lemma fold_left_fadd_nan (xs : list float) : fold_left fadd xs nan = nan.
Proof.
  induction xs as [ | x xs IH]; simpl; [reflexivity | exact IH].
Qed.

Lemma fold_left_fadd_with_nan (xs : list float) (acc : float) :
  In nan xs -> fold_left fadd xs acc = nan.
Proof.
  revert acc. induction xs as [ | x xs IH]; intros acc Hin; [contradiction | ].
  simpl. destruct Hin as [-> | Hin].
  - rewrite fadd_nan_r. apply fold_left_fadd_nan.
  - now apply IH.
Qed.

(** A sum with a NaN term is NaN. *)
Lemma sum_with_nan (xs : vector float) : In nan xs -> sum xs = nan.
Proof.
  destruct xs as [ | x xs]; intros Hin; [contradiction | ]. simpl.
  destruct Hin as [-> | Hin].
  - apply fold_left_fadd_nan.
  - now apply fold_left_fadd_with_nan.
Qed.

Lemma map_constant_seq {A : Type} (c : A) (a n : nat) :
  map (fun _ => c) (seq a n) = repeat c n.
Proof.
  revert a. induction n as [ | n IH]; intros a; simpl; [reflexivity | ].
  now rewrite IH.
Qed.

(** The normalized row of a point whose weights are all zero. *)
Lemma zero_row_normalized
    (frozen_error : vector float -> matrix float -> option exn)
    (pdf : vector float -> matrix float -> vector float -> float)
    (data mu : matrix float) (cov : list (matrix float)) (pi : vector float)
    (r : matrix float) (m_c pi' : vector float) (n : nat) :
  expectation_step frozen_error pdf data mu cov pi = Returned (r, m_c, pi') ->
  (n < length data)%nat ->
  (forall k, (k < length pi)%nat ->
     is_zero (fmul (nth k pi (of_int 0))
                   (pdf (nth k mu []) (nth k cov []) (nth n data []))) = true) ->
  nth n r [] = repeat nan (length pi).
Proof.
  intros HE Hn Hzero.
  apply expectation_step_returned in HE.
  destruct HE as (w & Hw & _ & _ & Hr & _ & _).
  apply weighted_rows_returned in Hw. destruct Hw as [Hlen Hrows].
  assert (Hrow : Forall (fun x => is_zero x = true) (col n w)).
  { apply Forall_forall. intros x Hx. unfold col in Hx.
    apply in_map_iff in Hx. destruct Hx as (row & Hx & Hin).
    apply (In_nth _ _ []) in Hin. destruct Hin as (k & Hk & Hrow).
    rewrite Hlen in Hk. destruct (Hrows k Hk) as (_ & _ & _ & Hwk).
    rewrite Hrow in Hwk. rewrite <- Hx, Hwk.
    rewrite (nth_indep _ _ (mul (nth k pi (of_Z 0))
               (pdf (nth k mu []) (nth k cov []) [])))
      by (now rewrite length_map).
    rewrite (map_nth (fun x => mul (nth k pi (of_Z 0))
                                   (pdf (nth k mu []) (nth k cov []) x))).
    now apply Hzero. }
  rewrite Hr, normalize_rows_map.
  rewrite (nth_indep _ [] (map (fun x => div x (sum (@nil float))) []))
    by (now rewrite length_map, length_transpose).
  rewrite (map_nth (fun row => map (fun x => div x (sum row)) row)).
  rewrite nth_transpose by assumption.
  rewrite <- Hlen, <- (length_col w n). now apply normalized_zero_row.
Qed.

(** The effective counts and the mixing weights, with one row of zeros. *)
Lemma zero_row_gives_nan_weights
    (frozen_error : vector float -> matrix float -> option exn)
    (pdf : vector float -> matrix float -> vector float -> float)
    (data mu : matrix float) (cov : list (matrix float)) (pi : vector float)
    (r : matrix float) (m_c pi' : vector float) (n : nat) :
  expectation_step frozen_error pdf data mu cov pi = Returned (r, m_c, pi') ->
  (n < length data)%nat ->
  (forall k, (k < length pi)%nat ->
     is_zero (fmul (nth k pi (of_int 0))
                   (pdf (nth k mu []) (nth k cov []) (nth n data []))) = true) ->
  m_c = repeat nan (length pi) /\ pi' = repeat nan (length pi).
Proof.
  intros HE Hn Hzero.
  pose proof (zero_row_normalized _ _ _ _ _ _ _ _ _ _ HE Hn Hzero) as Hrow.
  destruct (expectation_step_lengths _ _ _ _ _ _ _ _ _ HE) as (Hlen_r & _).
  apply expectation_step_returned in HE.
  destruct HE as (w & _ & _ & _ & _ & Hm & Hpi).
  assert (Hm' : m_c = repeat nan (length pi)).
  { rewrite Hm, <- (map_constant_seq nan 0 (length pi)).
    apply map_ext_in. intros k Hk. apply in_seq in Hk.
    apply sum_with_nan.
    assert (Hentry : nth n (col k r) (of_Z 0) = nan).
    { rewrite nth_col, Hrow. apply nth_repeat_lt. lia. }
    rewrite <- Hentry. apply nth_In. now rewrite length_col, Hlen_r. }
  split; [assumption | ].
  rewrite Hpi, Hm', map_repeat. reflexivity.
Qed.

(** X13: one point whose weights are all zero is enough: every effective count
    and every mixing weight that the E-step returns is NaN. *)
Theorem zero_row_spoils_all_weights
    (frozen_error : vector float -> matrix float -> option exn)
    (pdf : vector float -> matrix float -> vector float -> float)
    (data mu : matrix float) (cov : list (matrix float)) (pi : vector float)
    (r : matrix float) (m_c pi' : vector float) (n : nat) :
  expectation_step frozen_error pdf data mu cov pi = Returned (r, m_c, pi') ->
  (n < length data)%nat ->
  (forall k, (k < length pi)%nat ->
     is_zero (fmul (nth k pi (of_int 0))
                   (pdf (nth k mu []) (nth k cov []) (nth n data []))) = true) ->
  m_c = repeat nan (length pi) /\ pi' = repeat nan (length pi).
Proof.
  exact (zero_row_gives_nan_weights frozen_error pdf data mu cov pi r m_c pi'
                                    n).
Qed.

Lemma zero_row_spoils_all_weights_witness :
  expectation_step Standin.accepts_all
    (fun mean cov x =>
       match x with
       | [S754_zero _; S754_zero _] => of_int 1
       | _ => S754_zero false
       end)
    [[of_int 0; of_int 0]; [of_int 100; of_int 100]]
    Standin.two_means Standin.unit_covariances Standin.equal_weights
  = Returned ([[fdiv (of_int 1) (of_int 2); fdiv (of_int 1) (of_int 2)];
               [nan; nan]], [nan; nan], [nan; nan])
  /\ [nan; nan] = repeat nan 2 /\ [nan; nan] = repeat nan 2.
Proof.
  split; [reflexivity | ].
  apply (zero_row_spoils_all_weights Standin.accepts_all
           (fun mean cov x =>
              match x with
              | [S754_zero _; S754_zero _] => of_int 1
              | _ => S754_zero false
              end)
           [[of_int 0; of_int 0]; [of_int 100; of_int 100]]
           Standin.two_means Standin.unit_covariances Standin.equal_weights
           [[fdiv (of_int 1) (of_int 2); fdiv (of_int 1) (of_int 2)];
            [nan; nan]] [nan; nan] [nan; nan] 1).
  - reflexivity.
  - simpl. lia.
  - intros [ | [ | k]] Hk; [reflexivity | reflexivity | simpl in Hk; lia].
Defined.

(** * The mixing weights in binary64: one far point *)

(** C8, as stated, fails in binary64.  The initializer, drawing 1/2 every
    time, gives two components of mean (0, 0) and unit covariance.  For
    every library that accepts this Gaussian and whose density of it at
    (100, 100) has underflowed to zero, as [exp(-10000) / (2 pi)] has, the
    weights that the first E-step returns for the points (0, 0) and
    (100, 100) are NaN, and their sum is within no tolerance of 1. *)
Lemma C8_far_point_spoils_the_weights :
  ~ exists (linspace : float -> float -> nat -> vector float)
           (frozen_error : vector float -> matrix float -> option exn)
           (pdf : vector float -> matrix float -> vector float -> float)
           (log : float -> float) (tolerance : float),
      frozen_error [of_int 0; of_int 0] (eye 2) = None /\
      is_zero (pdf [of_int 0; of_int 0] (eye 2) [of_int 100; of_int 100])
      = true /\
      weights_sum_to_one_in_every_iteration linspace frozen_error pdf log
                                            Standin.half_rand tolerance.
Proof.
  intros (linspace & frozen_error & pdf & log & tolerance & Hacc & Hzero & H).
  set (data := [[of_int 0; of_int 0]; [of_int 100; of_int 100]]).
  set (mus := [[of_int 0; of_int 0]; [of_int 0; of_int 0]]).
  assert (HE : returns (expectation_step frozen_error pdf data mus
                          Standin.unit_covariances Standin.equal_weights)).
  { apply expectation_step_returns; try reflexivity; try discriminate.
    intros [ | [ | k]] Hk; [exact Hacc | exact Hacc | simpl in Hk; lia]. }
  destruct HE as [[[r m_c] pi'] HE].
  assert (Hpi : pi' = repeat nan 2).
  { apply (zero_row_gives_nan_weights frozen_error pdf data mus
             Standin.unit_covariances Standin.equal_weights r m_c pi' 1 HE).
    - simpl. lia.
    - intros [ | [ | k]] Hk; [ | | simpl in Hk; lia];
        cbn [nth mus data Standin.unit_covariances Standin.equal_weights];
        destruct (pdf [of_int 0; of_int 0] (eye 2) [of_int 100; of_int 100])
          as [[ | ] | | | ];
        (reflexivity || discriminate Hzero). }
  specialize (H 2%Z tt Standin.equal_weights mus Standin.unit_covariances
                data 200%Z (of_int 1) 0%nat
                (initial_state Standin.equal_weights mus
                               Standin.unit_covariances)
                r m_c pi').
  assert (Hsum : sums_to_one_within tolerance pi' = true).
  { apply H.
    - lia.
    - lia.
    - reflexivity.
    - discriminate.
    - repeat constructor.
    - reflexivity.
    - apply at_start.
    - lia.
    - exact HE. }
  rewrite Hpi in Hsum. discriminate Hsum.
Qed.

(** * More on the M-step over the reals *)

Section Moments.

Local Open Scope R_scope.

Import Spec.

Variable data r : matrix R.
Variable m_c : vector R.
Variable k : nat.

Hypothesis r_rows : length r = length data.
Hypothesis data_rows : Forall (fun x => length x = ncols data) data.
Hypothesis k_component : (k < length m_c)%nat.

Local Abbreviation new_mu := (fst (maximization_step data r m_c)).
Local Abbreviation new_cov := (snd (maximization_step data r m_c)).

(** X14: every covariance that the M-step returns is symmetric. *)
Theorem covariance_is_symmetric (a b : nat) :
  (a < ncols data)%nat -> (b < ncols data)%nat ->
  nth b (nth a (nth k new_cov []) []) 0 = nth a (nth b (nth k new_cov []) []) 0.
Proof.
  intros Ha Hb.
  rewrite !(new_covariance_entry data r m_c r_rows data_rows) by assumption.
  unfold weighted_covariance. f_equal. apply sigma_ext. intros n _. ring.
Qed.

(** X15: with responsibilities that are not negative and a positive effective
    count, no variance is negative. *)
Theorem variance_is_not_negative (a : nat) :
  (a < ncols data)%nat ->
  (forall n, (n < length data)%nat -> 0 <= entry r n k) ->
  0 < coord m_c k ->
  0 <= nth a (nth a (nth k new_cov []) []) 0.
Proof.
  intros Ha Hr Hm.
  rewrite (new_covariance_entry data r m_c r_rows data_rows) by assumption.
  unfold weighted_covariance. apply Rmult_le_pos.
  - apply sigma_nonneg. intros n Hn. apply Rmult_le_pos; [now apply Hr | ].
    apply Rle_0_sqr.
  - apply Rlt_le, Rinv_0_lt_compat, Hm.
Qed.

Lemma sigma_minus_scaled (n : nat) (f g : nat -> R) (c : R) :
  sigma n (fun i => f i * (g i - c)) = sigma n (fun i => f i * g i) - c * sigma n f.
Proof.
  induction n as [ | n IH]; [rewrite !sigma_0; ring | ].
  rewrite !sigma_S, IH. ring.
Qed.

(** X16: the effective count that the E-step hands over is the column sum of the
    responsibilities; with it, and when it is not zero, the residuals
    around the new mean, weighted by the responsibilities, sum to zero. *)
Theorem weighted_residuals_vanish (d : nat) :
  (d < ncols data)%nat ->
  coord m_c k = effective_count (entry r) (length data) k ->
  coord m_c k <> 0 ->
  sigma (length data)
        (fun n => entry r n k * (entry data n d - entry new_mu k d)) = 0.
Proof.
  intros Hd Hcount Hm.
  rewrite sigma_minus_scaled.
  rewrite (new_mean_entry data r m_c r_rows) by assumption.
  unfold weighted_mean. unfold effective_count in Hcount. rewrite <- Hcount.
  field. assumption.
Qed.

(** X17: when all the points are one point, the new mean is that point and the
    new covariance is the zero matrix. *)
Theorem identical_points_collapse (x : vector R) (a b : nat) :
  Forall (eq x) data ->
  (a < ncols data)%nat -> (b < ncols data)%nat ->
  coord m_c k = effective_count (entry r) (length data) k ->
  coord m_c k <> 0 ->
  entry new_mu k a = coord x a /\
  nth b (nth a (nth k new_cov []) []) 0 = 0.
Proof.
  intros Hsame Ha Hb Hcount Hm.
  assert (Hpoint : forall n, (n < length data)%nat -> nth n data [] = x).
  { intros n Hn. rewrite Forall_forall in Hsame. symmetry.
    apply Hsame. now apply nth_In. }
  assert (Hmean : forall d, (d < ncols data)%nat -> entry new_mu k d = coord x d).
  { intros d Hd. rewrite (new_mean_entry data r m_c r_rows) by assumption.
    unfold weighted_mean.
    rewrite (sigma_ext _ _ (fun n => coord x d * entry r n k)).
    - unfold effective_count in Hcount.
      assert (Hscale : forall n c f, sigma n (fun i => c * f i) = c * sigma n f).
      { intros n c f. induction n as [ | n IH]; [rewrite !sigma_0; ring | ].
        rewrite !sigma_S, IH. ring. }
      rewrite Hscale, <- Hcount. field. assumption.
    - intros n Hn. unfold entry at 2. rewrite (Hpoint n Hn).
      unfold coord. ring. }
  split; [now apply Hmean | ].
  rewrite (new_covariance_entry data r m_c r_rows data_rows) by assumption.
  unfold weighted_covariance.
  rewrite (sigma_ext _ _ (fun _ => 0)).
  - rewrite sigma_const. unfold Rdiv. ring.
  - intros n Hn.
    change (coord (nth k new_mu []) a) with (entry new_mu k a).
    rewrite (Hmean a Ha). unfold entry. rewrite (Hpoint n Hn).
    unfold coord. ring.
Qed.

End Moments.

(** The four theorems on two points with responsibilities 1/2 each, and on
    one point taken twice. *)

Lemma covariance_is_symmetric_witness :
  let r := [[(1 / 2)%R; (1 / 2)%R]; [(1 / 2)%R; (1 / 2)%R]] in
  let cov := snd (maximization_step Standin.two_points r [1%R; 1%R]) in
  nth 1 (nth 0 (nth 0 cov []) []) 0%R = nth 0 (nth 1 (nth 0 cov []) []) 0%R.
Proof.
  intros r cov.
  apply (covariance_is_symmetric Standin.two_points r [1%R; 1%R] 0).
  - reflexivity.
  - repeat constructor.
  - simpl. lia.
  - simpl. lia.
  - simpl. lia.
Defined.

Lemma variance_is_not_negative_witness :
  let r := [[(1 / 2)%R; (1 / 2)%R]; [(1 / 2)%R; (1 / 2)%R]] in
  let cov := snd (maximization_step Standin.two_points r [1%R; 1%R]) in
  (0 <= nth 1 (nth 1 (nth 0 cov []) []) 0)%R.
Proof.
  intros r cov.
  apply (variance_is_not_negative Standin.two_points r [1%R; 1%R] 0).
  - reflexivity.
  - repeat constructor.
  - simpl. lia.
  - simpl. lia.
  - intros [ | [ | n]] Hn; simpl in Hn; try lia;
      unfold Spec.entry, r; simpl; lra.
  - unfold Spec.coord. simpl. lra.
Defined.

Lemma weighted_residuals_vanish_witness :
  let r := [[(1 / 2)%R; (1 / 2)%R]; [(1 / 2)%R; (1 / 2)%R]] in
  let mu := fst (maximization_step Standin.two_points r [1%R; 1%R]) in
  Spec.sigma 2
    (fun n => (Spec.entry r n 0
               * (Spec.entry Standin.two_points n 1 - Spec.entry mu 0 1))%R)
  = 0%R.
Proof.
  intros r mu.
  apply (weighted_residuals_vanish Standin.two_points r [1%R; 1%R] 0).
  - reflexivity.
  - simpl. lia.
  - simpl. lia.
  - unfold Spec.coord, Spec.effective_count, Spec.sigma, Spec.entry, r.
    simpl. lra.
  - unfold Spec.coord. simpl. lra.
Defined.

Lemma identical_points_collapse_witness :
  let data := [[3%R; 4%R]; [3%R; 4%R]] in
  let r := [[(1 / 2)%R; (1 / 2)%R]; [(1 / 2)%R; (1 / 2)%R]] in
  Spec.entry (fst (maximization_step data r [1%R; 1%R])) 0 1 = 4%R /\
  nth 0 (nth 1 (nth 0 (snd (maximization_step data r [1%R; 1%R])) []) []) 0%R
  = 0%R.
Proof.
  intros data r.
  apply (identical_points_collapse data r [1%R; 1%R] 0
           eq_refl
           (Forall_cons _ eq_refl (Forall_cons _ eq_refl (Forall_nil _)))
           (Nat.lt_0_succ 1) [3%R; 4%R] 1 0).
  - repeat constructor.
  - simpl. lia.
  - simpl. lia.
  - unfold Spec.coord, Spec.effective_count, Spec.sigma, Spec.entry, r.
    simpl. lra.
  - unfold Spec.coord. simpl. lra.
Defined.

(** * More on the M-step in binary64: a component without points *)

Lemma fdiv_by_zero_not_finite (x z : float) :
  is_zero z = true -> finite (fdiv x z) = false.
Proof.
  destruct z; simpl; try discriminate. intros _. now destruct x.
Qed.

(** X18: an effective count of zero (a component to which the E-step assigned
    nothing) gives the component a mean and a covariance without a single
    finite entry: each is NaN or an infinity. *)
Theorem empty_component_is_not_finite
    (data r : matrix float) (m_c : vector float) (k : nat) :
  (k < length m_c)%nat ->
  is_zero (nth k m_c (of_int 0)) = true ->
  Forall (fun x => finite x = false)
         (nth k (fst (maximization_step data r m_c)) []) /\
  Forall (Forall (fun x => finite x = false))
         (nth k (snd (maximization_step data r m_c)) []).
Proof.
  intros Hk Hzero. unfold maximization_step. cbv zeta. simpl fst. simpl snd.
  rewrite !nth_map_seq by assumption. split.
  - apply Forall_forall. intros x Hx. apply in_map_iff in Hx.
    destruct Hx as (d & <- & _). now apply fdiv_by_zero_not_finite.
  - apply Forall_forall. intros row Hrow. apply in_map_iff in Hrow.
    destruct Hrow as (a & <- & _).
    apply Forall_forall. intros x Hx. apply in_map_iff in Hx.
    destruct Hx as (b & <- & _). now apply fdiv_by_zero_not_finite.
Qed.

Lemma empty_component_is_not_finite_witness :
  let half := fdiv (of_int 1) (of_int 2) in
  fst (maximization_step Standin.two_points
         [[of_int 1; of_int 0]; [of_int 1; of_int 0]] [of_int 2; of_int 0])
  = [[half; half]; [nan; nan]]
  /\ Forall (fun x => finite x = false) [nan; nan].
Proof.
  intros half. split; [reflexivity | ].
  refine (proj1 (empty_component_is_not_finite Standin.two_points
                   [[of_int 1; of_int 0]; [of_int 1; of_int 0]]
                   [of_int 2; of_int 0] 1 _ _)).
  - simpl. lia.
  - reflexivity.
Defined.

(** * More on the scorer *)

(** X19: [D (D + 1)] is even: the true division by 2 in the number of parameters
    gives a whole number, that of the integer division. *)
Theorem parameter_count_is_whole (K D : Z) :
  parameter_count (F:=R) K D = IZR (K * (D + D * (D + 1) / 2 + 1)).
Proof.
  assert (Heven : Z.even (D * (D + 1)) = true).
  { rewrite Z.even_mul. change (D + 1)%Z with (Z.succ D).
    rewrite Z.even_succ, <- Z.negb_even. now destruct (Z.even D). }
  apply Z.even_spec in Heven. destruct Heven as [q Hq].
  unfold parameter_count. simpl.
  rewrite Hq, (Z.mul_comm 2 q), Z.div_mul by lia.
  rewrite !mult_IZR, !plus_IZR. simpl. field.
Qed.

Section ScoreDifferences.

Local Open Scope R_scope.

Import Spec.

Variable frozen_error : vector R -> matrix R -> option exn.
Variable pdf : vector R -> matrix R -> vector R -> R.
Variable log : R -> R.

(** What the scorer returns, when it returns and there is a component. *)
Lemma compute_aic_returned (data mu : matrix R) (cov : list (matrix R))
    (pi : vector R) (a : R) :
  length pi <> 0%nat ->
  compute_aic frozen_error pdf log data mu cov pi = Returned a ->
  a = 2 * free_parameters (length mu) (length (nth 0 mu []))
      - 2 * log_likelihood log (weight pdf data mu cov pi)
                           (length data) (length pi).
Proof.
  intros HK H.
  enough (Hgoal : compute_aic frozen_error pdf log data mu cov pi
                  = Returned
                      (2 * free_parameters (length mu) (length (nth 0 mu []))
                       - 2 * log_likelihood log (weight pdf data mu cov pi)
                                            (length data) (length pi)))
    by (rewrite H in Hgoal; now inversion Hgoal).
  unfold compute_aic in H |- *.
  destruct (index mu 0) as [mu0 | e] eqn:Hmu0; [ | discriminate H].
  apply (index_returned _ _ _ []) in Hmu0. destruct Hmu0 as [_ <-].
  cbv beta iota delta [bind] in H |- *.
  destruct (comprehension _ _) as [w | e] eqn:Hw; [ | discriminate H].
  clear H.
  pose proof (weighted_rows_returned _ _ _ _ _ _ _ Hw) as [Hlen _].
  destruct w as [ | row rows']; [simpl in Hlen; lia | ].
  cbv beta iota zeta. set (w := row :: rows') in *.
  rewrite parameter_count_real, map_map, sum_map_seq.
  unfold log_likelihood.
  rewrite (sigma_ext_log log (length data)
             (fun n => sum (col n w))
             (fun n => sigma (length pi) (weight pdf data mu cov pi n))).
  - reflexivity.
  - intros n Hn.
    now apply weight_row_sum with (frozen_error := frozen_error).
Qed.

(** X20: between two parameter sets with as many components and dimensions, the
    scores differ by twice the difference of the log-likelihoods: the
    parameter count cancels, so the stopping rule of the fit, which keeps
    the shapes, compares log-likelihoods. *)
Theorem score_difference_is_likelihood_gain (data : matrix R)
    (mu1 mu2 : matrix R) (cov1 cov2 : list (matrix R)) (pi1 pi2 : vector R)
    (a1 a2 : R) :
  length pi1 <> 0%nat -> length pi2 <> 0%nat ->
  length mu1 = length mu2 ->
  length (nth 0 mu1 []) = length (nth 0 mu2 []) ->
  compute_aic frozen_error pdf log data mu1 cov1 pi1 = Returned a1 ->
  compute_aic frozen_error pdf log data mu2 cov2 pi2 = Returned a2 ->
  a1 - a2
  = 2 * (log_likelihood log (weight pdf data mu2 cov2 pi2)
                        (length data) (length pi2)
         - log_likelihood log (weight pdf data mu1 cov1 pi1)
                          (length data) (length pi1)).
Proof.
  intros HK1 HK2 Hmu HD H1 H2.
  rewrite (compute_aic_returned _ _ _ _ _ HK1 H1).
  rewrite (compute_aic_returned _ _ _ _ _ HK2 H2).
  rewrite Hmu, HD. ring.
Qed.

End ScoreDifferences.

Lemma score_difference_is_likelihood_gain_witness :
  exists a1 a2,
    compute_aic Standin.accepts_all Standin.flat_pdf ln
      Standin.two_points Standin.two_means Standin.unit_covariances
      Standin.equal_weights = Returned a1 /\
    compute_aic Standin.accepts_all Standin.flat_pdf ln
      Standin.two_points Standin.two_means Standin.unit_covariances
      [3%R; 1%R] = Returned a2 /\
    (a1 - a2
     = 2 * (Spec.log_likelihood ln
              (Spec.weight Standin.flat_pdf Standin.two_points
                 Standin.two_means Standin.unit_covariances [3%R; 1%R]) 2 2
            - Spec.log_likelihood ln
                (Spec.weight Standin.flat_pdf Standin.two_points
                   Standin.two_means Standin.unit_covariances
                   Standin.equal_weights) 2 2))%R.
Proof.
  do 2 eexists. split; [reflexivity | split; [reflexivity | ]].
  apply (score_difference_is_likelihood_gain
           Standin.accepts_all Standin.flat_pdf ln Standin.two_points
           Standin.two_means Standin.two_means
           Standin.unit_covariances Standin.unit_covariances
           Standin.equal_weights [3%R; 1%R]).
  - simpl. discriminate.
  - simpl. discriminate.
  - reflexivity.
  - reflexivity.
  - reflexivity.
  - reflexivity.
Defined.

(** * More on the initializer *)

(** X21: for a component count of 1 or more the initializer returns: as many
    weights and identity covariances as components and, from draws in
    [[0, 1)], means whose coordinates are in [[-2, 2)]. *)
Theorem initialize_parameters_ranges (Seed : Type) (rand : Seed -> nat -> matrix R)
    (num_components : Z) (seed : Seed) :
  (1 <= num_components)%Z ->
  Forall (Forall (fun u => 0 <= u < 1)%R) (rand seed (Z.to_nat num_components)) ->
  exists pis mus sigmas,
    initialize_parameters rand num_components seed = Returned (pis, mus, sigmas) /\
    length pis = Z.to_nat num_components /\
    sigmas = repeat (eye 2) (Z.to_nat num_components) /\
    length mus = length (rand seed (Z.to_nat num_components)) /\
    Forall (Forall (fun m => -2 <= m < 2)%R) mus.
Proof.
  intros HK Hdraws. unfold initialize_parameters.
  destruct (Z.eqb_spec num_components 0) as [ | _]; [lia | ].
  destruct (Z.ltb_spec num_components 0) as [ | _]; [lia | ].
  do 3 eexists. split; [reflexivity | ].
  split; [apply repeat_length | ].
  split; [unfold range; rewrite map_map; apply map_constant_seq | ].
  split; [apply length_map | ].
  apply Forall_forall. intros row Hrow. apply in_map_iff in Hrow.
  destruct Hrow as (draw & <- & Hin).
  rewrite Forall_forall in Hdraws. specialize (Hdraws draw Hin).
  apply Forall_forall. intros m Hm. apply in_map_iff in Hm.
  destruct Hm as (u & <- & Hu).
  rewrite Forall_forall in Hdraws. specialize (Hdraws u Hu).
  simpl. lra.
Qed.

Lemma initialize_parameters_ranges_witness :
  exists pis mus sigmas,
    initialize_parameters (F:=R) Standin.half_rand 3 tt
      = Returned (pis, mus, sigmas) /\
    length pis = 3%nat /\
    sigmas = repeat (eye 2) 3 /\
    length mus = length (Standin.half_rand (F:=R) tt 3) /\
    Forall (Forall (fun m => -2 <= m < 2)%R) mus.
Proof.
  apply (initialize_parameters_ranges unit Standin.half_rand 3 tt).
  - lia.
  - unfold Standin.half_rand. simpl. repeat constructor; simpl; lra.
Defined.

(** * The shapes through the fit *)

Section Shapes.

Context {F : Type} {FA : Arith F}.

(** The M-step returns one mean and one covariance per effective count,
    with as many coordinates as the data has columns. *)
Lemma maximization_step_shapes (data r : matrix F) (m_c : vector F) :
  parameter_shape (length m_c) (ncols data) m_c
    (fst (maximization_step data r m_c)) (snd (maximization_step data r m_c)).
Proof.
  unfold parameter_shape, maximization_step. cbv zeta. simpl fst. simpl snd.
  rewrite !length_map, !length_seq. repeat split.
  - apply Forall_forall. intros m Hm. apply in_map_iff in Hm.
    destruct Hm as (i & <- & _). now rewrite length_map, length_seq.
  - apply Forall_forall. intros c Hc. apply in_map_iff in Hc.
    destruct Hc as (i & <- & _). split.
    + now rewrite length_map, length_seq.
    + apply Forall_forall. intros row Hrow. apply in_map_iff in Hrow.
      destruct Hrow as (a & <- & _). now rewrite length_map, length_seq.
Qed.

Variable linspace : F -> F -> nat -> vector F.
Variable frozen_error : vector F -> matrix F -> option exn.
Variable pdf : vector F -> matrix F -> vector F -> F.
Variable scorer :
  matrix F -> matrix F -> list (matrix F) -> vector F -> result float.
Variable data : matrix F.
Variable max_iter : Z.
Variable threshold : float.

(** X22: the fit keeps the number of components it is given, and after the
    first iteration its means and covariances have the dimension of the
    data, whatever the shape of the means and covariances it was given. *)
Theorem fit_keeps_the_shapes (pi : vector F) (mu : matrix F)
    (cov : list (matrix F)) (n : nat)
    (s : fit_state (vector F) (matrix F) (list (matrix F))) :
  at_iteration (e_step frozen_error pdf) m_step scorer
      (plot_step linspace frozen_error pdf) data max_iter threshold
               (initial_state pi mu cov) (S n) s
  \/ run_ends (e_step frozen_error pdf) m_step scorer
      (plot_step linspace frozen_error pdf) data max_iter threshold
              (initial_state pi mu cov) (S n) s ->
  parameter_shape (length pi) (ncols data) (st_pi s) (st_mu s) (st_cov s).
Proof.
  assert (Hhead : forall j sj,
    at_iteration (e_step frozen_error pdf) m_step scorer
      (plot_step linspace frozen_error pdf) data max_iter threshold
                 (initial_state pi mu cov) j sj ->
    length (st_pi sj) = length pi).
  { intros j sj Hreach. induction Hreach as [ | j sj s' Hreach IH Hlt Hbody];
      [reflexivity | ].
    apply loop_body_steps in Hbody.
    destruct Hbody as (r & m_c & pi' & mu' & cov' & a & HE & _ & _ & Hpi & _).
    simpl in Hpi. rewrite Hpi.
    destruct (expectation_step_lengths _ _ _ _ _ _ _ _ _ HE) as (_ & _ & _ & ->).
    exact IH. }
  assert (Hstep : forall j sj f,
    at_iteration (e_step frozen_error pdf) m_step scorer
      (plot_step linspace frozen_error pdf) data max_iter threshold
                 (initial_state pi mu cov) j sj ->
    loop_body (e_step frozen_error pdf) m_step scorer
      (plot_step linspace frozen_error pdf) data max_iter threshold
              (Z.of_nat j) sj = Returned f ->
    parameter_shape (length pi) (ncols data) (st_pi (flow_state f))
                    (st_mu (flow_state f)) (st_cov (flow_state f))).
  { intros j sj f Hreach Hbody. apply loop_body_steps in Hbody.
    destruct Hbody as (r & m_c & pi' & mu' & cov' & a & HE & HM & _ & Hpi & Hmu
                       & Hcov & _).
    rewrite Hpi, Hmu, Hcov.
    destruct (expectation_step_lengths _ _ _ _ _ _ _ _ _ HE)
      as (_ & _ & Hlen_m & Hlen_pi).
    rewrite (Hhead j sj Hreach) in Hlen_m, Hlen_pi.
    assert (HM' : maximization_step data r m_c = (mu', cov'))
      by (unfold m_step in HM; congruence).
    pose proof (maximization_step_shapes data r m_c) as Hshape.
    rewrite HM' in Hshape. simpl in Hshape. rewrite Hlen_m in Hshape.
    destruct Hshape as (_ & Hrest). split; assumption. }
  intros [Hreach | Hends].
  - inversion Hreach as [ | j sj s' Hprev Hlt Hbody]; subst.
    exact (Hstep n sj (Continue s) Hprev Hbody).
  - remember (S n) as m eqn:Hm.
    destruct Hends as [s Hreach | j sj s Hprev Hlt Hbody].
    + rewrite Hm in Hreach.
      inversion Hreach as [ | j sj s' Hprev Hlt Hbody]; subst.
      exact (Hstep n sj (Continue s) Hprev Hbody).
    + injection Hm as ->.
      exact (Hstep n sj (Return s) Hprev Hbody).
Qed.

End Shapes.

Lemma fit_keeps_the_shapes_witness :
  exists s,
    at_iteration (e_step (F:=float) Standin.accepts_all Standin.flat_pdf) m_step
                 (Standin.constant_scorer (of_int 3))
                 (plot_step Standin.two_ticks Standin.accepts_all
                            Standin.flat_pdf)
                 Standin.two_points
                 200 (of_int 1)
                 (initial_state Standin.equal_weights Standin.two_means
                                Standin.unit_covariances) 1 s /\
    parameter_shape 2 2 (st_pi s) (st_mu s) (st_cov s).
Proof.
  assert (Hbody : exists s,
    loop_body (e_step (F:=float) Standin.accepts_all Standin.flat_pdf) m_step
              (Standin.constant_scorer (of_int 3))
              (plot_step Standin.two_ticks Standin.accepts_all
                         Standin.flat_pdf)
              Standin.two_points
              200 (of_int 1) (Z.of_nat 0)
              (initial_state Standin.equal_weights Standin.two_means
                             Standin.unit_covariances)
    = Returned (Continue s)).
  { eexists. vm_compute. reflexivity. }
  destruct Hbody as [s Hs].
  assert (Hreach :
    at_iteration (e_step (F:=float) Standin.accepts_all Standin.flat_pdf) m_step
                 (Standin.constant_scorer (of_int 3))
                 (plot_step Standin.two_ticks Standin.accepts_all
                            Standin.flat_pdf)
                 Standin.two_points
                 200 (of_int 1)
                 (initial_state Standin.equal_weights Standin.two_means
                                Standin.unit_covariances) 1 s).
  { apply at_next with (s := initial_state Standin.equal_weights
                               Standin.two_means Standin.unit_covariances);
      [apply at_start | simpl; lia | exact Hs]. }
  exists s. split; [exact Hreach | ].
  exact (fit_keeps_the_shapes (F:=float) Standin.two_ticks
           Standin.accepts_all Standin.flat_pdf
           (Standin.constant_scorer (of_int 3)) Standin.two_points
           200 (of_int 1) Standin.equal_weights Standin.two_means
           Standin.unit_covariances 0 s (or_introl Hreach)).
Defined.

(** * The sample generator *)

Section Generator.

Context {F : Type} {FA : Arith F}.

Variable Rng : Type.
Variable seeded : Z -> Rng.
Variable draw :
  Rng -> vector F -> matrix F -> nat -> result (matrix F * Rng).

Lemma comprehension_returned {A B : Type} (f : A -> result B) (xs : list A)
    (ys : list B) :
  comprehension f xs = Returned ys ->
  Forall2 (fun x y => f x = Returned y) xs ys.
Proof.
  revert ys. induction xs as [ | x xs IH]; intros ys; simpl.
  - intros H. inversion H. constructor.
  - destruct (f x) as [y | e] eqn:Hfx; simpl; [ | discriminate].
    destruct (comprehension f xs) as [ys' | e]; simpl; [ | discriminate].
    intros H. inversion H; subst ys. constructor; auto.
Qed.

Lemma broadcast_row_length (D : nat) (row out : vector F) :
  broadcast_row D row = Returned out -> length out = D.
Proof.
  unfold broadcast_row.
  destruct (Nat.eqb_spec (length row) D) as [Hlen | _].
  - intros H. inversion H. now subst.
  - destruct (length row =? 1)%nat; [ | discriminate].
    intros H. inversion H. apply repeat_length.
Qed.

Lemma broadcast_rows_shape (D : nat) (block rows : matrix F) :
  comprehension (broadcast_row D) block = Returned rows ->
  length rows = length block /\ Forall (fun row => length row = D) rows.
Proof.
  intros H. apply comprehension_returned in H.
  induction H as [ | x y xs ys Hxy _ IH]; [split; constructor | ].
  destruct IH as [Hlen Hrows]. split; [simpl; congruence | ].
  constructor; [ | assumption]. now apply broadcast_row_length in Hxy.
Qed.

Lemma skipn_repeat {A : Type} (z : A) (k n : nat) :
  skipn k (repeat z n) = repeat z (n - k).
Proof.
  revert n. induction k as [ | k IH]; intros [ | n]; simpl; auto.
Qed.

(** The loop over the components, from a state of the array in which the
    first [i] blocks are filled and the rest is zero. *)
Lemma fill_samples_returned (D : nat) (z : vector F) (extra : nat) :
  forall (pairs : list (vector F * matrix F)) (i : nat) (rng : Rng)
         (done out : matrix F) (n : nat),
    length done = (2000 * i)%nat ->
    n = (2000 * length pairs + extra)%nat ->
    fill_samples draw D i pairs rng (done ++ repeat z n) = Returned out ->
    exists blocks,
      drawn_in_turn draw D rng pairs blocks /\
      out = done ++ concat blocks ++ repeat z extra.
Proof.
  induction pairs as [ | [mean covariance] pairs IH];
    intros i rng done out n Hdone Hn Hfill.
  - cbn [fill_samples] in Hfill. inversion Hfill.
    exists []. split; [constructor | ].
    cbn [length] in Hn. rewrite Nat.mul_0_r in Hn. now subst n.
  - cbn [fill_samples] in Hfill.
    destruct (draw rng mean covariance 2000) as [[block rng'] | e] eqn:Hdraw;
      [ | discriminate].
    cbv beta iota delta [bind] in Hfill. unfold assign_block in Hfill.
    destruct (Nat.eqb_spec (length block) 2000) as [Hblock | _];
      [ | discriminate].
    destruct (comprehension (broadcast_row D) block) as [rows | e] eqn:Hrows;
      [ | discriminate].
    cbv beta iota delta [bind] in Hfill.
    destruct (broadcast_rows_shape D block rows Hrows) as [Hlen _].
    rewrite Hblock in Hlen. cbn [length] in Hn.
    assert (Hnext : exists blocks,
              drawn_in_turn draw D rng' pairs blocks /\
              out = (done ++ rows) ++ concat blocks ++ repeat z extra).
    { unfold matrix, vector in *.
      remember 2000%nat as B eqn:HB in Hdone, Hn, Hfill, Hlen, IH.
      pose proof (Nat.mul_succ_r B i) as Hi.
      pose proof (Nat.mul_succ_r B (length pairs)) as Hp.
      pose proof (Nat.mul_comm i B) as Hc.
      rewrite firstn_app, firstn_all2, skipn_app, skipn_all2 in Hfill by lia.
      replace (i * B - length done)%nat with 0%nat in Hfill by lia.
      replace (i * B + B - length done)%nat with B in Hfill by lia.
      rewrite firstn_O, app_nil_r, skipn_repeat, app_nil_l, app_assoc in Hfill.
      apply (IH (S i)) in Hfill; [assumption | rewrite length_app; lia | lia]. }
    destruct Hnext as (blocks & Hblocks & ->).
    exists (rows :: blocks). split.
    + now apply drawn_next with (block := block) (rng' := rng').
    + cbn [concat]. now rewrite <- !app_assoc.
Qed.

Lemma drawn_blocks_shape (D : nat) (rng : Rng)
    (pairs : list (vector F * matrix F)) (blocks : list (matrix F)) :
  drawn_in_turn draw D rng pairs blocks ->
  length (concat blocks) = (2000 * length pairs)%nat /\
  Forall (fun row => length row = D) (concat blocks).
Proof.
  induction 1 as [ | rng mean covariance pairs block rng' rows blocks
                     Hdraw Hblock Hrows Hrest IH].
  - split; [cbn [concat length]; now rewrite Nat.mul_0_r | constructor].
  - destruct IH as [Hlen Hall].
    destruct (broadcast_rows_shape D block rows Hrows) as [Hlen_rows Hshape].
    cbn [concat length]. split.
    + rewrite length_app, Hlen_rows, Hblock, Hlen, Nat.mul_succ_r.
      apply Nat.add_comm.
    + apply Forall_app. split; assumption.
Qed.

(** What the generator has done when it returns. *)
Lemma generate_gaussian_samples_returned (mu : matrix F)
    (cov : list (matrix F)) (samples : matrix F) (figure : samples_figure) :
  generate_gaussian_samples seeded draw mu cov = Returned (samples, figure) ->
  mu <> [] /\
  (2 <= length (nth 0 mu []))%nat /\
  scatter_x figure = col 0 samples /\
  scatter_y figure = col 1 samples /\
  exists blocks,
    drawn_in_turn draw (length (nth 0 mu [])) (seeded 1) (combine mu cov) blocks /\
    samples
    = concat blocks
      ++ repeat (repeat (of_Z 0) (length (nth 0 mu [])))
                (2000 * (length mu - length cov)).
Proof.
  unfold generate_gaussian_samples.
  destruct (index mu 0) as [mu0 | e] eqn:Hmu0; [ | discriminate].
  apply (index_returned _ _ _ []) in Hmu0. destruct Hmu0 as [Hmu <-].
  cbv beta iota zeta delta [bind].
  destruct (fill_samples _ _ _ _ _ _) as [out | e] eqn:Hfill; [ | discriminate].
  unfold column.
  destruct (0 <? length (nth 0 mu []))%nat; [ | discriminate].
  destruct (Nat.ltb_spec 1 (length (nth 0 mu []))) as [HD | _];
    [ | discriminate].
  intros H. inversion H; subst; clear H.
  cbn [scatter_x scatter_y].
  split; [destruct mu; [cbn [length] in Hmu; lia | discriminate] | ].
  split; [lia | ]. split; [reflexivity | ]. split; [reflexivity | ].
  apply (fill_samples_returned _ _ (2000 * (length mu - length cov))
           (combine mu cov) 0 (seeded 1) []) in Hfill.
  - destruct Hfill as (blocks & Hblocks & Hout). exists blocks.
    split; assumption.
  - cbn [length]. now rewrite Nat.mul_0_r.
  - rewrite length_combine, <- Nat.mul_add_distr_l. f_equal. lia.
Qed.

(** The shape of what the generator returns. *)
Lemma generated_shape (mu : matrix F) (cov : list (matrix F))
    (samples : matrix F) (figure : samples_figure) :
  generate_gaussian_samples seeded draw mu cov = Returned (samples, figure) ->
  length samples = (2000 * length mu)%nat /\
  Forall (fun row => length row = length (nth 0 mu [])) samples.
Proof.
  intros H. apply generate_gaussian_samples_returned in H.
  destruct H as (_ & _ & _ & _ & blocks & Hblocks & Hsamples).
  apply drawn_blocks_shape in Hblocks. destruct Hblocks as [Hlen Hall].
  rewrite Hsamples. split.
  - rewrite length_app, repeat_length, Hlen, length_combine,
      <- Nat.mul_add_distr_l.
    f_equal. lia.
  - apply Forall_app. split; [assumption | ].
    apply Forall_forall. intros row Hrow. apply repeat_spec in Hrow.
    subst row. apply repeat_length.
Qed.

(** X23: the samples are the draws of the components, stacked in order, 2000
    rows each and each draw made in the state of the generator that the
    draw before it left, the first in that of seed 1; the components
    without a covariance are left as rows of zeros. *)
Theorem generated_samples_layout (mu : matrix F) (cov : list (matrix F))
    (samples : matrix F) (figure : samples_figure) :
  generate_gaussian_samples seeded draw mu cov = Returned (samples, figure) ->
  exists blocks,
    drawn_in_turn draw (length (nth 0 mu [])) (seeded 1) (combine mu cov) blocks /\
    samples
    = concat blocks
      ++ repeat (repeat (of_Z 0) (length (nth 0 mu [])))
                (2000 * (length mu - length cov)).
Proof.
  intros H. apply generate_gaussian_samples_returned in H.
  destruct H as (_ & _ & _ & _ & Hblocks). exact Hblocks.
Qed.

(** X24: the samples have 2000 rows per mean and as many columns as the first
    mean has coordinates, two at least: with a first mean of fewer
    coordinates, and with no mean at all, the function raises.  The figure
    scatters the first two columns. *)
Theorem generated_samples_shape (mu : matrix F) (cov : list (matrix F))
    (samples : matrix F) (figure : samples_figure) :
  generate_gaussian_samples seeded draw mu cov = Returned (samples, figure) ->
  mu <> [] /\
  (2 <= length (nth 0 mu []))%nat /\
  length samples = (2000 * length mu)%nat /\
  Forall (fun row => length row = length (nth 0 mu [])) samples /\
  scatter_x figure = col 0 samples /\
  scatter_y figure = col 1 samples.
Proof.
  intros H. destruct (generated_shape mu cov samples figure H) as [Hrows Hcols].
  apply generate_gaussian_samples_returned in H.
  destruct H as (Hmu & HD & Hx & Hy & _).
  repeat split; assumption.
Qed.

End Generator.

Lemma generated_samples_layout_witness :
  exists samples figure blocks,
    generate_gaussian_samples (F:=float) Standin.counting_seed Standin.mean_draw
      Standin.two_means Standin.unit_covariances = Returned (samples, figure) /\
    drawn_in_turn Standin.mean_draw 2 (Standin.counting_seed 1)
      (combine Standin.two_means Standin.unit_covariances) blocks /\
    samples = concat blocks ++ [].
Proof.
  assert (Hret : exists out,
    generate_gaussian_samples (F:=float) Standin.counting_seed Standin.mean_draw
      Standin.two_means Standin.unit_covariances = Returned out).
  { eexists. vm_compute. reflexivity. }
  destruct Hret as [[samples figure] Hret].
  destruct (generated_samples_layout nat Standin.counting_seed Standin.mean_draw
              Standin.two_means Standin.unit_covariances samples figure Hret)
    as (blocks & Hblocks & Hsamples).
  exists samples, figure, blocks. repeat split; assumption.
Defined.

Lemma generated_samples_shape_witness :
  exists samples figure,
    generate_gaussian_samples (F:=float) Standin.counting_seed Standin.mean_draw
      Standin.two_means Standin.unit_covariances = Returned (samples, figure) /\
    length samples = (2000 * 2)%nat /\
    scatter_x figure = col 0 samples.
Proof.
  assert (Hret : exists out,
    generate_gaussian_samples (F:=float) Standin.counting_seed Standin.mean_draw
      Standin.two_means Standin.unit_covariances = Returned out).
  { eexists. vm_compute. reflexivity. }
  destruct Hret as [[samples figure] Hret].
  destruct (generated_samples_shape nat Standin.counting_seed Standin.mean_draw
              Standin.two_means Standin.unit_covariances samples figure Hret)
    as (_ & _ & Hlen & _ & Hx & _).
  exists samples, figure. repeat split; assumption.
Defined.

(** * The plot of the mixture *)

Section Plot.

Local Open Scope R_scope.

Import Spec.

Variable linspace : R -> R -> nat -> vector R.
Variable frozen_error : vector R -> matrix R -> option exn.
Variable pdf : vector R -> matrix R -> vector R -> R.

Lemma nth_map_in_range {A B : Type} (f : A -> B) (l : list A) (i : nat)
    (dA : A) (dB : B) :
  (i < length l)%nat -> nth i (map f l) dB = f (nth i l dA).
Proof.
  intros Hi. rewrite (nth_indep _ dB (f dA)) by (now rewrite length_map).
  apply map_nth.
Qed.

Lemma add_component_returned (pos : list (list (vector R))) (mu : matrix R)
    (cov : list (matrix R)) (pi : vector R) (total out : matrix R) (k : nat) :
  over_mesh pos total ->
  add_component frozen_error pdf pos mu cov pi total k = Returned out ->
  over_mesh pos out /\
  forall i j, (i < length pos)%nat -> (j < length (nth i pos []))%nat ->
    entry out i j
    = entry total i j
      + coord pi k * pdf (nth k mu []) (nth k cov []) (nth j (nth i pos []) []).
Proof.
  intros [Hrows Hcols]. unfold add_component.
  destruct (index mu k) as [m | e] eqn:Hm; [ | discriminate].
  apply (index_returned _ _ _ []) in Hm. destruct Hm as [_ <-].
  cbv beta iota delta [bind].
  destruct (index cov k) as [c | e] eqn:Hc; [ | discriminate].
  apply (index_returned _ _ _ []) in Hc. destruct Hc as [_ <-].
  unfold multivariate_normal.
  destruct (frozen_error _ _); [discriminate | ].
  destruct (index pi k) as [p | e] eqn:Hp; [ | discriminate].
  apply (index_returned _ _ _ 0) in Hp. destruct Hp as [_ <-].
  destruct (length (nth k mu []) =? 2)%nat; [ | discriminate].
  intros H. inversion H; subst out; clear H.
  unfold over_mesh, entry, coord, matrix, vector in *.
  assert (Hrow : forall i, (i < length pos)%nat ->
            nth i (zip_with (zip_with Rplus) total
                     (map (map (fun point =>
                                  nth k pi 0
                                  * pdf (nth k mu []) (nth k cov []) point))
                          pos)) []
            = zip_with Rplus (nth i total [])
                (map (fun point =>
                        nth k pi 0 * pdf (nth k mu []) (nth k cov []) point)
                     (nth i pos []))).
  { intros i Hi.
    rewrite (nth_zip_with _ _ _ _ [] [] [])
      by (rewrite ?length_map; unfold matrix, vector in *; lia).
    now rewrite (nth_map_in_range _ pos i [] []) by assumption. }
  split; [split | ].
  - rewrite length_zip_with, length_map. unfold matrix, vector in *. lia.
  - intros i Hi. rewrite (Hrow i Hi), length_zip_with, length_map.
    specialize (Hcols i Hi). unfold matrix, vector in *. lia.
  - intros i j Hi Hj. unfold entry, coord. rewrite (Hrow i Hi).
    specialize (Hcols i Hi).
    rewrite (nth_zip_with _ _ _ _ 0 0 0)
      by (rewrite ?length_map; unfold matrix, vector in *; lia).
    now rewrite (nth_map_in_range _ (nth i pos []) j [] 0) by assumption.
Qed.

Lemma accumulate_density_returned (pos : list (list (vector R)))
    (mu : matrix R) (cov : list (matrix R)) (pi : vector R) :
  forall (n a : nat) (total out : matrix R),
    over_mesh pos total ->
    accumulate_density frozen_error pdf pos mu cov pi total (seq a n)
    = Returned out ->
    over_mesh pos out /\
    forall i j, (i < length pos)%nat -> (j < length (nth i pos []))%nat ->
      entry out i j
      = entry total i j
        + fold_right Rplus 0
            (map (fun k => coord pi k
                           * pdf (nth k mu []) (nth k cov [])
                                 (nth j (nth i pos []) []))
                 (seq a n)).
Proof.
  induction n as [ | n IH]; intros a total out Hmesh Hacc.
  - simpl in Hacc. inversion Hacc; subst out. split; [assumption | ].
    intros i j _ _. simpl. ring.
  - simpl in Hacc.
    destruct (add_component frozen_error pdf pos mu cov pi total a)
      as [total' | e] eqn:Hadd; [ | discriminate].
    cbv beta iota delta [bind] in Hacc.
    destruct (add_component_returned _ _ _ _ _ _ _ Hmesh Hadd)
      as [Hmesh' Hentry].
    destruct (IH (S a) total' out Hmesh' Hacc) as [Hout Hsum].
    split; [assumption | ]. intros i j Hi Hj.
    rewrite (Hsum i j Hi Hj), (Hentry i j Hi Hj). simpl. ring.
Qed.

(** X25: the density that the plot draws at a point of the mesh is the density
    of the mixture there, the sum over the components of weight times
    component density, which is the quantity whose logarithm the scorer
    sums over the data; the mesh has one row and one column per tick.  The
    points scattered over it are the first two columns of the data, which
    has two columns at least. *)
Theorem plotted_density_is_the_mixture (data mu : matrix R)
    (cov : list (matrix R)) (pi : vector R) (figure : mixture_figure) :
  plot_gaussian_mixtures linspace frozen_error pdf data mu cov pi
    = Returned figure ->
  length (contour_density figure) = length (axis_ticks linspace) /\
  (forall i j,
     (i < length (axis_ticks linspace))%nat ->
     (j < length (axis_ticks linspace))%nat ->
     entry (contour_density figure) i j
     = sigma (length pi)
         (weight pdf
            [[coord (axis_ticks linspace) j; coord (axis_ticks linspace) i]]
            mu cov pi 0)) /\
  (2 <= ncols data)%nat /\
  data_x figure = col 0 data /\
  data_y figure = col 1 data.
Proof.
  unfold plot_gaussian_mixtures. set (ticks := axis_ticks linspace).
  cbv zeta.
  destruct (accumulate_density _ _ _ _ _ _ _ _) as [total | e] eqn:Hacc;
    [ | discriminate].
  cbv beta iota delta [bind]. unfold column.
  destruct (0 <? ncols data)%nat; [ | discriminate].
  destruct (Nat.ltb_spec 1 (ncols data)) as [HD | _]; [ | discriminate].
  intros H. inversion H; subst figure; clear H. simpl.
  assert (Hlen : length (mesh_points ticks) = length ticks)
    by (unfold mesh_points; apply length_map).
  assert (Hpos : forall i, (i < length ticks)%nat ->
            nth i (mesh_points ticks) []
            = map (fun x => [x; nth i ticks 0]) ticks).
  { intros i Hi. unfold mesh_points.
    now rewrite (nth_map_in_range _ ticks i 0 []) by assumption. }
  assert (Hzeros : over_mesh (mesh_points ticks)
                     (map (map (fun _ => of_Z 0)) (mesh_points ticks))).
  { split; [apply length_map | ]. intros i Hi.
    rewrite (nth_map_in_range _ (mesh_points ticks) i [] []) by assumption.
    apply length_map. }
  destruct (accumulate_density_returned _ _ _ _ _ _ _ _ Hzeros Hacc)
    as [[Hrows _] Hentry].
  split; [unfold matrix, vector in *; lia | ].
  split; [ | repeat split; (assumption || lia)].
  intros i j Hi Hj.
  rewrite Hentry
    by (rewrite ?Hpos, ?length_map by assumption;
        unfold matrix, vector in *; lia).
  replace (entry (map (map (fun _ => of_Z 0)) (mesh_points ticks)) i j)
    with 0.
  - rewrite Rplus_0_l. unfold sigma. apply f_equal, map_ext. intros k.
    unfold weight. rewrite (Hpos i Hi).
    rewrite (nth_map_in_range _ ticks j 0 []) by assumption. reflexivity.
  - unfold entry.
    rewrite (nth_map_in_range _ (mesh_points ticks) i [] []), (Hpos i Hi)
      by (unfold matrix, vector in *; lia).
    rewrite (nth_map_in_range _ _ j [] 0) by (now rewrite length_map).
    reflexivity.
Qed.

End Plot.

Lemma plotted_density_is_the_mixture_witness :
  exists figure,
    plot_gaussian_mixtures Standin.two_ticks Standin.accepts_all
      Standin.flat_pdf Standin.two_points Standin.two_means
      Standin.unit_covariances Standin.equal_weights = Returned figure /\
    Spec.entry (contour_density figure) 1 0
    = Spec.sigma 2
        (Spec.weight Standin.flat_pdf [[(-4)%R; 4%R]] Standin.two_means
           Standin.unit_covariances Standin.equal_weights 0).
Proof.
  eexists. split; [reflexivity | ].
  refine (proj1 (proj2 (plotted_density_is_the_mixture Standin.two_ticks
            Standin.accepts_all Standin.flat_pdf Standin.two_points
            Standin.two_means Standin.unit_covariances Standin.equal_weights
            _ eq_refl)) 1%nat 0%nat _ _); simpl; lia.
Defined.

(** * [main] *)

Section ScoreCount.

Variables Data Pi Mu Cov Resp Counts Shown : Type.
Variable expectation : Data -> Mu -> Cov -> Pi -> result (Resp * Counts * Pi).
Variable maximization : Data -> Resp -> Counts -> result (Mu * Cov).
Variable scorer : Data -> Mu -> Cov -> Pi -> result float.
Variable plot : Data -> Mu -> Cov -> Pi -> result Shown.
Variable data : Data.
Variable max_iter : Z.
Variable threshold : float.

(** The number of scores of a run: the budget, or between four and the
    budget when the early stop has fired. *)
Lemma score_count_bounds pi mu cov (f : flow Pi Mu Cov) :
  run_em_loop expectation maximization scorer plot data max_iter threshold pi mu cov
    = Returned f ->
  (Nat.min 4 (Z.to_nat max_iter) <= length (aic_list (final_state max_iter f))
   <= Z.to_nat max_iter)%nat.
Proof.
  intros Hloop. unfold run_em_loop, range in Hloop.
  apply for_loop_reaches with (s0 := initial_state pi mu cov) in Hloop;
    [ | constructor | lia].
  destruct Hloop as [(s' & -> & Hreach)
                    | (j & sj & s' & -> & Hreach & Hlt & Hbody)].
  - unfold final_state. cbn [aic_list].
    rewrite (proj1 (head_invariant_holds Hreach)). lia.
  - pose proof (head_invariant_holds Hreach) as (Hlen & Hcount & Hzero & Hpos).
    apply loop_body_steps in Hbody.
    destruct Hbody as (r & m_c & pi' & mu' & cov' & a & _ & _ & _ & _ & _ & _
                       & Hl & Hcase).
    unfold final_state. cbn [flow_state] in Hl.
    rewrite Hl, length_app, Hlen. cbn [length].
    destruct (flt (fsub (previous_aic sj) a) threshold).
    + destruct Hcase as [_ Hcase].
      destruct (Z.leb_spec 3 (no_improve_count sj + 1)) as [Hge | Hsmall].
      * destruct j as [ | j]; [destruct (Hzero eq_refl) as [_ Hc]; lia | lia].
      * destruct Hcase as (s'' & Habs & _). discriminate.
    + destruct Hcase as (s'' & Habs & _). discriminate.
Qed.

End ScoreCount.

Section Main.

Context {F : Type} {FA : Arith F}.

Variable Rng : Type.
Variable seeded : Z -> Rng.
Variable draw :
  Rng -> vector F -> matrix F -> nat -> result (matrix F * Rng).
Variable linspace : F -> F -> nat -> vector F.
Variable frozen_error : vector F -> matrix F -> option exn.
Variable pdf : vector F -> matrix F -> vector F -> F.
Variable rand : Z -> nat -> matrix F.
Variable scorer :
  matrix F -> matrix F -> list (matrix F) -> vector F -> result float.

(** X26: whatever the library draws and computes, a [main] that gets to the end
    has scattered 8000 samples and plots the scores of a fit of four
    components to them: at least 4 scores and at most 200, the very list
    that the fit returns. *)
Theorem main_plots_the_scores_of_the_fit (out : main_output) :
  main seeded draw linspace frozen_error pdf rand scorer = Returned out ->
  length (scatter_x (shown_samples out)) = (2000 * 4)%nat /\
  length (scatter_y (shown_samples out)) = (2000 * 4)%nat /\
  (4 <= length (plotted_scores out) <= 200)%nat /\
  exists samples figure pis mus sigmas,
    generate_gaussian_samples seeded draw true_means true_covariances
    = Returned (samples, figure) /\
    initialize_parameters rand 4 0%Z = Returned (pis, mus, sigmas) /\
    length pis = 4%nat /\
    run_em_algorithm (e_step frozen_error pdf) m_step scorer
                     (plot_step linspace frozen_error pdf) samples 200
                     (fdiv (of_int 1) (of_int 10)) pis mus sigmas
    = Returned (plotted_scores out).
Proof.
  unfold main.
  destruct (generate_gaussian_samples seeded draw true_means true_covariances)
    as [[samples figure] | e] eqn:Hgen; [ | discriminate].
  cbv beta iota delta [bind].
  destruct (initialize_parameters rand 4 0%Z) as [[[pis mus] sigmas] | e]
    eqn:Hinit; [ | discriminate].
  cbv beta iota.
  destruct (run_em_loop _ _ _ _ _ _ _ _ _) as [f | e] eqn:Hloop;
    [ | discriminate].
  cbv beta iota zeta. intros H. inversion H; subst out; clear H.
  cbn [shown_samples printed plotted_scores].
  destruct (generated_shape _ _ _ _ _ _ _ Hgen) as [Hrows _].
  change (length true_means) with 4%nat in Hrows.
  apply generate_gaussian_samples_returned in Hgen.
  destruct Hgen as (_ & _ & Hx & Hy & _).
  pose proof Hloop as Hbounds. apply score_count_bounds in Hbounds.
  change (Z.to_nat 200) with 200%nat in Hbounds.
  split; [now rewrite Hx, length_col | ].
  split; [now rewrite Hy, length_col | ].
  split; [cbn [Nat.min] in Hbounds; lia | ].
  exists samples, figure, pis, mus, sigmas.
  split; [reflexivity | ]. split; [reflexivity | ].
  split.
  - unfold initialize_parameters in Hinit. simpl in Hinit.
    inversion Hinit. reflexivity.
  - unfold run_em_algorithm. rewrite Hloop. reflexivity.
Qed.

End Main.

(** * The fit raises through the library only *)

Section Outcomes.

Context {F : Type} {FA : Arith F}.

Variable linspace : F -> F -> nat -> vector F.
Variable frozen_error : vector F -> matrix F -> option exn.
Variable pdf : vector F -> matrix F -> vector F -> F.
Variable scorer :
  matrix F -> matrix F -> list (matrix F) -> vector F -> result float.
Variable data : matrix F.
Variable max_iter : Z.
Variable threshold : float.

(** The library refuses, with [e], the mean and the covariance of one of
    the components. *)
Local Abbreviation refused mu cov pi e :=
  (exists k, lt k (length pi) /\
             frozen_error (nth k mu []) (nth k cov []) = Some e).

(** A call returns, or raises an exception for which [P] holds. *)
Local Abbreviation outcome P c :=
  (returns c \/ exists e, c = Raised e /\ P e).

Local Abbreviation body :=
  (loop_body (e_step frozen_error pdf) m_step scorer
             (plot_step linspace frozen_error pdf) data max_iter threshold).
Local Abbreviation loop :=
  (for_loop (e_step frozen_error pdf) m_step scorer
            (plot_step linspace frozen_error pdf) data max_iter threshold).
Local Abbreviation reach :=
  (at_iteration (e_step frozen_error pdf) m_step scorer
                (plot_step linspace frozen_error pdf) data max_iter threshold).

(** One weight at least, and one mean and one covariance per weight. *)
Local Abbreviation well_shaped s :=
  (length (st_pi s) <> 0%nat /\
   length (st_mu s) = length (st_pi s) /\
   length (st_cov s) = length (st_pi s)).

(** The library refuses, with [e], a component of the parameters with
    which the iteration starts, or a component of those that its M-step
    makes. *)
Local Abbreviation refused_in s e :=
  (refused (st_mu s) (st_cov s) (st_pi s) e \/
   exists r m_c pi',
     expectation_step frozen_error pdf data (st_mu s) (st_cov s) (st_pi s)
     = Returned (r, m_c, pi') /\
     refused (fst (maximization_step data r m_c))
             (snd (maximization_step data r m_c)) pi' e).

Lemma comprehension_outcome {A B : Type} (P : exn -> Prop)
    (f : A -> result B) (xs : list A) :
  (forall x, In x xs -> outcome P (f x)) -> outcome P (comprehension f xs).
Proof.
  induction xs as [ | x xs IH]; intros H.
  - left. eexists. reflexivity.
  - cbn [comprehension].
    destruct (H x (or_introl eq_refl)) as [[y Hy] | (e & He & Hlib)].
    + rewrite Hy. cbv beta iota delta [bind].
      destruct IH as [[ys Hys] | (e & He & Hlib)].
      * intros x' Hx'. apply H. now right.
      * rewrite Hys. left. eexists. reflexivity.
      * rewrite He. right. exists e. split; [reflexivity | assumption].
    + rewrite He. right. exists e. split; [reflexivity | assumption].
Qed.

Lemma weighted_rows_outcome (d mu : matrix F) (cov : list (matrix F))
    (pi : vector F) :
  length mu = length pi -> length cov = length pi ->
  outcome (fun e => refused mu cov pi e)
          (comprehension (weighted_pdf frozen_error pdf d mu cov pi)
                         (seq 0 (length pi))).
Proof.
  intros Hmu Hcov. apply comprehension_outcome. intros k Hk.
  apply in_seq in Hk. unfold weighted_pdf.
  rewrite (index_in_range pi k (of_Z 0)) by lia. cbv beta iota delta [bind].
  rewrite (index_in_range mu k []) by lia. cbv beta iota delta [bind].
  rewrite (index_in_range cov k []) by lia. cbv beta iota delta [bind].
  unfold multivariate_normal.
  destruct (frozen_error (nth k mu []) (nth k cov [])) as [e | ] eqn:Hfe.
  - right. exists e. split; [reflexivity | ].
    exists k. split; [lia | assumption].
  - left. eexists. reflexivity.
Qed.

Hypothesis data_in_the_plane : Forall (fun x => length x = 2%nat) data.
Hypothesis two_points_at_least : (2 <= length data)%nat.
Hypothesis scorer_outcome :
  forall mu cov pi,
    length pi <> 0%nat -> length mu = length pi -> length cov = length pi ->
    outcome (fun e => refused mu cov pi e) (scorer data mu cov pi).

Lemma ncols_data : ncols data = 2%nat.
Proof.
  destruct data as [ | x rest]; [simpl in two_points_at_least; lia | ].
  now inversion data_in_the_plane.
Qed.

Lemma expectation_step_outcome (mu : matrix F) (cov : list (matrix F))
    (pi : vector F) :
  length pi <> 0%nat -> length mu = length pi -> length cov = length pi ->
  outcome (fun e => refused mu cov pi e)
          (expectation_step frozen_error pdf data mu cov pi).
Proof.
  intros HK Hmu Hcov. unfold expectation_step.
  destruct (weighted_rows_outcome data mu cov pi Hmu Hcov)
    as [[w Hw] | (e & Hw & Hlib)]; rewrite Hw; cbv beta iota delta [bind].
  - apply Nat.eqb_neq in HK. rewrite HK.
    replace (length data =? 1)%nat with false
      by (symmetry; apply Nat.eqb_neq; lia).
    left. eexists. reflexivity.
  - right. exists e. split; [reflexivity | assumption].
Qed.

Lemma accumulate_density_outcome (pos : list (list (vector F)))
    (mu : matrix F) (cov : list (matrix F)) (pi : vector F) :
  length mu = length pi -> length cov = length pi ->
  Forall (fun m => length m = 2%nat) mu ->
  forall (n a : nat) (total : matrix F),
    (a + n <= length pi)%nat ->
    outcome (fun e => refused mu cov pi e)
            (accumulate_density frozen_error pdf pos mu cov pi total
                                (seq a n)).
Proof.
  intros Hmu Hcov Hdim.
  induction n as [ | n IH]; intros a total Hle.
  - left. eexists. reflexivity.
  - cbn [seq accumulate_density]. unfold add_component.
    rewrite (index_in_range mu a []) by lia. cbv beta iota delta [bind].
    rewrite (index_in_range cov a []) by lia. cbv beta iota delta [bind].
    unfold multivariate_normal.
    destruct (frozen_error (nth a mu []) (nth a cov [])) as [e | ] eqn:Hfe.
    + right. exists e. split; [reflexivity | ].
      exists a. split; [lia | assumption].
    + rewrite (index_in_range pi a (of_Z 0)) by lia.
      cbv beta iota delta [bind].
      assert (Ha : length (nth a mu []) = 2%nat).
      { rewrite Forall_forall in Hdim. apply Hdim, nth_In. lia. }
      rewrite Ha. cbn [Nat.eqb]. apply IH. lia.
Qed.

Lemma plot_outcome (mu : matrix F) (cov : list (matrix F)) (pi : vector F) :
  length mu = length pi -> length cov = length pi ->
  Forall (fun m => length m = 2%nat) mu ->
  outcome (fun e => refused mu cov pi e)
          (plot_step linspace frozen_error pdf data mu cov pi).
Proof.
  intros Hmu Hcov Hdim. unfold plot_step, plot_gaussian_mixtures. cbv zeta.
  destruct (accumulate_density_outcome
              (mesh_points (axis_ticks linspace)) mu cov pi Hmu Hcov Hdim
              (length pi) 0
              (map (map (fun _ => of_Z 0)) (mesh_points (axis_ticks linspace)))
              ltac:(lia))
    as [[total Ht] | (e & Ht & Hlib)]; rewrite Ht; cbv beta iota delta [bind].
  - unfold column. rewrite ncols_data. cbn [Nat.ltb Nat.leb].
    left. eexists. reflexivity.
  - right. exists e. split; [reflexivity | assumption].
Qed.

(** An iteration started with well-shaped parameters returns, with
    well-shaped parameters, or raises an exception with which the library
    refuses a component of the iteration. *)
Lemma loop_body_outcome (it : Z)
    (s : fit_state (vector F) (matrix F) (list (matrix F))) :
  well_shaped s ->
  (exists f, body it s = Returned f /\ well_shaped (flow_state f)) \/
  (exists e, body it s = Raised e /\ refused_in s e).
Proof.
  intros (HK & Hmu & Hcov).
  destruct (expectation_step_outcome (st_mu s) (st_cov s) (st_pi s) HK Hmu Hcov)
    as [[[[r m_c] pi'] HE] | (e & HE & Hlib)].
  2: { right. exists e. split; [ | left; assumption].
       apply loop_body_raises. left. exact HE. }
  pose proof (expectation_step_returned _ _ _ _ _ _ _ _ _ HE)
    as (w & _ & _ & _ & _ & Hm & Hpi).
  assert (Hlen_m : length m_c = length (st_pi s))
    by (now rewrite Hm, length_map, length_seq).
  assert (Hlen_pi : length pi' = length (st_pi s))
    by (now rewrite Hpi, length_map).
  pose proof (maximization_step_shapes data r m_c) as Hshape.
  destruct Hshape as (_ & Hlen_mu & Hdim & Hlen_cov & _).
  rewrite ncols_data in Hdim.
  assert (HM' : m_step data r m_c
                = Returned (fst (maximization_step data r m_c),
                            snd (maximization_step data r m_c)))
    by (unfold m_step; now rewrite <- surjective_pairing).
  remember (fst (maximization_step data r m_c)) as mu' eqn:Emu.
  remember (snd (maximization_step data r m_c)) as cov' eqn:Ecov.
  assert (Hshaped : forall f, body it s = Returned f -> well_shaped (flow_state f)).
  { intros f Hf. apply loop_body_steps in Hf.
    destruct Hf as (r1 & m1 & pi1 & mu1 & cov1 & a1 & HE1 & HM1 & _ & -> & ->
                    & -> & _).
    unfold e_step in HE1. rewrite HE in HE1. injection HE1 as <- <- <-.
    rewrite HM' in HM1. injection HM1 as <- <-.
    repeat split; congruence. }
  destruct (scorer_outcome mu' cov' pi') as [[a Ha] | (e & Ha & Hlib)];
    try congruence.
  2: { right. exists e. split.
       - apply loop_body_raises. right. exists r, m_c, pi'.
         split; [exact HE | ]. right. exists mu', cov'.
         split; [exact HM' | ]. left. exact Ha.
       - right. exists r, m_c, pi'. split; [exact HE | ].
         rewrite <- Emu, <- Ecov. exact Hlib. }
  destruct (plot_outcome mu' cov' pi') as [Hp | (e & Hp & Hlib)];
    try congruence.
  - left.
    destruct (loop_body_returns (e_step frozen_error pdf) m_step scorer
                (plot_step linspace frozen_error pdf) data max_iter threshold
                it s HE HM' Ha (fun _ => Hp)) as [f Hf].
    exists f. split; [assumption | now apply Hshaped].
  - destruct ((it mod 10 =? 0)%Z || (it =? max_iter - 1)%Z) eqn:Hscheduled.
    + right. exists e. split.
      * apply loop_body_raises. right. exists r, m_c, pi'.
        split; [exact HE | ]. right. exists mu', cov'.
        split; [exact HM' | ]. right. exists a.
        split; [exact Ha | split; [exact Hscheduled | exact Hp]].
      * right. exists r, m_c, pi'. split; [exact HE | ].
        rewrite <- Emu, <- Ecov. exact Hlib.
    + left.
      destruct (loop_body_returns (e_step frozen_error pdf) m_step scorer
                  (plot_step linspace frozen_error pdf) data max_iter threshold
                  it s HE HM' Ha) as [f Hf].
      * rewrite Hscheduled. discriminate.
      * exists f. split; [assumption | now apply Hshaped].
Qed.

(** The loop started with well-shaped parameters returns, or raises an
    exception with which the library refuses some mean and covariance. *)
Lemma for_loop_outcome (its : list Z)
    (s : fit_state (vector F) (matrix F) (list (matrix F))) :
  well_shaped s ->
  outcome (fun e => exists mean c, frozen_error mean c = Some e) (loop its s).
Proof.
  revert s. induction its as [ | it its IH]; intros s Hshaped.
  - left. eexists. reflexivity.
  - cbn [for_loop].
    destruct (loop_body_outcome it s Hshaped)
      as [(f & Hf & Hnext) | (e & Hf & Hlib)];
      rewrite Hf; cbv beta iota delta [bind].
    + destruct f as [s' | s']; [apply IH; exact Hnext | ].
      left. eexists. reflexivity.
    + right. exists e. split; [reflexivity | ].
      destruct Hlib as [(k & _ & Hk) | (r & m_c & pi' & _ & k & _ & Hk)];
        eauto.
Qed.

(** The parameters are well shaped at every head of the loop. *)
Lemma well_shaped_at_iteration (n : nat)
    (s0 s : fit_state (vector F) (matrix F) (list (matrix F))) :
  well_shaped s0 -> reach s0 n s -> well_shaped s.
Proof.
  intros Hshaped Hreach. induction Hreach as [ | n s s' _ IH _ Hbody].
  - assumption.
  - destruct (loop_body_outcome (Z.of_nat n) s IH)
      as [(f & Hf & Hnext) | (e & Hf & _)]; [ | congruence].
    rewrite Hbody in Hf. injection Hf as <-. exact Hnext.
Qed.

(** A run that raises has raised in an iteration that it got to, and with
    an exception with which the library refuses a component of that
    iteration. *)
Lemma run_raises_in_the_library (pi : vector F) (mu : matrix F)
    (cov : list (matrix F)) (e : exn) :
  length pi <> 0%nat -> length mu = length pi -> length cov = length pi ->
  run_em_algorithm (e_step frozen_error pdf) m_step scorer
                   (plot_step linspace frozen_error pdf)
                   data max_iter threshold pi mu cov = Raised e ->
  exists n s,
    reach (initial_state pi mu cov) n s /\ (Z.of_nat n < max_iter)%Z /\
    refused_in s e.
Proof.
  intros HK Hmu Hcov Hrun.
  unfold run_em_algorithm, run_em_loop, range in Hrun.
  destruct (loop (map Z.of_nat (seq 0 (Z.to_nat max_iter)))
                 (initial_state pi mu cov)) as [f | e'] eqn:Hloop;
    [discriminate | ].
  injection Hrun as ->.
  apply (for_loop_raises (s0 := initial_state pi mu cov)) in Hloop;
    [ | constructor | lia].
  destruct Hloop as (j & sj & Hreach & Hlt & Hbody).
  exists j, sj. split; [assumption | split; [assumption | ]].
  assert (Hshaped : well_shaped sj).
  { apply (well_shaped_at_iteration j (initial_state pi mu cov)); [ | assumption].
    repeat split; assumption. }
  destruct (loop_body_outcome (Z.of_nat j) sj Hshaped)
    as [(f & Hf & _) | (e' & Hf & Hlib)]; [congruence | ].
  rewrite Hbody in Hf. injection Hf as <-. exact Hlib.
Qed.

End Outcomes.

Section OutcomesOfTheFit.

Variable linspace : float -> float -> nat -> vector float.
Variable frozen_error : vector float -> matrix float -> option exn.
Variable pdf : vector float -> matrix float -> vector float -> float.
Variable log : float -> float.

Lemma compute_aic_outcome (data mu : matrix float) (cov : list (matrix float))
    (pi : vector float) :
  length pi <> 0%nat -> length mu = length pi -> length cov = length pi ->
  returns (compute_aic frozen_error pdf log data mu cov pi) \/
  exists e, compute_aic frozen_error pdf log data mu cov pi = Raised e /\
            exists k, (k < length pi)%nat /\
                      frozen_error (nth k mu []) (nth k cov []) = Some e.
Proof.
  intros HK Hmu Hcov. unfold compute_aic.
  rewrite (index_in_range mu 0 []) by lia. cbv beta iota delta [bind].
  destruct (weighted_rows_outcome frozen_error pdf data mu cov pi Hmu Hcov)
    as [[w Hw] | (e & Hw & Hlib)]; rewrite Hw.
  - left. eexists. reflexivity.
  - right. exists e. split; [reflexivity | assumption].
Qed.

(** X27: the fit raises through the library only.  In binary64, with
    [compute_aic] as the scorer and the plot of the module, for at least
    two points of the plane and at least one component, with one mean and
    one covariance per weight, all of the plane: if [run_em_algorithm]
    raises [e], then
    [multivariate_normal] has raised [e] in an iteration that the run got
    to within the budget, for a component [k] of that iteration: for its
    mean and covariance at the start of the iteration (the call of the
    E-step), or for those that the M-step of the iteration has made (the
    call of the scorer or of the scheduled plot).  The steps, the plot and
    the loop raise nothing else: no division by zero, NaN or infinity that
    they meet raises, and no budget or threshold does.  (The drawing calls
    of matplotlib are outside the model.) *)
Theorem fit_raises_only_through_the_library (data : matrix float)
    (max_iter : Z) (threshold : float) (pi : vector float)
    (mu : matrix float) (cov : list (matrix float)) (e : exn) :
  Forall (fun x => length x = 2%nat) data ->
  (2 <= length data)%nat ->
  length pi <> 0%nat ->
  parameter_shape (length pi) 2 pi mu cov ->
  run_em_algorithm (e_step frozen_error pdf) m_step
                   (compute_aic frozen_error pdf log)
                   (plot_step linspace frozen_error pdf)
                   data max_iter threshold pi mu cov = Raised e ->
  exists (n : nat) (s : fit_state (vector float) (matrix float)
                                  (list (matrix float))),
    at_iteration (e_step frozen_error pdf) m_step
                 (compute_aic frozen_error pdf log)
                 (plot_step linspace frozen_error pdf)
                 data max_iter threshold (initial_state pi mu cov) n s /\
    (Z.of_nat n < max_iter)%Z /\
    ((exists k, (k < length (st_pi s))%nat /\
                frozen_error (nth k (st_mu s) []) (nth k (st_cov s) [])
                = Some e) \/
     (exists r m_c pi',
        expectation_step frozen_error pdf data (st_mu s) (st_cov s) (st_pi s)
        = Returned (r, m_c, pi') /\
        exists k, (k < length pi')%nat /\
                  frozen_error
                    (nth k (fst (maximization_step data r m_c)) [])
                    (nth k (snd (maximization_step data r m_c)) [])
                  = Some e)).
Proof.
  intros Hplane HN HK (_ & Hmu & _ & Hcov & _) Hrun.
  exact (run_raises_in_the_library linspace frozen_error pdf
           (compute_aic frozen_error pdf log) data max_iter threshold
           Hplane HN
           (fun mu' cov' pi' => compute_aic_outcome data mu' cov' pi')
           pi mu cov e HK Hmu Hcov Hrun).
Qed.

End OutcomesOfTheFit.

Lemma fit_raises_only_through_the_library_witness :
  exists (n : nat) (s : fit_state (vector float) (matrix float)
                                  (list (matrix float))),
    at_iteration (e_step Standin.rejects_all Standin.flat_pdf) m_step
                 (compute_aic Standin.rejects_all Standin.flat_pdf
                              (fun x => x))
                 (plot_step Standin.two_ticks Standin.rejects_all
                            Standin.flat_pdf)
                 Standin.two_points 200 (of_int 1)
                 (initial_state Standin.equal_weights Standin.two_means
                                Standin.unit_covariances) n s /\
    (Z.of_nat n < 200)%Z /\
    ((exists k, (k < length (st_pi s))%nat /\
                Standin.rejects_all (nth k (st_mu s) []) (nth k (st_cov s) [])
                = Some LinAlgError) \/
     (exists r m_c pi',
        expectation_step Standin.rejects_all Standin.flat_pdf
                         Standin.two_points (st_mu s) (st_cov s) (st_pi s)
        = Returned (r, m_c, pi') /\
        exists k, (k < length pi')%nat /\
                  Standin.rejects_all
                    (nth k (fst (maximization_step Standin.two_points r m_c))
                         [])
                    (nth k (snd (maximization_step Standin.two_points r m_c))
                         [])
                  = Some LinAlgError)).
Proof.
  apply (fit_raises_only_through_the_library Standin.two_ticks
           Standin.rejects_all Standin.flat_pdf (fun x => x)
           Standin.two_points 200 (of_int 1)
           Standin.equal_weights Standin.two_means Standin.unit_covariances
           LinAlgError).
  - repeat constructor.
  - simpl. lia.
  - simpl. discriminate.
  - repeat split; repeat constructor.
  - reflexivity.
Defined.

Lemma main_plots_the_scores_of_the_fit_witness :
  exists out,
    main (F:=float) Standin.counting_seed Standin.mean_draw
         Standin.two_ticks Standin.accepts_all Standin.flat_pdf
         (fun _ : Z => Standin.half_rand tt)
         (Standin.constant_scorer (of_int 3)) = Returned out /\
    (4 <= length (plotted_scores out) <= 200)%nat.
Proof.
  assert (Hret : returns
    (main (F:=float) Standin.counting_seed Standin.mean_draw
          Standin.two_ticks Standin.accepts_all Standin.flat_pdf
          (fun _ : Z => Standin.half_rand tt)
          (Standin.constant_scorer (of_int 3)))).
  { assert (Hgen : returns
      (generate_gaussian_samples (F:=float) Standin.counting_seed
         Standin.mean_draw true_means true_covariances)).
    { eexists. vm_compute. reflexivity. }
    destruct Hgen as [[samples figure] Hgen].
    destruct (generated_shape nat Standin.counting_seed Standin.mean_draw
                _ _ _ _ Hgen) as [Hrows Hcols].
    assert (HN : (2 <= length samples)%nat).
    { rewrite Hrows. apply Nat.leb_le. vm_compute. reflexivity. }
    assert (Hinit : exists pis mus sigmas,
      initialize_parameters (F:=float) (fun _ : Z => Standin.half_rand tt)
                            4 0%Z = Returned (pis, mus, sigmas) /\
      length pis <> 0%nat /\ length mus = length pis /\
      length sigmas = length pis).
    { do 3 eexists. split; [vm_compute; reflexivity | ].
      split; [discriminate | split; reflexivity]. }
    destruct Hinit as (pis & mus & sigmas & Hinit & Hshaped).
    destruct (for_loop_outcome Standin.two_ticks Standin.accepts_all
                Standin.flat_pdf
                (Standin.constant_scorer (of_int 3)) samples 200
                (fdiv (of_int 1) (of_int 10)) Hcols HN
                (fun mu cov pi _ _ _ =>
                   or_introl (ex_intro _ (of_int 3) eq_refl))
                (range 200) (initial_state pis mus sigmas) Hshaped)
      as [[f Hf] | (e & _ & mean & c & Habs)]; [ | discriminate Habs].
    unfold main, run_em_loop. rewrite Hgen. cbv beta iota delta [bind].
    rewrite Hinit. cbv beta iota. rewrite Hf. eexists. reflexivity. }
  destruct Hret as [out Hout]. exists out. split; [exact Hout | ].
  exact (proj1 (proj2 (proj2 (main_plots_the_scores_of_the_fit nat
           Standin.counting_seed Standin.mean_draw Standin.two_ticks
           Standin.accepts_all
           Standin.flat_pdf (fun _ : Z => Standin.half_rand tt)
           (Standin.constant_scorer (of_int 3)) out Hout)))).
Defined.
